(** * change_task_description.py: a shallow embedding and its properties

    The script relabels the task descriptions of a LeRobot dataset: it
    rewrites [meta/episodes.jsonl] and [meta/tasks.jsonl], one JSON record
    per line, after parsing the task argument given on the command line.

    Modelling boundary.
    - A Python [str] is a Rocq [string]; a character is a code point below
      256.  Text beyond that range is outside the model.
    - JSON numbers are the integers.  A number with a fraction or an
      exponent, [NaN] and the infinities are outside the model: the decoder
      answers [Unmodelled] for them, never an error it does not raise.
    - [ast.literal_eval] is a parameter of the development.
    - A [Path] is the list of its parts, and a run starts from the path that
      [Path(dataset_dir)] builds.  The file system is a finite map from
      paths to nodes, without links; copying onto a directory is outside
      the model.  The progress messages printed on the way are not part of
      the state; the operations on files are logged. *)

From Stdlib Require Import Ascii Decimal DecimalString DecimalFacts DecimalPos DecimalN
  DecimalZ ZArith.
From stdpp Require Import base option list gmap strings.

Local Open Scope stdpp_scope.

(** ** Outcomes of a Python computation *)

Inductive exn : Type :=
| FileNotFoundError (msg : string)   (* raised by the script, with its text *)
| OSError                            (* raised by [open]: no file, a directory *)
| JSONDecodeError
| TypeError
| ValueError
| SyntaxError
| MemoryError
| RecursionError.

Inductive outcome (A : Type) : Type :=
| Ok (a : A)
| Raise (e : exn)
| Unmodelled.

Arguments Ok {A} a.
Arguments Raise {A} e.
Arguments Unmodelled {A}.

#[global] Instance outcome_ret : MRet outcome := fun A a => Ok a.
#[global] Instance outcome_bind : MBind outcome := fun A B f m =>
  match m with
  | Ok a => f a
  | Raise e => Raise e
  | Unmodelled => Unmodelled
  end.

(** ** Python string methods *)

Module Str.

(** [str.isspace] on the code points below 256. *)
Definition is_space (c : ascii) : bool :=
  match c with
  | ("009" | "010" | "011" | "012" | "013"
     | "028" | "029" | "030" | "031" | " " | "133" | "160")%char => true
  | _ => false
  end.

Fixpoint lstrip (s : string) : string :=
  match s with
  | String c r => if is_space c then lstrip r else s
  | EmptyString => EmptyString
  end.

Fixpoint rstrip (s : string) : string :=
  match s with
  | EmptyString => EmptyString
  | String c r =>
      match rstrip r with
      | EmptyString => if is_space c then EmptyString else String c EmptyString
      | r' => String c r'
      end
  end.

(** [s.strip()] *)
Definition strip (s : string) : string := rstrip (lstrip s).

(** [s.startswith(c)] and [s.endswith(c)] for a one-character argument. *)
Definition startswith (c : ascii) (s : string) : bool :=
  match s with
  | String a _ => Ascii.eqb a c
  | EmptyString => false
  end.

Fixpoint endswith (c : ascii) (s : string) : bool :=
  match s with
  | EmptyString => false
  | String a EmptyString => Ascii.eqb a c
  | String _ r => endswith c r
  end.

(** [c in s] *)
Fixpoint contains (c : ascii) (s : string) : bool :=
  match s with
  | EmptyString => false
  | String a r => Ascii.eqb a c || contains c r
  end.

(** [s.split(c)]: never empty, [''.split(',') == ['']]. *)
Fixpoint split (c : ascii) (s : string) : list string :=
  match s with
  | EmptyString => [EmptyString]
  | String a r =>
      if Ascii.eqb a c then EmptyString :: split c r
      else match split c r with
           | p :: ps => String a p :: ps
           | [] => [String a EmptyString]
           end
  end.

(** Truth value of a string: [bool(s)]. *)
Definition nonempty (s : string) : bool :=
  match s with EmptyString => false | String _ _ => true end.

(** [sep.join(l)] *)
Fixpoint join (sep : string) (l : list string) : string :=
  match l with
  | [] => EmptyString
  | [x] => x
  | x :: l' => x +:+ sep +:+ join sep l'
  end.

End Str.

(** ** The task-input parser *)

(** What [ast.literal_eval] can hand back, as far as the parser looks at it:
    a list, a string, or anything else. *)
#[warnings="-register-all"]
Inductive pyobj : Type :=
| PyStr (s : string)
| PyList (l : list pyobj)
| PyOther.

Definition as_str (v : pyobj) : option string :=
  match v with PyStr s => Some s | _ => None end.

(** [isinstance(tasks, list) and all(isinstance(t, str) for t in tasks)],
    giving the strings when it holds. *)
Definition list_of_str (tasks : pyobj) : option (list string) :=
  match tasks with
  | PyList l => mapM as_str l
  | _ => None
  end.

Section Parser.

Variable literal_eval : string -> outcome pyobj.

(** Lines 77-83: the attempt to read the argument as a list literal.
    [Ok None] is the fall through to the next rule; [ValueError] and
    [SyntaxError] are caught, any other exception leaves the function. *)
Definition literal_attempt (task_input : string) : outcome (option (list string)) :=
  if Str.startswith "[" task_input && Str.endswith "]" task_input then
    match literal_eval task_input with
    | Ok tasks => Ok (list_of_str tasks)
    | Raise ValueError | Raise SyntaxError => Ok None
    | Raise e => Raise e
    | Unmodelled => Unmodelled
    end
  else Ok None.

Definition parse_task_input (task_input : string) : outcome (list string) :=
  let task_input := Str.strip task_input in
  attempt ← literal_attempt task_input;
  match attempt with
  | Some tasks => Ok tasks
  | None =>
      if Str.contains "," task_input then
        let tasks := Str.strip <$> Str.split "," task_input in
        Ok (List.filter Str.nonempty tasks)
      else Ok [task_input]
  end.

End Parser.

(** ** JSON values, [json.dumps] and [json.loads] *)

(** A Python [dict] keeps its keys in insertion order and holds each key
    once: an association list, updated in place or extended at the end. *)
Section Dict.

Context {A : Type}.

Fixpoint dict_set (k : string) (v : A) (d : list (string * A)) : list (string * A) :=
  match d with
  | [] => [(k, v)]
  | (k', v') :: d' =>
      if String.eqb k' k then (k', v) :: d' else (k', v') :: dict_set k v d'
  end.

Fixpoint dict_get (k : string) (d : list (string * A)) : option A :=
  match d with
  | [] => None
  | (k', v') :: d' => if String.eqb k' k then Some v' else dict_get k d'
  end.

(** [dict(pairs)]: a later pair overwrites an earlier one with its key. *)
Definition dict (pairs : list (string * A)) : list (string * A) :=
  fold_left (fun d kv => dict_set kv.1 kv.2 d) pairs [].

End Dict.

#[warnings="-register-all"]
Inductive json : Type :=
| JNull
| JBool (b : bool)
| JInt (z : Z)
| JStr (s : string)
| JArr (l : list json)
| JObj (d : list (string * json)).

(** [obj[k] = v]: only a dict supports item assignment by a string key. *)
Definition setitem (obj : json) (k : string) (v : json) : outcome json :=
  match obj with
  | JObj d => Ok (JObj (dict_set k v d))
  | _ => Raise TypeError
  end.

Module Json.

Definition quote : ascii := "034".

Definition hex_digit (n : N) : ascii :=
  default "f"%char (String.list_ascii_of_string "0123456789abcdef" !! N.to_nat n).

Definition printable (c : ascii) : bool :=
  (32 <=? N_of_ascii c)%N && (N_of_ascii c <=? 126)%N.

(** One character under [ensure_ascii=True]. *)
Definition escape_char (c : ascii) : string :=
  match c with
  | "034"%char => String "\" (String quote EmptyString)
  | "\"%char => "\\"
  | "008"%char => "\b"
  | "012"%char => "\f"
  | "010"%char => "\n"
  | "013"%char => "\r"
  | "009"%char => "\t"
  | _ =>
      if printable c then String c EmptyString
      else "\u00" +:+ String (hex_digit (N_of_ascii c / 16))
                       (String (hex_digit (N_of_ascii c mod 16)) EmptyString)
  end.

Fixpoint escape (s : string) : string :=
  match s with
  | EmptyString => EmptyString
  | String c r => escape_char c +:+ escape r
  end.

Definition encode_basestring_ascii (s : string) : string :=
  String quote (escape s +:+ String quote EmptyString).

(** [str(z)] for an [int]. *)
Definition str_int (z : Z) : string :=
  DecimalString.NilZero.string_of_int (Z.to_int z).

(** [json.dumps(v)] with the default separators. *)
Fixpoint dumps (v : json) : string :=
  match v with
  | JNull => "null"
  | JBool true => "true"
  | JBool false => "false"
  | JInt z => str_int z
  | JStr s => encode_basestring_ascii s
  | JArr l => "[" +:+ Str.join ", " (dumps <$> l) +:+ "]"
  | JObj d =>
      "{" +:+ Str.join ", "
                ((fun kv => encode_basestring_ascii kv.1 +:+ ": " +:+ dumps kv.2) <$> d)
          +:+ "}"
  end.

(** The decoder's whitespace: space, tab, line feed, carriage return. *)
Definition is_ws (c : ascii) : bool :=
  match c with
  | (" " | "009" | "010" | "013")%char => true
  | _ => false
  end.

Fixpoint skip_ws (s : string) : string :=
  match s with
  | String c r => if is_ws c then skip_ws r else s
  | EmptyString => EmptyString
  end.

(** The value of a hexadecimal digit, in either case. *)
Definition hex_value (c : ascii) : option N :=
  let n := N_of_ascii c in
  if (N_of_ascii "0" <=? n)%N && (n <=? N_of_ascii "9")%N
  then Some (n - N_of_ascii "0")%N
  else if (N_of_ascii "a" <=? n)%N && (n <=? N_of_ascii "f")%N
  then Some (n - N_of_ascii "a" + 10)%N
  else if (N_of_ascii "A" <=? n)%N && (n <=? N_of_ascii "F")%N
  then Some (n - N_of_ascii "A" + 10)%N
  else None.

Definition hex4 (h1 h2 h3 h4 : ascii) : option N :=
  a ← hex_value h1; b ← hex_value h2; c ← hex_value h3; d ← hex_value h4;
  Some (((a * 16 + b) * 16 + c) * 16 + d)%N.

(** The character a one-letter escape stands for. *)
Definition unescape (e : ascii) : option ascii :=
  match e with
  | "034"%char => Some quote
  | "\"%char => Some "\"%char
  | "/"%char => Some "/"%char
  | "b"%char => Some "008"%char
  | "f"%char => Some "012"%char
  | "n"%char => Some "010"%char
  | "r"%char => Some "013"%char
  | "t"%char => Some "009"%char
  | _ => None
  end.

Definition push (c : ascii) (m : outcome (string * string)) : outcome (string * string) :=
  '(k, r) ← m; Ok (String c k, r).

(** The body of a string, after its opening quote, with the text that
    follows the closing quote.  A raw control character, a bad escape and
    a missing closing quote are decoding errors. *)
Fixpoint scanstring (s : string) : outcome (string * string) :=
  match s with
  | EmptyString => Raise JSONDecodeError
  | String c r =>
      if Ascii.eqb c quote then Ok (EmptyString, r)
      else if Ascii.eqb c "\" then
        match r with
        | EmptyString => Raise JSONDecodeError
        | String e r1 =>
            if Ascii.eqb e "u" then
              match r1 with
              | String h1 (String h2 (String h3 (String h4 r2))) =>
                  match hex4 h1 h2 h3 h4 with
                  | Some n =>
                      if (n <? 256)%N then push (ascii_of_N n) (scanstring r2)
                      else Unmodelled
                  | None => Unmodelled
                  end
              | _ => Raise JSONDecodeError
              end
            else
              match unescape e with
              | Some c' => push c' (scanstring r1)
              | None => Raise JSONDecodeError
              end
        end
      else if (N_of_ascii c <? 32)%N then Raise JSONDecodeError
      else push c (scanstring r)
  end.

Definition digit (c : ascii) : option (uint -> uint) :=
  match c with
  | "0"%char => Some D0 | "1"%char => Some D1 | "2"%char => Some D2
  | "3"%char => Some D3 | "4"%char => Some D4 | "5"%char => Some D5
  | "6"%char => Some D6 | "7"%char => Some D7 | "8"%char => Some D8
  | "9"%char => Some D9
  | _ => None
  end.

Fixpoint scan_digits (s : string) : uint * string :=
  match s with
  | EmptyString => (Nil, EmptyString)
  | String c r =>
      match digit c with
      | Some d => let '(u, r') := scan_digits r in (d u, r')
      | None => (Nil, s)
      end
  end.

(** A fraction or an exponent may follow: a float, outside the model. *)
Definition float_follows (s : string) : bool :=
  match s with
  | String ("." | "e" | "E")%char _ => true
  | _ => false
  end.

(** The integer part of a number, after its sign: a lone zero, or a digit
    from 1 to 9 followed by any digits. *)
Definition scan_integer (neg : bool) (s : string) : outcome (json * string) :=
  match s with
  | EmptyString => Raise JSONDecodeError
  | String c r =>
      match digit c with
      | Some d =>
          let '(u, r') := if Ascii.eqb c "0" then (Nil, r) else scan_digits r in
          if float_follows r' then Unmodelled
          else
            let n := Z.of_uint (d u) in
            Ok (JInt (if neg then (- n)%Z else n), r')
      | None =>
          if neg && Ascii.eqb c "I" then Unmodelled else Raise JSONDecodeError
      end
  end.

Definition scan_number (s : string) : outcome (json * string) :=
  match s with
  | String c r => if Ascii.eqb c "-" then scan_integer true r else scan_integer false s
  | EmptyString => Raise JSONDecodeError
  end.

Fixpoint drop_prefix (p s : string) : option string :=
  match p, s with
  | EmptyString, _ => Some s
  | String a p', String b s' => if Ascii.eqb a b then drop_prefix p' s' else None
  | String _ _, EmptyString => None
  end.

Definition keyword (word : string) (v : json) (s : string) : outcome (json * string) :=
  match drop_prefix word s with
  | Some r => Ok (v, r)
  | None => Raise JSONDecodeError
  end.

(** One value at the head of [s], and the text after it.  [fuel] bounds
    the calls; [loads] gives more than the text can use. *)
Fixpoint scan_once (fuel : nat) (s : string) {struct fuel} : outcome (json * string) :=
  match fuel with
  | O => Unmodelled
  | S fuel =>
      match s with
      | EmptyString => Raise JSONDecodeError
      | String c r =>
          if Ascii.eqb c quote then
            ('(k, r') ← scanstring r; Ok (JStr k, r'))
          else if Ascii.eqb c "{" then
            match skip_ws r with
            | String c' r' =>
                if Ascii.eqb c' "}" then Ok (JObj [], r')
                else if Ascii.eqb c' quote then
                  ('(pairs, r'') ← scan_members fuel r'; Ok (JObj (dict pairs), r''))
                else Raise JSONDecodeError
            | EmptyString => Raise JSONDecodeError
            end
          else if Ascii.eqb c "[" then
            match skip_ws r with
            | String c' r' =>
                if Ascii.eqb c' "]" then Ok (JArr [], r')
                else
                  ('(items, r'') ← scan_items fuel (String c' r'); Ok (JArr items, r''))
            | EmptyString => Raise JSONDecodeError
            end
          else if Ascii.eqb c "n" then keyword "null" JNull s
          else if Ascii.eqb c "t" then keyword "true" (JBool true) s
          else if Ascii.eqb c "f" then keyword "false" (JBool false) s
          else if Ascii.eqb c "N" || Ascii.eqb c "I" then Unmodelled
          else scan_number s
      end
  end

(** The members of an object, from just after the opening quote of a key
    up to and including the closing brace. *)
with scan_members (fuel : nat) (s : string) {struct fuel}
    : outcome (list (string * json) * string) :=
  match fuel with
  | O => Unmodelled
  | S fuel =>
      '(k, r) ← scanstring s;
      match skip_ws r with
      | String c r =>
          if Ascii.eqb c ":" then
            '(v, r) ← scan_once fuel (skip_ws r);
            match skip_ws r with
            | String c r =>
                if Ascii.eqb c "}" then Ok ([(k, v)], r)
                else if Ascii.eqb c "," then
                  match skip_ws r with
                  | String c r =>
                      if Ascii.eqb c quote then
                        ('(pairs, r) ← scan_members fuel r; Ok ((k, v) :: pairs, r))
                      else Raise JSONDecodeError
                  | EmptyString => Raise JSONDecodeError
                  end
                else Raise JSONDecodeError
            | EmptyString => Raise JSONDecodeError
            end
          else Raise JSONDecodeError
      | EmptyString => Raise JSONDecodeError
      end
  end

(** The items of a non-empty array, up to and including the closing
    bracket. *)
with scan_items (fuel : nat) (s : string) {struct fuel}
    : outcome (list json * string) :=
  match fuel with
  | O => Unmodelled
  | S fuel =>
      '(v, r) ← scan_once fuel s;
      match skip_ws r with
      | String c r =>
          if Ascii.eqb c "]" then Ok ([v], r)
          else if Ascii.eqb c "," then
            ('(items, r) ← scan_items fuel (skip_ws r); Ok (v :: items, r))
          else Raise JSONDecodeError
      | EmptyString => Raise JSONDecodeError
      end
  end.

(** [json.loads(s)] *)
Definition loads (s : string) : outcome json :=
  let s := skip_ws s in
  '(v, r) ← scan_once (2 * String.length s + 2) s;
  match skip_ws r with
  | EmptyString => Ok v
  | String _ _ => Raise JSONDecodeError
  end.

End Json.

(** ** Paths and the file system *)

Abbreviation path := (list string).

(** [p / name] *)
Definition joinpath (p : path) (name : string) : path := p ++ [name].

(** [str(p)]: the parts joined by slashes, after the root if there is one. *)
Definition str_path (p : path) : string :=
  match p with
  | [] => "."
  | "/" :: rest => "/" +:+ Str.join "/" rest
  | _ => Str.join "/" p
  end.

(** [name.rfind('.')] *)
Fixpoint rfind_dot (name : string) : option nat :=
  match name with
  | EmptyString => None
  | String c r =>
      match rfind_dot r with
      | Some i => Some (S i)
      | None => if Ascii.eqb c "." then Some 0 else None
      end
  end.

(** [PurePath.stem]: the name without its last suffix. *)
Definition stem (name : string) : string :=
  match rfind_dot name with
  | Some i =>
      if (0 <? i) && (i <? String.length name - 1)
      then String.substring 0 i name else name
  | None => name
  end.

(** [p.with_suffix(suffix)], for a suffix that pathlib accepts. *)
Definition with_suffix (p : path) (suffix : string) : outcome path :=
  match last p with
  | None | Some "" | Some "/" => Raise ValueError
  | Some name => Ok (removelast p ++ [stem name +:+ suffix])
  end.

Inductive node : Type :=
| Dir
| File (content : string).

(** What the run did to the files, in order. *)
Inductive event : Type :=
| Read (p : path)
| Copied (src dst : path)
| Written (p : path) (content : string).

Record world : Type := World {
  nodes : gmap path node;
  trace : list event
}.

(** A computation on the files: the world it leaves, also when it raises. *)
Definition M (A : Type) : Type := world -> world * outcome A.

#[global] Instance M_ret : MRet M := fun A a w => (w, Ok a).
#[global] Instance M_bind : MBind M := fun A B f m w =>
  match m w with
  | (w', Ok a) => f a w'
  | (w', Raise e) => (w', Raise e)
  | (w', Unmodelled) => (w', Unmodelled)
  end.

Definition lift {A} (o : outcome A) : M A := fun w => (w, o).
Definition raise {A} (e : exn) : M A := lift (Raise e).
Definition pass : M unit := lift (Ok ()).

(** [p.exists()] *)
Definition path_exists (p : path) : M bool :=
  fun w => (w, Ok (bool_decide (is_Some (nodes w !! p)))).

(** [open(p, 'r')] and reading the text to its end. *)
Definition read_text (p : path) : M string :=
  fun w =>
    match nodes w !! p with
    | Some (File content) =>
        (World (nodes w) (trace w ++ [Read p]), Ok content)
    | Some Dir | None => (w, Raise OSError)
    end.

(** [open(p, 'w')], the writes and the close. *)
Definition write_text (p : path) (content : string) : M unit :=
  fun w =>
    match nodes w !! p with
    | Some Dir => (w, Raise OSError)
    | Some (File _) | None =>
        (World (<[p := File content]> (nodes w)) (trace w ++ [Written p content]),
         Ok ())
    end.

(** [os.path.basename] of a path: its last part, empty for the root and
    for the empty path. *)
Definition basename (p : path) : string :=
  match last p with
  | Some "/" | None => ""
  | Some name => name
  end.

(** Where [shutil.copy2(src, dst)] puts the copy: in [dst], or under the
    name of [src] inside [dst] when [dst] is a directory. *)
Definition copy_target (w : world) (src dst : path) : path :=
  match nodes w !! dst with
  | Some Dir => if Str.nonempty (basename src) then joinpath dst (basename src) else dst
  | Some (File _) | None => dst
  end.

(** [shutil.copy2(src, dst)]: [SameFileError] when the copy would land on
    [src] itself, the error of [open] when [src] is not a file or when a
    directory sits where the copy is to be written.  The log records the
    call. *)
Definition copy2 (src dst : path) : M unit :=
  fun w =>
    let target := copy_target w src dst in
    match nodes w !! src with
    | Some (File content) =>
        if bool_decide (target = src) then (w, Raise OSError)
        else
          match nodes w !! target with
          | Some Dir => (w, Raise OSError)
          | Some (File _) | None =>
              (World (<[target := File content]> (nodes w))
                     (trace w ++ [Copied src dst]),
               Ok ())
          end
    | Some Dir | None => (w, Raise OSError)
    end.

Definition newline : string := String "010" EmptyString.

(** The lines a text file yields when iterated, each with its end of line;
    a carriage return, alone or before a line feed, ends a line too and is
    read as a line feed. *)
Fixpoint readlines (s : string) : list string :=
  match s with
  | EmptyString => []
  | String c r =>
      if Ascii.eqb c "010" then newline :: readlines r
      else if Ascii.eqb c "013" then
        match r with
        | String "010" r' => newline :: readlines r'
        | _ => newline :: readlines r
        end
      else
        match readlines r with
        | [] => [String c EmptyString]
        | line :: lines => String c line :: lines
        end
  end.

(** ** The record rewriter *)

(** The write loop: [f.write(json.dumps(record) + '\n')] for each record. *)
Fixpoint write_records (records : list json) : string :=
  match records with
  | [] => EmptyString
  | record :: records => Json.dumps record +:+ newline +:+ write_records records
  end.

(** The read loop of [update_episodes_jsonl]. *)
Fixpoint read_episodes (new_tasks : list string) (lines : list string)
    : outcome (list json) :=
  match lines with
  | [] => Ok []
  | line :: lines =>
      episode ← Json.loads (Str.strip line);
      episode ← setitem episode "tasks" (JArr (JStr <$> new_tasks));
      episodes ← read_episodes new_tasks lines;
      Ok (episode :: episodes)
  end.

(** [new_tasks[0] if new_tasks else ''] *)
Definition first_task (new_tasks : list string) : string :=
  match new_tasks with
  | task :: _ => task
  | [] => EmptyString
  end.

(** The read loop of [update_tasks_jsonl]. *)
Fixpoint read_tasks (new_tasks : list string) (lines : list string)
    : outcome (list json) :=
  match lines with
  | [] => Ok []
  | line :: lines =>
      let line := Str.strip line in
      if Str.nonempty line then
        task ← Json.loads line;
        task ← setitem task "task" (JStr (first_task new_tasks));
        tasks ← read_tasks new_tasks lines;
        Ok (task :: tasks)
      else read_tasks new_tasks lines
  end.

Definition backup (file : path) (create_backup : bool) : M unit :=
  if create_backup then
    backup_file ← lift (with_suffix file ".jsonl.backup");
    copy2 file backup_file
  else pass.

Definition update_episodes_jsonl (episodes_file : path) (new_tasks : list string)
    (create_backup : bool) : M unit :=
  content ← read_text episodes_file;
  episodes ← lift (read_episodes new_tasks (readlines content));
  _ ← backup episodes_file create_backup;
  write_text episodes_file (write_records episodes).

Definition update_tasks_jsonl (tasks_file : path) (new_tasks : list string)
    (create_backup : bool) : M unit :=
  content ← read_text tasks_file;
  tasks ← lift (read_tasks new_tasks (readlines content));
  _ ← backup tasks_file create_backup;
  write_text tasks_file (write_records tasks).

(** ** The orchestrator and the entry point *)

(** [new_tasks : Union[str, List[str]]] *)
Inductive task_arg : Type :=
| RawText (s : string)
| TaskList (l : list string).

(** How a run ends: silently, or with the line the handler prints. *)
Inductive report : Type :=
| Success
| Failure (e : exn).

Definition exit_code (r : report) : Z :=
  match r with
  | Success => 0
  | Failure _ => 1
  end.

(** The text of a string as Unicode code points. *)
Definition code_points (s : string) : list N :=
  N_of_ascii <$> String.list_ascii_of_string s.

(** U+274C, the mark that opens the line the handler prints. *)
Definition cross_mark : N := 10060.

(** [f"<mark> Error: {e}"], as code points, for a failure whose text the
    script wrote itself. *)
Definition error_line (e : exn) : option (list N) :=
  match e with
  | FileNotFoundError msg => Some (cross_mark :: code_points (" Error: " +:+ msg))
  | _ => None
  end.

(** What the handler prints at the end of a run: nothing after a success. *)
Definition printed (r : report) : option (list N) :=
  match r with
  | Success => None
  | Failure e => error_line e
  end.

Section Orchestrator.

Variable literal_eval : string -> outcome pyobj.

Definition require (p : path) (what : string) : M unit :=
  found ← path_exists p;
  if found : bool then pass
  else raise (FileNotFoundError (what +:+ " not found: " +:+ str_path p)).

Definition change_task_description (dataset_path : path) (new_tasks : task_arg)
    (create_backup : bool) : M unit :=
  _ ← require dataset_path "Dataset directory";
  let meta_dir := joinpath dataset_path "meta" in
  _ ← require meta_dir "Meta directory";
  let episodes_file := joinpath meta_dir "episodes.jsonl" in
  let tasks_file := joinpath meta_dir "tasks.jsonl" in
  _ ← require episodes_file "Episodes file";
  _ ← require tasks_file "Tasks file";
  parsed_tasks ←
    match new_tasks with
    | RawText s => lift (parse_task_input literal_eval s)
    | TaskList l => lift (Ok l)
    end;
  _ ← update_episodes_jsonl episodes_file parsed_tasks create_backup;
  update_tasks_jsonl tasks_file parsed_tasks create_backup.

(** The [__main__] block once the arguments are parsed; [None] when the
    run leaves the model. *)
Definition main (dataset_path : path) (new_tasks : string) (create_backup : bool)
    (w : world) : world * option report :=
  match change_task_description dataset_path (RawText new_tasks) create_backup w with
  | (w', Ok _) => (w', Some Success)
  | (w', Raise e) => (w', Some (Failure e))
  | (w', Unmodelled) => (w', None)
  end.

End Orchestrator.

(** ** Vocabulary of the statements *)

(** Every character of [s] satisfies [P]. *)
Fixpoint all_chars (P : ascii -> bool) (s : string) : bool :=
  match s with
  | EmptyString => true
  | String c r => P c && all_chars P r
  end.

Definition comma_or_space (c : ascii) : bool :=
  Ascii.eqb c "," || Str.is_space c.

(** A few arguments with what [ast.literal_eval] answers on them. *)
Definition sample_eval (s : string) : outcome pyobj :=
  if String.eqb s "[a, b]" then Raise ValueError
  else if String.eqb s "[,]" then Raise SyntaxError
  else if String.eqb s "[1,2]" then Ok (PyList [PyOther; PyOther])
  else if String.eqb s "[{[]: 1}, 2]" then Raise TypeError
  else if String.eqb s "['Pick','Place']" then Ok (PyList [PyStr "Pick"; PyStr "Place"])
  else if String.eqb s "['', 'a']" then Ok (PyList [PyStr ""; PyStr "a"])
  else Unmodelled.

(** Every object in the value holds each of its keys once, as the objects
    that the decoder builds do. *)
#[warnings="-register-all"]
Inductive keys_once : json -> Prop :=
| keys_once_null : keys_once JNull
| keys_once_bool b : keys_once (JBool b)
| keys_once_int z : keys_once (JInt z)
| keys_once_str s : keys_once (JStr s)
| keys_once_arr l : Forall keys_once l -> keys_once (JArr l)
| keys_once_obj d :
    NoDup d.*1 -> Forall (fun kv => keys_once kv.2) d -> keys_once (JObj d).

(** A bound on the calls the decoder makes to read a value back. *)
Fixpoint size (v : json) : nat :=
  match v with
  | JArr l => S (list_sum ((fun x => S (size x)) <$> l))
  | JObj d => S (list_sum ((fun kv => S (size kv.2)) <$> d))
  | _ => 1
  end.

(** What may follow a value inside a text: nothing, a comma, or a closing
    bracket or brace. *)
Definition closes (rest : string) : bool :=
  match rest with
  | EmptyString => true
  | String c _ => Ascii.eqb c "," || Ascii.eqb c "]" || Ascii.eqb c "}"
  end.

(** The property carried through the induction on a value: its text, with
    enough fuel and before a closing character, decodes to the value. *)
Definition reads_back (v : json) : Prop :=
  forall fuel rest,
    size v <= fuel -> closes rest = true ->
    Json.scan_once fuel (Json.dumps v +:+ rest) = Ok (v, rest).

(** Reading lines as JSON: each line trimmed and decoded, none skipped. *)
Fixpoint load_lines (lines : list string) : outcome (list json) :=
  match lines with
  | [] => Ok []
  | line :: lines =>
      v ← Json.loads (Str.strip line);
      vs ← load_lines lines;
      Ok (v :: vs)
  end.

(** A line with something on it besides white space. *)
Definition nonblank (line : string) : bool := Str.nonempty (Str.strip line).

(** [d'] has [v] in the field [k] and, in every other field, what [d] has. *)
Definition field_replaced (k : string) (v : json) (d d' : list (string * json)) : Prop :=
  dict_get k d' = Some v /\ forall k', k' <> k -> dict_get k' d' = dict_get k' d.

(** The shape the two rewriters share: read and update every record, copy
    the file if asked, write the records. *)
Definition rewrite_with (read_loop : list string -> outcome (list json))
    (file : path) (create_backup : bool) : M unit :=
  content ← read_text file;
  records ← lift (read_loop (readlines content));
  _ ← backup file create_backup;
  write_text file (write_records records).

(** The four paths a run needs, in the order it checks them, each with the
    words its absence is reported in. *)
Definition required_paths (dataset_path : path) : list (string * path) :=
  let meta_dir := joinpath dataset_path "meta" in
  [("Dataset directory", dataset_path);
   ("Meta directory", meta_dir);
   ("Episodes file", joinpath meta_dir "episodes.jsonl");
   ("Tasks file", joinpath meta_dir "tasks.jsonl")].

Definition missing (w : world) (p : path) : bool :=
  bool_decide (nodes w !! p = None).

Definition first_missing (w : world) (dataset_path : path) : option (string * path) :=
  List.find (fun wp => missing w wp.2) (required_paths dataset_path).

(** ** Sample data *)

(** Sample texts are written with an apostrophe for the double quote and a
    bar for the line feed. *)
Fixpoint text (s : string) : string :=
  match s with
  | EmptyString => EmptyString
  | String c r =>
      String (if Ascii.eqb c "'" then Json.quote
              else if Ascii.eqb c "|" then "010"%char else c) (text r)
  end.

Definition sample_dataset : path := ["data"].
Definition sample_meta : path := ["data"; "meta"].
Definition sample_episodes : path := ["data"; "meta"; "episodes.jsonl"].
Definition sample_tasks : path := ["data"; "meta"; "tasks.jsonl"].

Definition sample_world (episodes tasks : string) : world :=
  World (<[sample_dataset := Dir]>
           (<[sample_meta := Dir]>
              (<[sample_episodes := File (text episodes)]>
                 (<[sample_tasks := File (text tasks)]> ∅))))
        [].

(** The dataset of the specification's scenario: two episodes, one task. *)
Definition scenario_world : world :=
  sample_world
    "{'episode_index':0,'tasks':['old']}|{'episode_index':1,'tasks':['old']}|"
    "{'task_index':0,'task':'old'}|".

(** A dataset whose two files each end with an empty line. *)
Definition blank_line_world : world :=
  sample_world
    "{'episode_index':0,'tasks':['old']}||"
    "{'task_index':0,'task':'old'}||".

(** The task sequence a run works with: lines 117-120. *)
Definition resolved (literal_eval : string -> outcome pyobj) (new_tasks : task_arg)
    : outcome (list string) :=
  match new_tasks with
  | RawText s => parse_task_input literal_eval s
  | TaskList l => Ok l
  end.

(** The two files of a dataset and their backups. *)
Definition episodes_of (dataset_path : path) : path :=
  joinpath (joinpath dataset_path "meta") "episodes.jsonl".
Definition tasks_of (dataset_path : path) : path :=
  joinpath (joinpath dataset_path "meta") "tasks.jsonl".
Definition episodes_backup_of (dataset_path : path) : path :=
  joinpath (joinpath dataset_path "meta") "episodes.jsonl.backup".
Definition tasks_backup_of (dataset_path : path) : path :=
  joinpath (joinpath dataset_path "meta") "tasks.jsonl.backup".

(** A dataset whose tasks file has a second line that is not JSON. *)
Definition broken_tasks_world : world :=
  sample_world
    "{'episode_index':0,'tasks':['old']}|"
    "{'task_index':0,'task':'old'}|{oops|".

(** The scenario's dataset with a directory where the backup of the
    episodes file is to go. *)
Definition backup_dir_world : world :=
  World (<[episodes_backup_of sample_dataset := Dir]> (nodes scenario_world)) [].

(** The world a rewrite of [p] leaves: the copy where [copy2] puts it when
    a backup is made, the new text in [p], and the log of the operations. *)
Definition rewritten (p bp : path) (b : bool) (content new : string) (w : world) : world :=
  World (<[p := File new]>
           (if b then <[copy_target w p bp := File content]> (nodes w) else nodes w))
        (trace w ++ Read p :: (if b then [Copied p bp] else []) ++ [Written p new]).

(** The world a run leaves that rewrote the episodes file, then the tasks
    file. *)
Definition after_run (d : path) (b : bool) (c_e new_e c_t new_t : string) (w : world)
    : world :=
  rewritten (tasks_of d) (tasks_backup_of d) b c_t new_t
    (rewritten (episodes_of d) (episodes_backup_of d) b c_e new_e w).

(** A character of a rewritten file: printable ASCII, or the line feed
    that ends a record. *)
Definition record_char (c : ascii) : bool :=
  Json.printable c || Ascii.eqb c "010".

(** The keys of a record after the field [k] is set: the order is kept and
    a new key comes last. *)
Definition keys_with (k : string) (keys : list string) : list string :=
  if bool_decide (k ∈ keys) then keys else keys ++ [k].

(** A value that is not a JSON object. *)
Definition not_object (v : json) : bool :=
  match v with
  | JObj _ => false
  | _ => true
  end.

(** * Properties *)

#[local] Arguments String.append : simpl nomatch.
#[local] Arguments Str.join : simpl never.

(** * Facts about the string methods *)

Module StrFacts.
Import Str.

Lemma append_nil_r (s : string) : s +:+ "" = s.
Proof. induction s as [|c s IH]; [done|]. cbn. by rewrite IH. Qed.

Lemma append_assoc (s t u : string) : (s +:+ t) +:+ u = s +:+ (t +:+ u).
Proof. induction s as [|c s IH]; [done|]. cbn. by rewrite IH. Qed.

Lemma append_length (s t : string) :
  String.length (s +:+ t) = String.length s + String.length t.
Proof. induction s as [|c s IH]; [done|]. cbn. by rewrite IH. Qed.

Lemma space_neq (a c : ascii) :
  is_space a = true -> is_space c = false -> Ascii.eqb a c = false.
Proof.
  intros Ha Hc. destruct (Ascii.eqb_spec a c) as [->|]; [|done]. congruence.
Qed.

Lemma lstrip_idem (s : string) : lstrip (lstrip s) = lstrip s.
Proof.
  induction s as [|a s IH]; [done|]. cbn.
  destruct (is_space a) eqn:Ha; [done|]. cbn. by rewrite Ha.
Qed.

Lemma rstrip_cons (a : ascii) (s : string) :
  rstrip s <> "" -> rstrip (String a s) = String a (rstrip s).
Proof. cbn. by destruct (rstrip s). Qed.

Lemma rstrip_idem (s : string) : rstrip (rstrip s) = rstrip s.
Proof.
  induction s as [|a s IH]; [done|]. cbn.
  destruct (rstrip s) as [|b t] eqn:Hr.
  - destruct (is_space a) eqn:Ha; [done|]. cbn. by rewrite Ha.
  - rewrite rstrip_cons; by rewrite IH.
Qed.

Lemma lstrip_rstrip (s : string) : lstrip (rstrip s) = rstrip (lstrip s).
Proof.
  induction s as [|a s IH]; [done|]. cbn [lstrip].
  destruct (is_space a) eqn:Ha.
  - rewrite <- IH. cbn. destruct (rstrip s); cbn; rewrite ?Ha; reflexivity.
  - cbn. destruct (rstrip s); cbn; rewrite ?Ha; cbn; rewrite ?Ha; reflexivity.
Qed.

Lemma strip_lstrip (s : string) : strip (lstrip s) = strip s.
Proof. unfold strip. by rewrite lstrip_idem. Qed.

Lemma strip_rstrip (s : string) : strip (rstrip s) = strip s.
Proof. unfold strip. by rewrite lstrip_rstrip, rstrip_idem. Qed.

Lemma strip_idem (s : string) : strip (strip s) = strip s.
Proof. unfold strip at 2. by rewrite strip_rstrip, strip_lstrip. Qed.

Lemma split_cons (c : ascii) (s : string) : exists p ps, split c s = p :: ps.
Proof.
  induction s as [|a s (p & ps & IH)]; cbn; [by eauto|].
  destruct (Ascii.eqb a c); [by eauto|]. rewrite IH. eauto.
Qed.

(** A text without the separator is its own single piece. *)
Lemma split_single (c : ascii) (s p : string) : split c s = [p] -> p = s.
Proof.
  revert p. induction s as [|a s IH]; intros p; cbn; [congruence|].
  destruct (Ascii.eqb a c).
  - destruct (split_cons c s) as (q & qs & ->). discriminate.
  - destruct (split_cons c s) as (q & qs & Hs). rewrite Hs.
    intros [= <- ->]. by rewrite (IH q).
Qed.

Lemma split_lstrip (c : ascii) (s : string) :
  is_space c = false ->
  exists p ps, split c s = p :: ps /\ split c (lstrip s) = lstrip p :: ps.
Proof.
  intros Hc. induction s as [|a s (p & ps & Hs & IH)]; cbn; [by eauto|].
  destruct (is_space a) eqn:Ha.
  - rewrite (space_neq a c Ha Hc), Hs. exists (String a p), ps. cbn.
    by rewrite Ha.
  - cbn [split]. destruct (Ascii.eqb a c); [by exists "", (split c s)|].
    rewrite Hs. exists (String a p), ps. cbn. by rewrite Ha.
Qed.

Lemma split_String (c a : ascii) (s : string) :
  split c (String a s) =
    if Ascii.eqb a c then "" :: split c s
    else match split c s with
         | p :: ps => String a p :: ps
         | [] => [String a ""]
         end.
Proof. reflexivity. Qed.

Lemma rstrip_String (a : ascii) (s : string) :
  rstrip (String a s) =
    match rstrip s with
    | "" => if is_space a then "" else String a ""
    | r' => String a r'
    end.
Proof. reflexivity. Qed.

Lemma split_rstrip (c : ascii) (s : string) :
  is_space c = false ->
  exists ps p, split c s = ps ++ [p] /\ split c (rstrip s) = ps ++ [rstrip p].
Proof.
  intros Hc. induction s as [|a s (ps & p & Hs & IH)]; [by exists [], ""|].
  rewrite rstrip_String, split_String, Hs.
  destruct (rstrip s) as [|b t] eqn:Hr.
  - (* everything after [a] is stripped *)
    destruct ps as [|q qs]; [|by destruct qs].
    injection IH as IH. cbn [app].
    destruct (is_space a) eqn:Ha.
    + rewrite (space_neq a c Ha Hc). exists [], (String a p).
      by rewrite rstrip_String, <- IH, Ha.
    + rewrite split_String. destruct (Ascii.eqb a c) eqn:Hac.
      * exists [""], p. by rewrite <- IH.
      * exists [], (String a p). by rewrite rstrip_String, <- IH, Ha.
  - rewrite split_String, IH. destruct (Ascii.eqb a c) eqn:Hac.
    + by exists ("" :: ps), p.
    + destruct ps as [|q qs].
      * exists [], (String a p). split; [done|]. cbn [app].
        apply split_single in IH. rewrite rstrip_String, IH. by rewrite <- IH.
      * by exists (String a q :: qs), p.
Qed.

(** Trimming the whole text first does not change the trimmed pieces. *)
Lemma split_strip (c : ascii) (s : string) :
  is_space c = false ->
  strip <$> split c (strip s) = strip <$> split c s.
Proof.
  intros Hc. unfold strip at 2.
  destruct (split_lstrip c s Hc) as (p & ps & -> & Hl).
  destruct (split_rstrip c (lstrip s) Hc) as (qs & q & Hq & ->).
  rewrite fmap_app. cbn. rewrite strip_rstrip.
  change ([strip q]) with (strip <$> [q]). rewrite <- fmap_app, <- Hq, Hl.
  cbn. by rewrite strip_lstrip.
Qed.

Lemma contains_lstrip (c : ascii) (s : string) :
  is_space c = false -> contains c (lstrip s) = contains c s.
Proof.
  intros Hc. induction s as [|a s IH]; [done|]. cbn.
  destruct (is_space a) eqn:Ha; [|done].
  by rewrite IH, (space_neq a c Ha Hc).
Qed.

Lemma contains_rstrip (c : ascii) (s : string) :
  is_space c = false -> contains c (rstrip s) = contains c s.
Proof.
  intros Hc. induction s as [|a s IH]; [done|]. cbn. rewrite <- IH.
  destruct (rstrip s); [|done]. cbn.
  destruct (is_space a) eqn:Ha; cbn; [|done].
  by rewrite (space_neq a c Ha Hc).
Qed.

Lemma contains_strip (c : ascii) (s : string) :
  is_space c = false -> contains c (strip s) = contains c s.
Proof.
  intros Hc. unfold strip. by rewrite contains_rstrip, contains_lstrip.
Qed.

End StrFacts.

(** * The task-input parser *)

Section ParserFacts.

Variable literal_eval : string -> outcome pyobj.

Lemma parse_task_input_fall_through (s : string) :
  literal_attempt literal_eval (Str.strip s) = Ok None ->
  parse_task_input literal_eval s =
    if Str.contains "," s
    then Ok (List.filter Str.nonempty (Str.strip <$> Str.split "," s))
    else Ok [Str.strip s].
Proof.
  intros H. unfold parse_task_input. rewrite H. cbn.
  rewrite StrFacts.contains_strip by done.
  destruct (Str.contains "," s); [|done].
  by rewrite StrFacts.split_strip.
Qed.

Lemma all_chars_lstrip P s :
  all_chars P s = true -> all_chars P (Str.lstrip s) = true.
Proof.
  induction s as [|a s IH]; [done|]. cbn.
  destruct (Str.is_space a); [|done].
  intros [_ H]%andb_true_iff. auto.
Qed.

Lemma literal_attempt_not_bracket (s : string) :
  Str.startswith "[" s = false -> literal_attempt literal_eval s = Ok None.
Proof. intros H. unfold literal_attempt. by rewrite H. Qed.

Lemma startswith_rstrip c s :
  Str.startswith c (Str.rstrip s) = true -> Str.startswith c s = true.
Proof.
  destruct s as [|a s]; [done|]. rewrite StrFacts.rstrip_String.
  destruct (Str.rstrip s); [|done]. by destruct (Str.is_space a).
Qed.

Lemma startswith_all_chars P c s :
  P c = false -> all_chars P s = true -> Str.startswith c s = false.
Proof.
  intros Hc. destruct s as [|a s]; [done|]. cbn.
  intros [Ha _]%andb_true_iff.
  destruct (Ascii.eqb_spec a c) as [->|]; congruence.
Qed.

Lemma commas_spaces_not_bracket (s : string) :
  all_chars comma_or_space s = true ->
  Str.startswith "[" (Str.strip s) = false.
Proof.
  intros H. destruct (Str.startswith "[" (Str.strip s)) eqn:E; [|done].
  apply startswith_rstrip in E.
  by rewrite (startswith_all_chars comma_or_space "[" _ eq_refl
                (all_chars_lstrip _ _ H)) in E.
Qed.

Lemma spaces_strip (s : string) :
  all_chars Str.is_space s = true -> Str.strip s = "".
Proof.
  unfold Str.strip. induction s as [|a s IH]; [done|]. cbn.
  intros [-> H]%andb_true_iff. auto.
Qed.

(** Between the commas of such a text there is nothing but white space. *)
Lemma commas_spaces_pieces (s : string) :
  all_chars comma_or_space s = true ->
  List.filter Str.nonempty (Str.strip <$> Str.split "," s) = [].
Proof.
  intros H.
  assert (Forall (fun p => all_chars Str.is_space p = true) (Str.split "," s))
    as Hall.
  { induction s as [|a s IH]; [by repeat constructor|].
    cbn in H. apply andb_true_iff in H as [Ha H]. specialize (IH H).
    rewrite StrFacts.split_String.
    destruct (Ascii.eqb a ",") eqn:Hac; [by constructor|].
    unfold comma_or_space in Ha. rewrite Hac in Ha. cbn in Ha.
    destruct IH as [|p ps Hp Hps]; repeat constructor; cbn; rewrite ?Ha; done. }
  induction Hall as [|p ps Hp _ IH]; [done|].
  cbn. by rewrite (spaces_strip p Hp).
Qed.

End ParserFacts.

(** C5 fails in the code.  An argument that holds a comma and, trimmed, is
    wrapped in brackets, on which the evaluator raises an exception other
    than [ValueError] and [SyntaxError], is not parsed as a list literal of
    strings, and yet the parser does not return its comma pieces: the
    exception leaves the parser.  [ast.literal_eval] raises [TypeError] on
    ["[{[]: 1}, 2]"]. *)
Theorem parse_task_input_comma_escapes (literal_eval : string -> outcome pyobj)
    (s : string) (e : exn) :
  Str.contains "," s = true ->
  Str.startswith "[" (Str.strip s) && Str.endswith "]" (Str.strip s) = true ->
  literal_eval (Str.strip s) = Raise e ->
  e <> ValueError -> e <> SyntaxError ->
  parse_task_input literal_eval s = Raise e
  /\ parse_task_input literal_eval s
     <> Ok (List.filter Str.nonempty (Str.strip <$> Str.split "," s)).
Proof.
  intros _ Hb He H1 H2.
  assert (parse_task_input literal_eval s = Raise e) as ->; [|done].
  unfold parse_task_input, literal_attempt. rewrite Hb, He. by destruct e.
Qed.

Lemma parse_task_input_comma_escapes_witness :
  parse_task_input sample_eval "[{[]: 1}, 2]" = Raise TypeError
  /\ parse_task_input sample_eval "[{[]: 1}, 2]" <> Ok ["[{[]: 1}"; "2]"].
Proof.
  apply (parse_task_input_comma_escapes sample_eval "[{[]: 1}, 2]" TypeError);
    (reflexivity || discriminate).
Defined.

(** X25.  An argument that holds a comma, and on which the attempt to read
    it as a bracketed list literal of strings falls through, is cut at its
    commas; the pieces are trimmed, the empty ones dropped, the order kept.
    The pieces are those of the argument as given, before it is trimmed.
    In particular ["a, b ,,c"] gives [["a"; "b"; "c"]]. *)
Theorem parse_task_input_comma_separated (literal_eval : string -> outcome pyobj) :
  (forall s : string,
      Str.contains "," s = true ->
      literal_attempt literal_eval (Str.strip s) = Ok None ->
      parse_task_input literal_eval s =
        Ok (List.filter Str.nonempty (Str.strip <$> Str.split "," s)))
  /\ parse_task_input literal_eval "a, b ,,c" = Ok ["a"; "b"; "c"].
Proof.
  split.
  - intros s Hc Hl. by rewrite parse_task_input_fall_through, Hc.
  - reflexivity.
Qed.

Lemma parse_task_input_comma_separated_witness :
  parse_task_input sample_eval " [a, b] " = Ok ["[a"; "b]"].
Proof.
  exact (proj1 (parse_task_input_comma_separated sample_eval)
           " [a, b] " eq_refl eq_refl).
Defined.

(** C6, as stated, fails: a blank argument holds no comma, and the parser
    answers the one-element sequence of the empty string. *)
Lemma parse_task_input_blank_counterexample :
  ~ (forall (literal_eval : string -> outcome pyobj) (s : string),
        all_chars comma_or_space s = true ->
        parse_task_input literal_eval s = Ok []).
Proof. intros H. specialize (H sample_eval "  " eq_refl). discriminate. Qed.

(** C6, amended.  An argument made of commas and white space only, with at
    least one comma, gives the empty sequence. *)
Theorem parse_task_input_only_commas (literal_eval : string -> outcome pyobj)
    (s : string) :
  all_chars comma_or_space s = true ->
  Str.contains "," s = true ->
  parse_task_input literal_eval s = Ok [].
Proof.
  intros Hall Hc.
  rewrite parse_task_input_fall_through, Hc.
  - by rewrite commas_spaces_pieces.
  - apply literal_attempt_not_bracket. by apply commas_spaces_not_bracket.
Qed.

Lemma parse_task_input_only_commas_witness :
  parse_task_input sample_eval " ,, , " = Ok [].
Proof.
  exact (parse_task_input_only_commas sample_eval " ,, , " eq_refl eq_refl).
Defined.

(** C7, as stated, fails: the empty argument is returned as the single
    task, and it is the empty string. *)
Lemma parse_task_input_empty_element_counterexample :
  ~ (forall (literal_eval : string -> outcome pyobj) (s : string) (tasks : list string),
        parse_task_input literal_eval s = Ok tasks ->
        Forall (fun task => task <> "") tasks).
Proof.
  intros H. specialize (H sample_eval "" [""] eq_refl).
  by apply Forall_cons_1 in H as [? _].
Qed.

(** C7, amended.  When the argument is not blank and the attempt at a list
    literal falls through, the parser returns a sequence whose elements are
    all non-empty strings.  A list literal of strings is returned as it is,
    empty elements included. *)
Theorem parse_task_input_nonempty_elements (literal_eval : string -> outcome pyobj)
    (s : string) :
  (Str.strip s <> "" ->
   literal_attempt literal_eval (Str.strip s) = Ok None ->
   exists tasks,
     parse_task_input literal_eval s = Ok tasks
     /\ Forall (fun task => task <> "") tasks)
  /\ (forall tasks,
        literal_attempt literal_eval (Str.strip s) = Ok (Some tasks) ->
        parse_task_input literal_eval s = Ok tasks).
Proof.
  split.
  - intros Hs Hl. rewrite parse_task_input_fall_through by done.
    destruct (Str.contains "," s).
    + eexists; split; [done|].
      apply Forall_forall. intros task [_ Hn]%list_elem_of_In%List.filter_In.
      by destruct task.
    + eexists; split; [done|]. by repeat constructor.
  - intros tasks Hl. unfold parse_task_input. by rewrite Hl.
Qed.

Lemma parse_task_input_nonempty_elements_witness :
  exists tasks,
    parse_task_input sample_eval "Pick up the red cube" = Ok tasks
    /\ Forall (fun task => task <> "") tasks.
Proof.
  apply (proj1 (parse_task_input_nonempty_elements sample_eval "Pick up the red cube"));
    [discriminate | reflexivity].
Defined.

(** * The JSON codec *)

Module JsonFacts.
Import Json.

(** Induction on a value that reaches the values nested in it. *)
Lemma json_nested_ind (P : json -> Prop) :
  P JNull -> (forall b, P (JBool b)) -> (forall z, P (JInt z)) ->
  (forall s, P (JStr s)) ->
  (forall l, Forall P l -> P (JArr l)) ->
  (forall d, Forall (fun kv => P kv.2) d -> P (JObj d)) ->
  forall v, P v.
Proof.
  intros Hnull Hbool Hint Hstr Harr Hobj. fix IH 1.
  intros [|b|z|s|l|d];
    [exact Hnull | apply Hbool | apply Hint | apply Hstr | | ].
  - apply Harr. induction l as [|x l IHl]; constructor; [apply IH | apply IHl].
  - apply Hobj. induction d as [|[k x] d IHd]; constructor; [apply IH | apply IHd].
Qed.

(** ** Dictionaries *)

Section DictFacts.
Context {A : Type}.
Implicit Types (d : list (string * A)) (k : string) (v : A).

Lemma dict_set_keys k v d :
  (dict_set k v d).*1 = if bool_decide (k ∈ d.*1) then d.*1 else d.*1 ++ [k].
Proof.
  induction d as [|[k' v'] d IH]; [done|]. cbn.
  destruct (String.eqb_spec k' k) as [->|Hne].
  - rewrite bool_decide_eq_true_2; [done | by left].
  - cbn. rewrite IH. destruct (bool_decide (k ∈ d.*1)) eqn:E.
    + apply bool_decide_eq_true_1 in E.
      rewrite bool_decide_eq_true_2; [done | by right].
    + apply bool_decide_eq_false_1 in E.
      rewrite bool_decide_eq_false_2; [done|].
      intros [?|?]%elem_of_cons; congruence.
Qed.

Lemma dict_set_NoDup k v d : NoDup d.*1 -> NoDup (dict_set k v d).*1.
Proof.
  intros Hd. rewrite dict_set_keys. case_bool_decide as Hk; [done|].
  apply NoDup_app. repeat split; [done | | apply NoDup_singleton].
  intros x Hx ->%list_elem_of_singleton. done.
Qed.

Lemma dict_set_Forall (P : A -> Prop) k v d :
  P v -> Forall (fun kv => P kv.2) d ->
  Forall (fun kv => P kv.2) (dict_set k v d).
Proof.
  intros Hv. induction 1 as [|[k' v'] d Hx Hd IH]; cbn.
  - by repeat constructor.
  - destruct (String.eqb k' k); by constructor.
Qed.

Lemma dict_set_fresh k v d : k ∉ d.*1 -> dict_set k v d = d ++ [(k, v)].
Proof.
  induction d as [|[k' v'] d IH]; [done|]. cbn.
  intros [Hne Hk]%not_elem_of_cons.
  destruct (String.eqb_spec k' k) as [->|_]; [done|]. by rewrite IH.
Qed.

Lemma dict_get_set k v d : dict_get k (dict_set k v d) = Some v.
Proof.
  induction d as [|[k' v'] d IH]; cbn; [by rewrite String.eqb_refl|].
  destruct (String.eqb k' k) eqn:E; cbn; by rewrite E.
Qed.

Lemma dict_get_set_ne k k' v d :
  k' <> k -> dict_get k' (dict_set k v d) = dict_get k' d.
Proof.
  intros Hne. induction d as [|[k0 v0] d IH]; cbn.
  - by destruct (String.eqb_spec k k').
  - destruct (String.eqb_spec k0 k) as [->|]; cbn; [|by rewrite IH].
    by destruct (String.eqb_spec k k').
Qed.

Lemma dict_set_idem k v v' d :
  dict_set k v (dict_set k v' d) = dict_set k v d.
Proof.
  induction d as [|[k0 v0] d IH]; cbn; [by rewrite String.eqb_refl|].
  destruct (String.eqb k0 k) eqn:E; cbn; rewrite E; [done|]. by rewrite IH.
Qed.

Lemma dict_fold_keys (pairs acc : list (string * A)) :
  NoDup acc.*1 ->
  NoDup (fold_left (fun d kv => dict_set kv.1 kv.2 d) pairs acc).*1.
Proof.
  revert acc. induction pairs as [|[k v] pairs IH]; intros acc Hacc; [done|].
  cbn. apply IH. by apply dict_set_NoDup.
Qed.

Lemma dict_NoDup (pairs : list (string * A)) : NoDup (dict pairs).*1.
Proof. apply dict_fold_keys. constructor. Qed.

Lemma dict_Forall (P : A -> Prop) (pairs : list (string * A)) :
  Forall (fun kv => P kv.2) pairs -> Forall (fun kv => P kv.2) (dict pairs).
Proof.
  unfold dict. intros Hp.
  enough (forall acc, Forall (fun kv => P kv.2) acc ->
            Forall (fun kv => P kv.2)
              (fold_left (fun d kv => dict_set kv.1 kv.2 d) pairs acc))
    as H by (apply H; constructor).
  induction Hp as [|[k v] pairs Hx Hp IH]; intros acc Hacc; [exact Hacc|].
  cbn. apply IH. by apply dict_set_Forall.
Qed.

(** Pairs with distinct keys make the dictionary that lists them. *)
Lemma dict_id (pairs : list (string * A)) : NoDup pairs.*1 -> dict pairs = pairs.
Proof.
  unfold dict. intros Hp.
  enough (forall acc, NoDup (acc ++ pairs).*1 ->
            fold_left (fun d kv => dict_set kv.1 kv.2 d) pairs acc = acc ++ pairs)
    as H by exact (H [] Hp).
  clear Hp. induction pairs as [|[k v] pairs IH]; intros acc Hn; cbn.
  - by rewrite app_nil_r.
  - rewrite dict_set_fresh.
    + rewrite IH; rewrite <- app_assoc; done.
    + rewrite fmap_app in Hn. apply NoDup_app in Hn as (_ & Hn & _).
      intros Hk. apply (Hn k Hk). by left.
Qed.

End DictFacts.

End JsonFacts.

Module CodecFacts.
Import Json StrFacts JsonFacts.

(** ** Strings *)

Lemma scanstring_escape_char (c : ascii) (t : string) :
  scanstring (escape_char c +:+ t) = push c (scanstring t).
Proof. destruct c as [[] [] [] [] [] [] [] []]; reflexivity. Qed.

Lemma scanstring_escape (s rest : string) :
  scanstring (escape s +:+ String quote rest) = Ok (s, rest).
Proof.
  induction s as [|c s IH]; [done|]. cbn [escape].
  by rewrite append_assoc, scanstring_escape_char, IH.
Qed.

(** ** Numbers *)

Lemma closes_char (c : ascii) (r : string) :
  closes (String c r) = true -> c = ","%char \/ c = "]"%char \/ c = "}"%char.
Proof.
  cbn. rewrite !orb_true_iff, !Ascii.eqb_eq. tauto.
Qed.

Lemma closes_scan_digits (rest : string) :
  closes rest = true -> scan_digits rest = (Nil, rest).
Proof.
  destruct rest as [|c r]; [done|].
  by intros [-> | [-> | ->]]%closes_char.
Qed.

Lemma closes_not_float (rest : string) :
  closes rest = true -> float_follows rest = false.
Proof.
  destruct rest as [|c r]; [done|].
  by intros [-> | [-> | ->]]%closes_char.
Qed.

Lemma scan_digits_uint (u : uint) (rest : string) :
  closes rest = true ->
  scan_digits (NilEmpty.string_of_uint u +:+ rest) = (u, rest).
Proof.
  intros H. induction u; cbn; rewrite ?IHu; try done.
  by apply closes_scan_digits.
Qed.

(** A numeral in normal form starts with zero only when it is zero. *)
Lemma unorm_D0_nil (u : uint) : unorm (D0 u) = D0 u -> u = Nil.
Proof.
  intros H. destruct u as [|u|u|u|u|u|u|u|u|u|u]; [done|exfalso..].
  all: match type of H with unorm (D0 ?v) = _ =>
         assert (v <> Nil) as Hn by done;
         pose proof (nb_digits_unorm v Hn) as Hle
       end.
  all: rewrite DecimalFacts.unorm_D0 in H; rewrite H in Hle; cbn in Hle; lia.
Qed.

Lemma scan_integer_uint (neg : bool) (u : uint) (rest : string) :
  u <> Nil -> unorm u = u -> closes rest = true ->
  scan_integer neg (NilEmpty.string_of_uint u +:+ rest) =
    Ok (JInt (if neg then (- Z.of_uint u)%Z else Z.of_uint u), rest).
Proof.
  intros Hnil Hnorm Hrest.
  destruct u as [|u|u|u|u|u|u|u|u|u|u]; [done| |..];
    cbn [NilEmpty.string_of_uint]; cbn.
  1: { apply unorm_D0_nil in Hnorm as ->. cbn.
       by rewrite closes_not_float. }
  all: by rewrite scan_digits_uint, closes_not_float.
Qed.

Lemma to_uint_norm (p : positive) : unorm (Pos.to_uint p) = Pos.to_uint p.
Proof.
  rewrite <- (DecimalPos.Unsigned.to_of (Pos.to_uint p)).
  by rewrite DecimalPos.Unsigned.of_to.
Qed.

Lemma of_to_uint (p : positive) : Z.of_uint (Pos.to_uint p) = Z.pos p.
Proof.
  unfold Z.of_uint. by rewrite DecimalPos.Unsigned.of_to.
Qed.

Lemma string_of_to_uint (p : positive) :
  NilZero.string_of_uint (Pos.to_uint p) = NilEmpty.string_of_uint (Pos.to_uint p).
Proof.
  pose proof (DecimalPos.Unsigned.to_uint_nonnil p).
  unfold NilZero.string_of_uint. by destruct (Pos.to_uint p).
Qed.

(** A numeral does not start with a minus sign. *)
Lemma scan_number_uint (u : uint) (rest : string) :
  u <> Nil ->
  scan_number (NilEmpty.string_of_uint u +:+ rest) =
    scan_integer false (NilEmpty.string_of_uint u +:+ rest).
Proof. by destruct u. Qed.

Lemma scan_number_str_int (z : Z) (rest : string) :
  closes rest = true ->
  scan_number (str_int z +:+ rest) = Ok (JInt z, rest).
Proof.
  intros Hrest. unfold str_int. destruct z as [|p|p]; cbn [Z.to_int NilZero.string_of_int].
  - cbn. by rewrite closes_not_float.
  - rewrite string_of_to_uint, scan_number_uint, scan_integer_uint, of_to_uint;
      auto using to_uint_norm, DecimalPos.Unsigned.to_uint_nonnil.
  - rewrite string_of_to_uint. cbn [String.append scan_number]. cbn [Ascii.eqb Bool.eqb].
    rewrite scan_integer_uint, of_to_uint;
      auto using to_uint_norm, DecimalPos.Unsigned.to_uint_nonnil.
Qed.

Lemma str_int_head (z : Z) :
  exists c r, str_int z = String c r /\ (c = "-"%char \/ is_Some (digit c)).
Proof.
  unfold str_int. destruct z as [|p|p]; cbn [Z.to_int NilZero.string_of_int].
  - eexists _, _. split; [reflexivity|]. right. by eexists.
  - rewrite string_of_to_uint.
    pose proof (DecimalPos.Unsigned.to_uint_nonnil p).
    destruct (Pos.to_uint p); [done|..];
      (eexists _, _; split; [reflexivity|]; right; by eexists).
  - eexists _, _. split; [reflexivity|]. by left.
Qed.

Lemma scan_once_number (fuel : nat) (c : ascii) (r : string) :
  c = "-"%char \/ is_Some (digit c) ->
  scan_once (S fuel) (String c r) = scan_number (String c r).
Proof.
  destruct c as [[] [] [] [] [] [] [] []]; intros [H|[d H]];
    try discriminate H; reflexivity.
Qed.

End CodecFacts.

Module RoundTrip.
Import Json StrFacts JsonFacts CodecFacts.

(** The text of a value starts with a character that is neither white
    space nor a closing bracket. *)
Lemma dumps_head (v : json) (rest : string) :
  exists c r, dumps v +:+ rest = String c r
              /\ is_ws c = false /\ Ascii.eqb c "]" = false.
Proof.
  destruct v as [|[]|z|s|l|d]; try (by eexists _, _).
  destruct (str_int_head z) as (c & r & Hz & Hc). cbn [dumps]. rewrite Hz.
  exists c, (r +:+ rest). split; [done|].
  destruct c as [[] [] [] [] [] [] [] []]; destruct Hc as [Hc|[? Hc]];
    try discriminate Hc; done.
Qed.

Lemma skip_ws_head (c : ascii) (r : string) :
  is_ws c = false -> skip_ws (String c r) = String c r.
Proof. intros H. cbn. by rewrite H. Qed.

Lemma skip_ws_dumps (v : json) (rest : string) :
  skip_ws (dumps v +:+ rest) = dumps v +:+ rest.
Proof.
  destruct (dumps_head v rest) as (c & r & -> & Hc & _). by apply skip_ws_head.
Qed.

Lemma join_fmap_cons {A} (f : A -> string) (sep : string) (x y : A) (l : list A) :
  Str.join sep (f <$> x :: y :: l) = f x +:+ sep +:+ Str.join sep (f <$> y :: l).
Proof. reflexivity. Qed.

Lemma join_fmap_single {A} (f : A -> string) (sep : string) (x : A) :
  Str.join sep (f <$> [x]) = f x.
Proof. reflexivity. Qed.

Lemma join_head (v : json) (l : list json) (rest : string) :
  exists c r, Str.join ", " (dumps <$> v :: l) +:+ rest = String c r
              /\ is_ws c = false /\ Ascii.eqb c "]" = false.
Proof.
  destruct l as [|y l].
  - apply dumps_head.
  - rewrite join_fmap_cons, append_assoc. apply dumps_head.
Qed.

Lemma scan_items_dumps (l : list json) :
  Forall reads_back l -> l <> [] ->
  forall fuel rest,
    list_sum ((fun x => S (size x)) <$> l) <= fuel ->
    scan_items fuel (Str.join ", " (dumps <$> l) +:+ String "]" rest) = Ok (l, rest).
Proof.
  induction 1 as [|x l Hx Hl IH]; [done|]. intros _ fuel rest Hfuel.
  destruct fuel as [|fuel]; [cbn in Hfuel; lia|]. cbn in Hfuel.
  cbn [scan_items]. destruct l as [|y l].
  - rewrite join_fmap_single, Hx by (done || lia). done.
  - rewrite join_fmap_cons, !append_assoc, Hx by (done || lia). cbn.
    change (dumps y :: (dumps <$> l)) with (dumps <$> y :: l).
    destruct (join_head y l (String "]" rest)) as (c & r & E & Hc & _).
    rewrite E, (skip_ws_head _ _ Hc), <- E.
    rewrite IH; [done | done | cbn in *; lia].
Qed.

Local Abbreviation member :=
  (fun kv : string * json => encode_basestring_ascii kv.1 +:+ ": " +:+ dumps kv.2).

Lemma member_tail (k : string) (v : json) (rest : string) :
  encode_basestring_ascii k +:+ ": " +:+ dumps v +:+ rest =
    String quote (escape k +:+ String quote (String ":" (String " " (dumps v +:+ rest)))).
Proof.
  unfold encode_basestring_ascii. cbn. by rewrite !append_assoc.
Qed.

Lemma join_member_tail (k : string) (v : json) (d : list (string * json))
    (rest : string) :
  exists t, Str.join ", " (member <$> (k, v) :: d) +:+ rest = String quote t.
Proof.
  destruct d as [|kv d].
  - rewrite join_fmap_single, !append_assoc.
    change ((k, v).1) with k. change ((k, v).2) with v.
    rewrite member_tail. eauto.
  - rewrite join_fmap_cons, !append_assoc.
    change ((k, v).1) with k. change ((k, v).2) with v.
    rewrite member_tail. eauto.
Qed.

Lemma scan_members_dumps (d : list (string * json)) :
  Forall (fun kv => reads_back kv.2) d -> d <> [] ->
  forall fuel rest t,
    list_sum ((fun kv => S (size kv.2)) <$> d) <= fuel ->
    String quote t = Str.join ", " (member <$> d) +:+ String "}" rest ->
    scan_members fuel t = Ok (d, rest).
Proof.
  induction 1 as [|[k v] d Hv Hd IH]; [done|]. intros _ fuel rest t Hfuel Ht.
  destruct fuel as [|fuel]; [cbn in Hfuel; lia|].
  cbn [scan_members]. destruct d as [|[k' v'] d].
  - rewrite join_fmap_single, !append_assoc in Ht.
    change ((k, v).1) with k in Ht. change ((k, v).2) with v in Ht.
    rewrite member_tail in Ht.
    assert (t = escape k +:+
                String quote (String ":" (String " " (dumps v +:+ String "}" rest))))
      as -> by congruence.
    rewrite scanstring_escape. cbn.
    rewrite skip_ws_dumps, Hv by (done || cbn in *; lia). done.
  - destruct (join_member_tail k' v' d (String "}" rest)) as (t' & E).
    rewrite join_fmap_cons, !append_assoc, E in Ht.
    change ((k, v).1) with k in Ht. change ((k, v).2) with v in Ht.
    rewrite member_tail in Ht.
    assert (t = escape k +:+
                String quote (String ":" (String " "
                  (dumps v +:+ ", " +:+ String quote t'))))
      as -> by congruence.
    rewrite scanstring_escape. cbn.
    rewrite skip_ws_dumps, Hv by (done || cbn in *; lia). cbn.
    erewrite IH; [done | done | cbn in *; lia | done].
Qed.

Lemma wrap_app (o c : ascii) (body rest : string) :
  (String o "" +:+ body +:+ String c "") +:+ rest = String o (body +:+ String c rest).
Proof. cbn. by rewrite append_assoc. Qed.

(** Decoding the text of a value gives the value back. *)
Lemma scan_once_dumps (v : json) : keys_once v -> reads_back v.
Proof.
  induction v as [|b|z|s|l IH|d IH] using json_nested_ind;
    intros Hk fuel rest Hfuel Hrest;
    (destruct fuel as [|fuel]; [cbn in Hfuel; lia|]).
  - reflexivity.
  - by destruct b.
  - destruct (str_int_head z) as (c & r & Hz & Hc).
    assert (dumps (JInt z) +:+ rest = String c (r +:+ rest)) as E
      by (cbn [dumps]; by rewrite Hz).
    rewrite E, scan_once_number, <- E by done.
    by apply scan_number_str_int.
  - cbn. rewrite append_assoc. cbn. by rewrite scanstring_escape.
  - inversion_clear Hk as [| | | |? Hl|].
    assert (Forall reads_back l) as Hall.
    { clear Hfuel. induction IH as [|x l Hx _ IHl]; [done|].
      apply Forall_cons_1 in Hl as [??]. constructor; auto. }
    destruct l as [|x l]; [done|].
    change (dumps (JArr (x :: l)))
      with ("[" +:+ Str.join ", " (dumps <$> x :: l) +:+ "]").
    rewrite wrap_app.
    destruct (join_head x l (String "]" rest)) as (c & r & E & Hc & Hb).
    cbn [scan_once]. cbn [Ascii.eqb Bool.eqb quote]. cbn match.
    rewrite E, (skip_ws_head _ _ Hc), Hb, <- E.
    rewrite scan_items_dumps; [done | done | done | cbn in *; lia].
  - inversion_clear Hk as [| | | | |? Hn Hd].
    assert (Forall (fun kv => reads_back kv.2) d) as Hall.
    { clear Hfuel Hn. induction IH as [|x l Hx _ IHl]; [done|].
      apply Forall_cons_1 in Hd as [??]. constructor; auto. }
    destruct d as [|[k x] d]; [done|].
    change (dumps (JObj ((k, x) :: d)))
      with ("{" +:+ Str.join ", " (member <$> (k, x) :: d) +:+ "}").
    rewrite wrap_app.
    destruct (join_member_tail k x d (String "}" rest)) as (t & E).
    cbn [scan_once]. cbn [Ascii.eqb Bool.eqb quote]. cbn match.
    rewrite E. cbn.
    erewrite scan_members_dumps; [|done|done|cbn in *; lia|done].
    change (Ok (JObj (dict ((k, x) :: d)), rest) = Ok (JObj ((k, x) :: d), rest)).
    by rewrite dict_id.
Qed.

End RoundTrip.

Module LoadsFacts.
Import Json StrFacts JsonFacts CodecFacts RoundTrip.

(** ** The fuel [loads] gives is enough for a text of [dumps] *)

Lemma join_length_bound {A} (f : A -> string) (g : A -> nat) (l : list A) :
  Forall (fun x => g x <= String.length (f x)) l ->
  list_sum ((fun x => S (g x)) <$> l) <= S (String.length (Str.join ", " (f <$> l))).
Proof.
  induction 1 as [|x l Hx Hl IH]; [cbn; lia|].
  destruct l as [|y l].
  - rewrite join_fmap_single. cbn. lia.
  - rewrite join_fmap_cons, !append_length. cbn in *. lia.
Qed.

Lemma size_length (v : json) : size v <= String.length (dumps v).
Proof.
  induction v as [|b|z|s|l IH|d IH] using json_nested_ind.
  - cbn. lia.
  - destruct b; cbn; lia.
  - destruct (dumps_head (JInt z) "") as (c & r & E & _).
    rewrite append_nil_r in E. rewrite E. cbn. lia.
  - cbn. lia.
  - pose proof (join_length_bound dumps size l IH) as H.
    change (dumps (JArr l)) with ("[" +:+ Str.join ", " (dumps <$> l) +:+ "]").
    rewrite !append_length. cbn in *. lia.
  - pose proof (join_length_bound
                  (fun kv => encode_basestring_ascii kv.1 +:+ ": " +:+ dumps kv.2)
                  (fun kv => size kv.2) d) as H.
    change (dumps (JObj d))
      with ("{" +:+ Str.join ", "
              ((fun kv => encode_basestring_ascii kv.1 +:+ ": " +:+ dumps kv.2) <$> d)
            +:+ "}").
    rewrite !append_length. cbn [String.length] in *.
    assert (list_sum ((fun kv => S (size kv.2)) <$> d)
            <= S (String.length (Str.join ", "
                 ((fun kv => encode_basestring_ascii kv.1 +:+ ": " +:+ dumps kv.2) <$> d))))
      as Hle.
    { apply H. eapply Forall_impl; [exact IH|]. intros [k x] Hx. cbn [fst snd] in *.
      rewrite !append_length. lia. }
    cbn [size]. lia.
Qed.

(** [json.loads(json.dumps(v)) == v] *)
Theorem loads_dumps (v : json) : keys_once v -> loads (dumps v) = Ok v.
Proof.
  intros Hk. unfold loads. cbv zeta.
  assert (skip_ws (dumps v) = dumps v) as ->.
  { rewrite <- (append_nil_r (dumps v)) at 1. rewrite skip_ws_dumps. apply append_nil_r. }
  rewrite <- (append_nil_r (dumps v)) at 2.
  rewrite (scan_once_dumps v Hk); [done| |done].
  pose proof (size_length v). lia.
Qed.

(** ** What the decoder builds *)

Lemma bind_Ok {A B} (m : outcome A) (f : A -> outcome B) (b : B) :
  m ≫= f = Ok b -> exists a, m = Ok a /\ f a = Ok b.
Proof. destruct m; [eauto|done..]. Qed.

Lemma scan_number_int (s r : string) (v : json) :
  scan_number s = Ok (v, r) -> exists z, v = JInt z.
Proof.
  unfold scan_number, scan_integer. intros H.
  repeat case_match; simplify_eq; eauto.
Qed.

Lemma keyword_value (w s r : string) (v0 v : json) :
  keyword w v0 s = Ok (v, r) -> v = v0.
Proof. unfold keyword. intros H. case_match; by simplify_eq. Qed.

Lemma scan_keys_once (fuel : nat) :
  (forall s v r, scan_once fuel s = Ok (v, r) -> keys_once v)
  /\ (forall s pairs r, scan_members fuel s = Ok (pairs, r) ->
        Forall (fun kv => keys_once kv.2) pairs)
  /\ (forall s items r, scan_items fuel s = Ok (items, r) ->
        Forall keys_once items).
Proof.
  induction fuel as [|fuel (IHv & IHm & IHi)]; [done|].
  split; [|split].
  - intros s v r H. cbn [scan_once] in H.
    destruct s as [|c s]; [done|].
    repeat (case_match; try done).
    + apply bind_Ok in H as ([k r'] & _ & H). simplify_eq. constructor.
    + simplify_eq. by repeat constructor.
    + apply bind_Ok in H as ([pairs r'] & Hm & H). simplify_eq.
      constructor; [apply dict_NoDup | apply dict_Forall; eauto].
    + simplify_eq. by repeat constructor.
    + apply bind_Ok in H as ([items r'] & Hi & H). simplify_eq.
      constructor. eauto.
    + apply keyword_value in H as ->. constructor.
    + apply keyword_value in H as ->. constructor.
    + apply keyword_value in H as ->. constructor.
    + apply scan_number_int in H as [z ->]. constructor.
  - intros s pairs r H. cbn [scan_members] in H.
    apply bind_Ok in H as ([k r'] & _ & H).
    repeat (case_match; try done).
    apply bind_Ok in H as ([v r''] & Hv & H).
    repeat (case_match; try done).
    + simplify_eq. repeat constructor. eauto.
    + apply bind_Ok in H as ([pairs' r3] & Hm & H). simplify_eq.
      constructor; eauto.
  - intros s items r H. cbn [scan_items] in H.
    apply bind_Ok in H as ([v r'] & Hv & H).
    repeat (case_match; try done).
    + simplify_eq. repeat constructor. eauto.
    + apply bind_Ok in H as ([items' r3] & Hi & H). simplify_eq.
      constructor; eauto.
Qed.

Theorem loads_keys_once (s : string) (v : json) :
  loads s = Ok v -> keys_once v.
Proof.
  unfold loads. cbv zeta. intros H.
  apply bind_Ok in H as ([v' r] & Hs & H).
  case_match; simplify_eq. by eapply scan_keys_once.
Qed.

End LoadsFacts.

Module LineFacts.
Import Json StrFacts JsonFacts CodecFacts RoundTrip LoadsFacts.

(** ** The text of [dumps] is printable ASCII *)

Lemma all_chars_app P (s t : string) :
  all_chars P (s +:+ t) = all_chars P s && all_chars P t.
Proof. induction s as [|c s IH]; [done|]. cbn. by rewrite IH, andb_assoc. Qed.

Lemma escape_char_printable (c : ascii) :
  all_chars printable (escape_char c) = true.
Proof. destruct c as [[] [] [] [] [] [] [] []]; reflexivity. Qed.

Lemma escape_printable (s : string) : all_chars printable (escape s) = true.
Proof.
  induction s as [|c s IH]; [done|]. cbn [escape].
  by rewrite all_chars_app, escape_char_printable, IH.
Qed.

Lemma encode_printable (s : string) :
  all_chars printable (encode_basestring_ascii s) = true.
Proof.
  unfold encode_basestring_ascii. cbn [all_chars].
  by rewrite all_chars_app, escape_printable.
Qed.

Lemma uint_printable (u : uint) :
  all_chars printable (NilEmpty.string_of_uint u) = true.
Proof. induction u; cbn; by rewrite ?IHu. Qed.

Lemma str_int_printable (z : Z) : all_chars printable (str_int z) = true.
Proof.
  unfold str_int. destruct z as [|p|p]; cbn [Z.to_int NilZero.string_of_int];
    [done| |cbn [all_chars]]; rewrite string_of_to_uint, uint_printable; done.
Qed.

Lemma join_printable {A} (f : A -> string) (l : list A) :
  Forall (fun x => all_chars printable (f x) = true) l ->
  all_chars printable (Str.join ", " (f <$> l)) = true.
Proof.
  induction 1 as [|x l Hx Hl IH]; [done|]. destruct l as [|y l].
  - by rewrite join_fmap_single.
  - by rewrite join_fmap_cons, !all_chars_app, Hx, IH.
Qed.

Lemma dumps_printable (v : json) : all_chars printable (dumps v) = true.
Proof.
  induction v as [|b|z|s|l IH|d IH] using json_nested_ind.
  - done.
  - by destruct b.
  - apply str_int_printable.
  - apply encode_printable.
  - change (dumps (JArr l)) with ("[" +:+ Str.join ", " (dumps <$> l) +:+ "]").
    by rewrite !all_chars_app, join_printable.
  - change (dumps (JObj d))
      with ("{" +:+ Str.join ", "
              ((fun kv => encode_basestring_ascii kv.1 +:+ ": " +:+ dumps kv.2) <$> d)
            +:+ "}").
    rewrite !all_chars_app, join_printable; [done|].
    eapply Forall_impl; [exact IH|]. intros [k x] Hx.
    by rewrite !all_chars_app, encode_printable, Hx.
Qed.

(** ** Lines *)

Lemma printable_not_eol (c : ascii) :
  printable c = true -> Ascii.eqb c "010" = false /\ Ascii.eqb c "013" = false.
Proof. destruct c as [[] [] [] [] [] [] [] []]; done. Qed.

(** A printable text followed by a line feed is read as one line. *)
Lemma readlines_line (t rest : string) :
  all_chars printable t = true ->
  readlines (t +:+ newline +:+ rest) = (t +:+ newline) :: readlines rest.
Proof.
  intros Ht. induction t as [|c t IH]; [done|].
  cbn in Ht. apply andb_true_iff in Ht as [Hc Ht].
  apply printable_not_eol in Hc as [Hn Hr].
  cbn [String.append readlines]. by rewrite Hn, Hr, IH.
Qed.

Lemma readlines_write_records (records : list json) :
  readlines (write_records records)
    = (fun record => dumps record +:+ newline) <$> records.
Proof.
  induction records as [|r records IH]; [done|].
  cbn [write_records]. rewrite readlines_line by apply dumps_printable.
  by rewrite IH.
Qed.

Lemma rstrip_app_blank (s t : string) :
  Str.rstrip t = "" -> Str.rstrip (s +:+ t) = Str.rstrip s.
Proof.
  intros Ht. induction s as [|a s IH]; [done|].
  cbn [String.append]. by rewrite !rstrip_String, IH.
Qed.

Lemma rstrip_app_char (s : string) (c : ascii) :
  Str.is_space c = false -> Str.rstrip (s +:+ String c "") = s +:+ String c "".
Proof.
  intros Hc. induction s as [|a s IH]; cbn [String.append].
  - cbn. by rewrite Hc.
  - rewrite rstrip_String, IH. by destruct s.
Qed.

(** The line written for an object is read back as the object's text. *)
Lemma strip_object_line (d : list (string * json)) :
  Str.strip (dumps (JObj d) +:+ newline) = dumps (JObj d).
Proof.
  change (dumps (JObj d))
    with ("{" +:+ Str.join ", "
            ((fun kv => encode_basestring_ascii kv.1 +:+ ": " +:+ dumps kv.2) <$> d)
          +:+ "}").
  set (body := Str.join _ _). unfold Str.strip.
  change (Str.lstrip (("{" +:+ body +:+ "}") +:+ newline))
    with (("{" +:+ body +:+ "}") +:+ newline).
  rewrite rstrip_app_blank by done.
  rewrite <- append_assoc. by rewrite rstrip_app_char.
Qed.

Lemma loads_object_line (d : list (string * json)) :
  keys_once (JObj d) ->
  loads (Str.strip (dumps (JObj d) +:+ newline)) = Ok (JObj d).
Proof. intros Hd. by rewrite strip_object_line, loads_dumps. Qed.

Lemma object_line_nonblank (d : list (string * json)) :
  Str.nonempty (Str.strip (dumps (JObj d) +:+ newline)) = true.
Proof. by rewrite strip_object_line. Qed.

End LineFacts.

(** * The record rewriter *)

Module RewriterFacts.
Import JsonFacts LoadsFacts LineFacts.

(** ** The read loops *)

Lemma load_lines_keys_once (lines : list string) (vs : list json) :
  load_lines lines = Ok vs -> Forall keys_once vs.
Proof.
  revert vs. induction lines as [|line lines IH]; intros vs H; cbn [load_lines] in H.
  - by simplify_eq.
  - apply bind_Ok in H as (v & Hv & H). apply bind_Ok in H as (vs' & Hvs & H).
    simplify_eq. constructor; [by eapply loads_keys_once | by apply IH].
Qed.

Lemma read_episodes_objects (new_tasks : list string) (lines : list string)
    (ds : list (list (string * json))) :
  load_lines lines = Ok (JObj <$> ds) ->
  read_episodes new_tasks lines
    = Ok (JObj <$> (dict_set "tasks" (JArr (JStr <$> new_tasks)) <$> ds)).
Proof.
  revert ds. induction lines as [|line lines IH]; intros ds H; cbn [load_lines List.filter] in H.
  - by destruct ds.
  - apply bind_Ok in H as (v & Hv & H). apply bind_Ok in H as (vs & Hvs & H).
    destruct ds as [|d ds]; [done|]. cbn [fmap list_fmap] in H. simplify_eq.
    cbn [read_episodes]. rewrite Hv. cbn. by rewrite (IH ds).
Qed.

Lemma read_episodes_inv (new_tasks : list string) (lines : list string)
    (records : list json) :
  read_episodes new_tasks lines = Ok records ->
  exists ds, load_lines lines = Ok (JObj <$> ds)
    /\ records = JObj <$> (dict_set "tasks" (JArr (JStr <$> new_tasks)) <$> ds).
Proof.
  revert records. induction lines as [|line lines IH]; intros records H; cbn [read_episodes] in H.
  - simplify_eq. by exists [].
  - apply bind_Ok in H as (v & Hv & H). apply bind_Ok in H as (v' & Hset & H).
    apply bind_Ok in H as (vs & Hvs & H). simplify_eq.
    destruct v as [| | | | |d]; try done. cbn in Hset. simplify_eq.
    destruct (IH _ Hvs) as (ds & Hl & ->).
    exists (d :: ds). cbn [load_lines]. by rewrite Hv, Hl.
Qed.

Lemma read_tasks_objects (new_tasks : list string) (lines : list string)
    (ds : list (list (string * json))) :
  load_lines (List.filter nonblank lines) = Ok (JObj <$> ds) ->
  read_tasks new_tasks lines
    = Ok (JObj <$> (dict_set "task" (JStr (first_task new_tasks)) <$> ds)).
Proof.
  revert ds. induction lines as [|line lines IH]; intros ds H; cbn [load_lines List.filter] in H.
  - by destruct ds.
  - cbn [read_tasks]. cbv zeta. fold (nonblank line) in *.
    destruct (nonblank line); [|by apply IH].
    cbn [load_lines] in H.
    apply bind_Ok in H as (v & Hv & H). apply bind_Ok in H as (vs & Hvs & H).
    destruct ds as [|d ds]; [done|]. cbn [fmap list_fmap] in H. simplify_eq.
    rewrite Hv. cbn. by rewrite (IH ds).
Qed.

Lemma read_tasks_inv (new_tasks : list string) (lines : list string)
    (records : list json) :
  read_tasks new_tasks lines = Ok records ->
  exists ds, load_lines (List.filter nonblank lines) = Ok (JObj <$> ds)
    /\ records = JObj <$> (dict_set "task" (JStr (first_task new_tasks)) <$> ds).
Proof.
  revert records. induction lines as [|line lines IH]; intros records H;
    cbn [read_tasks] in H.
  - simplify_eq. by exists [].
  - cbn [List.filter]. cbv zeta in H. fold (nonblank line) in H.
    destruct (nonblank line); [|by apply IH].
    apply bind_Ok in H as (v & Hv & H). apply bind_Ok in H as (v' & Hset & H).
    apply bind_Ok in H as (vs & Hvs & H). simplify_eq.
    destruct v as [| | | | |d]; try done. cbn in Hset. simplify_eq.
    destruct (IH _ Hvs) as (ds & Hl & ->).
    exists (d :: ds). cbn [load_lines]. by rewrite Hv, Hl.
Qed.

(** ** Reading back what was written *)

Lemma load_written (ds : list (list (string * json))) :
  Forall keys_once (JObj <$> ds) ->
  load_lines (readlines (write_records (JObj <$> ds))) = Ok (JObj <$> ds).
Proof.
  intros Hk. rewrite readlines_write_records.
  induction ds as [|d ds IH]; [done|].
  apply Forall_cons_1 in Hk as [Hd Hk]. cbn [fmap list_fmap load_lines].
  rewrite loads_object_line by done. cbn [fmap list_fmap] in IH.
  by rewrite IH.
Qed.

Lemma written_nonblank (ds : list (list (string * json))) :
  List.filter nonblank (readlines (write_records (JObj <$> ds)))
    = readlines (write_records (JObj <$> ds)).
Proof.
  rewrite readlines_write_records.
  induction ds as [|d ds IH]; [done|]. cbn [fmap list_fmap List.filter].
  unfold nonblank at 1. rewrite object_line_nonblank.
  cbn [fmap list_fmap] in IH. by rewrite IH.
Qed.

Lemma keys_once_set (k : string) (v : json) (d : list (string * json)) :
  keys_once v -> keys_once (JObj d) -> keys_once (JObj (dict_set k v d)).
Proof.
  intros Hv Hd. inversion_clear Hd.
  constructor; [by apply dict_set_NoDup | by apply dict_set_Forall].
Qed.

Lemma keys_once_tasks (new_tasks : list string) :
  keys_once (JArr (JStr <$> new_tasks)).
Proof.
  constructor. induction new_tasks; constructor; [constructor | done].
Qed.

Lemma keys_once_set_all (k : string) (v : json) (ds : list (list (string * json))) :
  keys_once v -> Forall keys_once (JObj <$> ds) ->
  Forall keys_once (JObj <$> ((dict_set k v) <$> ds)).
Proof.
  intros Hv. induction ds as [|d ds IH]; [done|]. cbn.
  intros [Hd Hk]%Forall_cons_1. constructor; [by apply keys_once_set | auto].
Qed.

Lemma field_replaced_set (k : string) (v : json) (d : list (string * json)) :
  field_replaced k v d (dict_set k v d).
Proof.
  split; [apply dict_get_set|]. intros k' Hne. by apply dict_get_set_ne.
Qed.

Lemma field_replaced_all (k : string) (v : json) (ds : list (list (string * json))) :
  Forall2 (field_replaced k v) ds (dict_set k v <$> ds).
Proof.
  induction ds; constructor; [apply field_replaced_set | done].
Qed.

End RewriterFacts.

(** * The name of a backup *)

Module BackupName.

Lemma rfind_dot_none (s : string) :
  Str.contains "." s = false -> rfind_dot s = None.
Proof.
  induction s as [|a s IH]; [done|]. cbn.
  intros [Ha Hs]%orb_false_iff. by rewrite IH, Ha.
Qed.

Lemma rfind_dot_last (base ext : string) :
  Str.contains "." ext = false ->
  rfind_dot (base +:+ String "." ext) = Some (String.length base).
Proof.
  intros He. induction base as [|a base IH]; cbn.
  - by rewrite rfind_dot_none.
  - by rewrite IH.
Qed.

Lemma rfind_dot_bound (s : string) (i : nat) :
  rfind_dot s = Some i -> i < String.length s.
Proof.
  revert i. induction s as [|a s IH]; intros i; cbn; [done|].
  destruct (rfind_dot s) as [j|].
  - intros [= <-]. specialize (IH j eq_refl). lia.
  - destruct (Ascii.eqb a "."); [|done]. intros [= <-]. lia.
Qed.

Lemma substring_prefix (base rest : string) :
  String.substring 0 (String.length base) (base +:+ rest) = base.
Proof.
  induction base as [|a base IH]; cbn; [by destruct rest|]. by rewrite IH.
Qed.

Lemma substring_length (s : string) (i : nat) :
  i <= String.length s -> String.length (String.substring 0 i s) = i.
Proof.
  revert i. induction s as [|a s IH]; intros [|i] Hi; cbn in *; try done; [lia|].
  rewrite IH; lia.
Qed.

Lemma length_append (s t : string) :
  String.length (s +:+ t) = String.length s + String.length t.
Proof. induction s as [|a s IH]; cbn; [done|]. by rewrite IH. Qed.

Lemma append_shift (s t u : string) : (s +:+ t) +:+ u = s +:+ (t +:+ u).
Proof. induction s as [|a s IH]; cbn; [done|]. by rewrite IH. Qed.

(** The stem of [base.ext] is [base]. *)
Lemma stem_extension (base ext : string) :
  base <> "" -> ext <> "" -> Str.contains "." ext = false ->
  stem (base +:+ String "." ext) = base.
Proof.
  intros Hb He Hd. unfold stem. rewrite rfind_dot_last by done.
  rewrite length_append. cbn [String.length].
  destruct base as [|a base]; [done|]. destruct ext as [|c ext]; [done|].
  cbn [String.length].
  replace (0 <? S (String.length base)) with true by (symmetry; apply Nat.ltb_lt; lia).
  replace (S (String.length base)
             <? S (String.length base) + S (S (String.length ext)) - 1)
    with true by (symmetry; apply Nat.ltb_lt; lia).
  cbn [andb]. apply (substring_prefix (String a base)).
Qed.

Lemma append_cancel (base s t : string) : base +:+ s = base +:+ t -> s = t.
Proof. induction base as [|a base IH]; cbn; [done|]. intros [= H]. auto. Qed.

(** The name of the backup is never the name of the file. *)
Lemma stem_backup_ne (name : string) : stem name +:+ ".jsonl.backup" <> name.
Proof.
  assert (forall x, x +:+ ".jsonl.backup" <> x) as Hlonger.
  { intros x H%(f_equal String.length). rewrite length_append in H. cbn in H. lia. }
  unfold stem. destruct (rfind_dot name) as [i|] eqn:Hi; [|apply Hlonger].
  destruct ((0 <? i) && (i <? String.length name - 1)); [|apply Hlonger].
  intros H.
  assert (String.length (String.substring 0 i name) = i) as Hlen.
  { apply substring_length. apply rfind_dot_bound in Hi. lia. }
  remember (String.substring 0 i name) as x eqn:Hx. clear Hx.
  rewrite <- H in Hi.
  change (x +:+ ".jsonl.backup") with (x +:+ (".jsonl" +:+ String "." "backup")) in Hi.
  rewrite <- append_shift, rfind_dot_last, length_append in Hi by done.
  cbn in Hi. simplify_eq. lia.
Qed.

Lemma with_suffix_inv (p bp : path) (suffix : string) :
  with_suffix p suffix = Ok bp ->
  exists name, last p = Some name /\ bp = removelast p ++ [stem name +:+ suffix].
Proof.
  unfold with_suffix. intros H. destruct (last p) as [name|]; [|done].
  exists name. split; [done|]. repeat case_match; by simplify_eq.
Qed.

Lemma with_suffix_ne (p bp : path) :
  with_suffix p ".jsonl.backup" = Ok bp -> bp <> p.
Proof.
  intros (name & Hl & ->)%with_suffix_inv Heq.
  apply last_Some in Hl as (l & ->).
  rewrite List.removelast_last in Heq.
  apply app_inj_tail in Heq as [_ Heq]. by apply stem_backup_ne in Heq.
Qed.

Lemma with_suffix_length (p bp : path) (suffix : string) :
  with_suffix p suffix = Ok bp -> length bp = length p.
Proof.
  intros (name & Hl & ->)%with_suffix_inv.
  apply last_Some in Hl as (l & ->).
  by rewrite List.removelast_last, !length_app.
Qed.

Lemma with_suffix_extension (dir : path) (base ext : string) :
  base <> "" -> ext <> "" -> Str.contains "." ext = false ->
  with_suffix (joinpath dir (base +:+ String "." ext)) ".jsonl.backup"
    = Ok (joinpath dir (base +:+ ".jsonl.backup")).
Proof.
  intros Hb He Hd. unfold with_suffix, joinpath.
  rewrite last_snoc, List.removelast_last, stem_extension by done.
  destruct base as [|a base]; [done|]. cbn.
  destruct (base +:+ String "." ext) eqn:E; [by destruct base|].
  by destruct a as [[] [] [] [] [] [] [] []].
Qed.

(** ** Where the copy lands *)

Lemma copy_target_cases (w : world) (src dst : path) :
  copy_target w src dst = dst
  \/ (nodes w !! dst = Some Dir
      /\ copy_target w src dst = joinpath dst (basename src)).
Proof.
  unfold copy_target. destruct (nodes w !! dst) as [[|?]|]; auto.
  destruct (Str.nonempty (basename src)); auto.
Qed.

Lemma copy_target_file (w : world) (src dst : path) :
  nodes w !! dst <> Some Dir -> copy_target w src dst = dst.
Proof. intros H. unfold copy_target. by destruct (nodes w !! dst) as [[|?]|]. Qed.

Lemma copy_target_dir (w : world) (src dst : path) :
  nodes w !! dst = Some Dir -> basename src <> "" ->
  copy_target w src dst = joinpath dst (basename src).
Proof.
  intros H Hn. unfold copy_target. rewrite H. by destruct (basename src).
Qed.

(** It depends on what sits at the destination only. *)
Lemma copy_target_lookup (w w' : world) (src dst : path) :
  nodes w' !! dst = nodes w !! dst ->
  copy_target w' src dst = copy_target w src dst.
Proof. intros H. unfold copy_target. by rewrite H. Qed.

Lemma copy_target_ne (w : world) (p bp : path) :
  with_suffix p ".jsonl.backup" = Ok bp -> copy_target w p bp <> p.
Proof.
  intros Hs. destruct (copy_target_cases w p bp) as [-> | [_ ->]].
  - by apply with_suffix_ne.
  - apply with_suffix_length in Hs. unfold joinpath.
    intros H%(f_equal length). rewrite length_app in H. cbn in H. lia.
Qed.

Lemma basename_joinpath (p : path) (name : string) :
  name <> "/" -> basename (joinpath p name) = name.
Proof.
  intros H. unfold basename, joinpath. rewrite last_snoc.
  repeat case_match; by simplify_eq.
Qed.

End BackupName.

Module RunFacts.
Import JsonFacts LoadsFacts LineFacts RewriterFacts BackupName.

Lemma update_episodes_jsonl_shape p new_tasks b :
  update_episodes_jsonl p new_tasks b = rewrite_with (read_episodes new_tasks) p b.
Proof. reflexivity. Qed.

Lemma update_tasks_jsonl_shape p new_tasks b :
  update_tasks_jsonl p new_tasks b = rewrite_with (read_tasks new_tasks) p b.
Proof. reflexivity. Qed.

(** ** One step at a time *)

Lemma bind_run_Ok {A B} (m : M A) (f : A -> M B) (w w' : world) (a : A) :
  m w = (w', Ok a) -> (m ≫= f) w = f a w'.
Proof. intros H. unfold mbind, M_bind. by rewrite H. Qed.

Lemma bind_run_Raise {A B} (m : M A) (f : A -> M B) (w w' : world) (e : exn) :
  m w = (w', Raise e) -> (m ≫= f) w = (w', Raise e).
Proof. intros H. unfold mbind, M_bind. by rewrite H. Qed.

Lemma bind_run_Unmodelled {A B} (m : M A) (f : A -> M B) (w w' : world) :
  m w = (w', Unmodelled) -> (m ≫= f) w = (w', Unmodelled).
Proof. intros H. unfold mbind, M_bind. by rewrite H. Qed.

Lemma read_text_file (p : path) (w : world) (content : string) :
  nodes w !! p = Some (File content) ->
  read_text p w = (World (nodes w) (trace w ++ [Read p]), Ok content).
Proof. intros H. unfold read_text. by rewrite H. Qed.

Lemma read_text_no_file (p : path) (w : world) :
  (forall content, nodes w !! p <> Some (File content)) ->
  read_text p w = (w, Raise OSError).
Proof.
  intros H. unfold read_text.
  destruct (nodes w !! p) as [[|content]|]; [done| |done]. by destruct (H content).
Qed.

Lemma write_text_ok (p : path) (w : world) (content : string) :
  nodes w !! p <> Some Dir ->
  write_text p content w
    = (World (<[p := File content]> (nodes w)) (trace w ++ [Written p content]), Ok ()).
Proof. intros H. unfold write_text. by destruct (nodes w !! p) as [[|?]|]. Qed.

Lemma copy2_ok (src dst : path) (w : world) (content : string) :
  nodes w !! src = Some (File content) ->
  copy_target w src dst <> src ->
  nodes w !! copy_target w src dst <> Some Dir ->
  copy2 src dst w
    = (World (<[copy_target w src dst := File content]> (nodes w))
             (trace w ++ [Copied src dst]),
       Ok ()).
Proof.
  intros Hs Hne Hd. unfold copy2. cbv zeta. rewrite Hs.
  rewrite bool_decide_eq_false_2 by done.
  by destruct (nodes w !! copy_target w src dst) as [[|?]|].
Qed.

(** A directory where the copy is to be written stops it. *)
Lemma copy2_dir (src dst : path) (w : world) (content : string) :
  nodes w !! src = Some (File content) ->
  nodes w !! copy_target w src dst = Some Dir ->
  copy2 src dst w = (w, Raise OSError).
Proof.
  intros Hs Hd. unfold copy2. cbv zeta. rewrite Hs, Hd. by case_bool_decide.
Qed.

Section RewriteWith.

Variable read_loop : list string -> outcome (list json).
Variables (p : path) (w : world).

Lemma rewrite_with_no_file b :
  (forall content, nodes w !! p <> Some (File content)) ->
  rewrite_with read_loop p b w = (w, Raise OSError).
Proof.
  intros H. unfold rewrite_with.
  by rewrite (bind_run_Raise _ _ _ _ _ (read_text_no_file p w H)).
Qed.

(** When the read loop stops, nothing has been copied or written. *)
Lemma rewrite_with_read_failure b content :
  nodes w !! p = Some (File content) ->
  (forall records, read_loop (readlines content) <> Ok records) ->
  rewrite_with read_loop p b w
    = (World (nodes w) (trace w ++ [Read p]),
       _ ← read_loop (readlines content); Ok ()).
Proof.
  intros Hp Hr. unfold rewrite_with.
  rewrite (bind_run_Ok _ _ _ _ _ (read_text_file p w content Hp)).
  unfold mbind at 1, M_bind, lift.
  destruct (read_loop (readlines content)) as [records| |]; [|done..].
  by destruct (Hr records).
Qed.

Lemma rewrite_with_plain content records :
  nodes w !! p = Some (File content) ->
  read_loop (readlines content) = Ok records ->
  rewrite_with read_loop p false w
    = (World (<[p := File (write_records records)]> (nodes w))
             (trace w ++ [Read p; Written p (write_records records)]),
       Ok ()).
Proof.
  intros Hp Hr. unfold rewrite_with.
  rewrite (bind_run_Ok _ _ _ _ _ (read_text_file p w content Hp)).
  erewrite bind_run_Ok; [|unfold lift; by rewrite Hr].
  erewrite bind_run_Ok; [|reflexivity].
  rewrite write_text_ok by (cbn; congruence). cbn. by rewrite <- app_assoc.
Qed.

Lemma rewrite_with_backup content records bp :
  nodes w !! p = Some (File content) ->
  read_loop (readlines content) = Ok records ->
  with_suffix p ".jsonl.backup" = Ok bp ->
  nodes w !! copy_target w p bp <> Some Dir ->
  rewrite_with read_loop p true w
    = (World (<[p := File (write_records records)]>
                (<[copy_target w p bp := File content]> (nodes w)))
             (trace w ++ [Read p; Copied p bp; Written p (write_records records)]),
       Ok ()).
Proof.
  intros Hp Hr Hs Hbp. unfold rewrite_with.
  rewrite (bind_run_Ok _ _ _ _ _ (read_text_file p w content Hp)).
  erewrite bind_run_Ok; [|unfold lift; by rewrite Hr].
  erewrite bind_run_Ok.
  2:{ unfold backup. erewrite bind_run_Ok; [|unfold lift; by rewrite Hs].
      apply copy2_ok; [done | by apply copy_target_ne | done]. }
  rewrite write_text_ok.
  - cbn. by rewrite <- !app_assoc.
  - cbn. rewrite lookup_insert. case_decide; congruence.
Qed.

Lemma rewrite_with_backup_dir content records bp :
  nodes w !! p = Some (File content) ->
  read_loop (readlines content) = Ok records ->
  with_suffix p ".jsonl.backup" = Ok bp ->
  nodes w !! copy_target w p bp = Some Dir ->
  rewrite_with read_loop p true w
    = (World (nodes w) (trace w ++ [Read p]), Raise OSError).
Proof.
  intros Hp Hr Hs Hbp. unfold rewrite_with.
  rewrite (bind_run_Ok _ _ _ _ _ (read_text_file p w content Hp)).
  erewrite bind_run_Ok; [|unfold lift; by rewrite Hr].
  erewrite bind_run_Raise; [done|].
  unfold backup. erewrite bind_run_Ok; [|unfold lift; by rewrite Hs].
  by eapply copy2_dir.
Qed.

Lemma rewrite_with_no_suffix content records :
  nodes w !! p = Some (File content) ->
  read_loop (readlines content) = Ok records ->
  (forall bp, with_suffix p ".jsonl.backup" <> Ok bp) ->
  rewrite_with read_loop p true w
    = (World (nodes w) (trace w ++ [Read p]),
       _ ← with_suffix p ".jsonl.backup"; Ok ()).
Proof.
  intros Hp Hr Hs. unfold rewrite_with.
  rewrite (bind_run_Ok _ _ _ _ _ (read_text_file p w content Hp)).
  erewrite bind_run_Ok; [|unfold lift; by rewrite Hr].
  unfold backup, lift. unfold mbind at 1 2, M_bind.
  destruct (with_suffix p ".jsonl.backup") as [bp| |]; [|done..].
  by destruct (Hs bp).
Qed.

(** A rewrite that succeeds did one of the two things above. *)
Lemma rewrite_with_inv b w' :
  rewrite_with read_loop p b w = (w', Ok ()) ->
  exists content records,
    nodes w !! p = Some (File content)
    /\ read_loop (readlines content) = Ok records
    /\ if b then
         exists bp,
           with_suffix p ".jsonl.backup" = Ok bp
           /\ nodes w !! copy_target w p bp <> Some Dir
           /\ w' = World (<[p := File (write_records records)]>
                           (<[copy_target w p bp := File content]> (nodes w)))
                    (trace w ++ [Read p; Copied p bp; Written p (write_records records)])
       else
         w' = World (<[p := File (write_records records)]> (nodes w))
                (trace w ++ [Read p; Written p (write_records records)]).
Proof.
  intros H.
  destruct (nodes w !! p) as [[|content]|] eqn:Hp;
    [rewrite rewrite_with_no_file in H by congruence; done | |
     rewrite rewrite_with_no_file in H by congruence; done].
  destruct (read_loop (readlines content)) as [records| |] eqn:Hr;
    [|rewrite (rewrite_with_read_failure b content), Hr in H by congruence;
      done..].
  exists content, records. split; [done|]. split; [done|].
  destruct b.
  - destruct (with_suffix p ".jsonl.backup") as [bp| |] eqn:Hs;
      [|rewrite (rewrite_with_no_suffix content records), Hs in H by congruence;
        done..].
    assert (nodes w !! copy_target w p bp = Some Dir
            \/ nodes w !! copy_target w p bp <> Some Dir) as [Hd|Hd]
      by (destruct (nodes w !! copy_target w p bp) as [[|?]|]; auto).
    + by rewrite (rewrite_with_backup_dir content records bp) in H.
    + rewrite (rewrite_with_backup content records bp) in H by done.
      exists bp. by simplify_eq.
  - rewrite (rewrite_with_plain content records) in H by done. by simplify_eq.
Qed.

(** A rewrite that does not succeed leaves every file as it was. *)
Lemma rewrite_with_failure b w' o :
  rewrite_with read_loop p b w = (w', o) -> o <> Ok () -> nodes w' = nodes w.
Proof.
  intros H Ho.
  destruct (nodes w !! p) as [[|content]|] eqn:Hp;
    [rewrite rewrite_with_no_file in H by congruence; by simplify_eq | |
     rewrite rewrite_with_no_file in H by congruence; by simplify_eq].
  destruct (read_loop (readlines content)) as [records| |] eqn:Hr;
    [|rewrite (rewrite_with_read_failure b content) in H by congruence;
      by simplify_eq..].
  destruct b.
  - destruct (with_suffix p ".jsonl.backup") as [bp| |] eqn:Hs;
      [|rewrite (rewrite_with_no_suffix content records) in H by congruence;
        by simplify_eq..].
    assert (nodes w !! copy_target w p bp = Some Dir
            \/ nodes w !! copy_target w p bp <> Some Dir) as [Hd|Hd]
      by (destruct (nodes w !! copy_target w p bp) as [[|?]|]; auto).
    + rewrite (rewrite_with_backup_dir content records bp) in H by done.
      by simplify_eq.
    + rewrite (rewrite_with_backup content records bp) in H by done.
      by destruct o as [[]| |]; simplify_eq.
  - rewrite (rewrite_with_plain content records) in H by done.
    by destruct o as [[]| |]; simplify_eq.
Qed.

End RewriteWith.

End RunFacts.

Module RewriteTwice.
Import JsonFacts LoadsFacts LineFacts RewriterFacts RunFacts.

Lemma set_twice (k : string) (v : json) (ds : list (list (string * json))) :
  dict_set k v <$> (dict_set k v <$> ds) = dict_set k v <$> ds.
Proof.
  induction ds as [|d ds IH]; [done|]. cbn. by rewrite dict_set_idem, IH.
Qed.

(** The records a read loop produced are produced again from their own
    text. *)
Lemma read_episodes_again (new_tasks : list string) (lines : list string)
    (records : list json) :
  read_episodes new_tasks lines = Ok records ->
  read_episodes new_tasks (readlines (write_records records)) = Ok records.
Proof.
  intros (ds & Hl & ->)%read_episodes_inv.
  apply load_lines_keys_once in Hl as Hk.
  erewrite read_episodes_objects.
  - by rewrite set_twice.
  - apply load_written, keys_once_set_all; [apply keys_once_tasks | done].
Qed.

Lemma read_tasks_again (new_tasks : list string) (lines : list string)
    (records : list json) :
  read_tasks new_tasks lines = Ok records ->
  read_tasks new_tasks (readlines (write_records records)) = Ok records.
Proof.
  intros (ds & Hl & ->)%read_tasks_inv.
  apply load_lines_keys_once in Hl as Hk.
  erewrite read_tasks_objects.
  - by rewrite set_twice.
  - rewrite written_nonblank.
    apply load_written, keys_once_set_all; [constructor | done].
Qed.

End RewriteTwice.

Import JsonFacts LoadsFacts LineFacts RewriterFacts RunFacts RewriteTwice.

(** C1.  An episodes file whose lines all decode to JSON objects is
    rewritten, and read again it gives as many records, in the same order,
    each with [tasks] equal to the resolved sequence and every other field
    as in the record it comes from. *)
Theorem update_episodes_jsonl_round_trip (w : world) (p : path) (content : string)
    (ds : list (list (string * json))) (new_tasks : list string) :
  nodes w !! p = Some (File content) ->
  load_lines (readlines content) = Ok (JObj <$> ds) ->
  exists content' ds',
    update_episodes_jsonl p new_tasks false w
      = (World (<[p := File content']> (nodes w))
               (trace w ++ [Read p; Written p content']),
         Ok ())
    /\ (forall b w',
          update_episodes_jsonl p new_tasks b w = (w', Ok ()) ->
          nodes w' !! p = Some (File content'))
    /\ load_lines (readlines content') = Ok (JObj <$> ds')
    /\ length ds' = length ds
    /\ Forall2 (field_replaced "tasks" (JArr (JStr <$> new_tasks))) ds ds'.
Proof.
  intros Hp Hl.
  pose proof (read_episodes_objects new_tasks _ _ Hl) as Hr.
  set (ds' := dict_set "tasks" (JArr (JStr <$> new_tasks)) <$> ds) in *.
  exists (write_records (JObj <$> ds')), ds'.
  rewrite update_episodes_jsonl_shape.
  split; [by apply rewrite_with_plain with content|].
  split; [|split; [|split]].
  - intros b w' H. rewrite update_episodes_jsonl_shape in H.
    apply rewrite_with_inv in H as (content0 & records & Hp0 & Hr0 & H).
    assert (content0 = content) as -> by congruence.
    assert (records = JObj <$> ds') as -> by congruence.
    destruct b; [destruct H as (bp & _ & _ & ->) | subst w']; cbn;
      apply lookup_insert_eq.
  - apply load_written, keys_once_set_all;
      [apply keys_once_tasks | by eapply load_lines_keys_once].
  - unfold ds'. by rewrite length_fmap.
  - apply field_replaced_all.
Qed.

Lemma update_episodes_jsonl_round_trip_witness :
  exists content' ds',
    update_episodes_jsonl sample_episodes ["Pick"; "Place"] false scenario_world
      = (World (<[sample_episodes := File content']> (nodes scenario_world))
               (trace scenario_world
                  ++ [Read sample_episodes; Written sample_episodes content']),
         Ok ())
    /\ (forall b w',
          update_episodes_jsonl sample_episodes ["Pick"; "Place"] b scenario_world
            = (w', Ok ()) ->
          nodes w' !! sample_episodes = Some (File content'))
    /\ load_lines (readlines content') = Ok (JObj <$> ds')
    /\ length ds' = 2
    /\ Forall2 (field_replaced "tasks" (JArr (JStr <$> ["Pick"; "Place"])))
         [[("episode_index", JInt 0); ("tasks", JArr [JStr "old"])];
          [("episode_index", JInt 1); ("tasks", JArr [JStr "old"])]]
         ds'.
Proof.
  apply (update_episodes_jsonl_round_trip scenario_world sample_episodes
           (text "{'episode_index':0,'tasks':['old']}|{'episode_index':1,'tasks':['old']}|")
           [[("episode_index", JInt 0); ("tasks", JArr [JStr "old"])];
            [("episode_index", JInt 1); ("tasks", JArr [JStr "old"])]]
           ["Pick"; "Place"]);
    vm_compute; reflexivity.
Defined.

(** C2.  A tasks file whose non-blank lines all decode to JSON objects is
    rewritten with, in every record, [task] equal to the first element of
    the resolved sequence, or to the empty string when the sequence is
    empty, and every other field as it was. *)
Theorem update_tasks_jsonl_sets_task (w : world) (p : path) (content : string)
    (ds : list (list (string * json))) (new_tasks : list string) :
  nodes w !! p = Some (File content) ->
  load_lines (List.filter nonblank (readlines content)) = Ok (JObj <$> ds) ->
  exists content' ds',
    update_tasks_jsonl p new_tasks false w
      = (World (<[p := File content']> (nodes w))
               (trace w ++ [Read p; Written p content']),
         Ok ())
    /\ (forall b w',
          update_tasks_jsonl p new_tasks b w = (w', Ok ()) ->
          nodes w' !! p = Some (File content'))
    /\ load_lines (readlines content') = Ok (JObj <$> ds')
    /\ length ds' = length ds
    /\ Forall2 (field_replaced "task" (JStr (List.hd "" new_tasks))) ds ds'.
Proof.
  intros Hp Hl.
  pose proof (read_tasks_objects new_tasks _ _ Hl) as Hr.
  assert (first_task new_tasks = List.hd "" new_tasks) as E by by destruct new_tasks.
  rewrite E in Hr.
  set (ds' := dict_set "task" (JStr (List.hd "" new_tasks)) <$> ds) in *.
  exists (write_records (JObj <$> ds')), ds'.
  rewrite update_tasks_jsonl_shape.
  split; [by apply rewrite_with_plain with content|].
  split; [|split; [|split]].
  - intros b w' H. rewrite update_tasks_jsonl_shape in H.
    apply rewrite_with_inv in H as (content0 & records & Hp0 & Hr0 & H).
    assert (content0 = content) as -> by congruence.
    assert (records = JObj <$> ds') as -> by congruence.
    destruct b; [destruct H as (bp & _ & _ & ->) | subst w']; cbn;
      apply lookup_insert_eq.
  - apply load_written, keys_once_set_all;
      [constructor | by eapply load_lines_keys_once].
  - unfold ds'. by rewrite length_fmap.
  - apply field_replaced_all.
Qed.

Lemma update_tasks_jsonl_sets_task_witness :
  exists content' ds',
    update_tasks_jsonl sample_tasks [] false blank_line_world
      = (World (<[sample_tasks := File content']> (nodes blank_line_world))
               (trace blank_line_world ++ [Read sample_tasks; Written sample_tasks content']),
         Ok ())
    /\ (forall b w',
          update_tasks_jsonl sample_tasks [] b blank_line_world = (w', Ok ()) ->
          nodes w' !! sample_tasks = Some (File content'))
    /\ load_lines (readlines content') = Ok (JObj <$> ds')
    /\ length ds' = 1
    /\ Forall2 (field_replaced "task" (JStr ""))
         [[("task_index", JInt 0); ("task", JStr "old")]] ds'.
Proof.
  apply (update_tasks_jsonl_sets_task blank_line_world sample_tasks
           (text "{'task_index':0,'task':'old'}||")
           [[("task_index", JInt 0); ("task", JStr "old")]] []);
    vm_compute; reflexivity.
Defined.

(** C8, on a dataset whose two files each end with an empty line: the
    episodes rewriter hands the empty line to the decoder and stops with
    its error, nothing written; the tasks rewriter skips the line. *)
Theorem blank_line_in_episodes_raises :
  update_episodes_jsonl sample_episodes ["new"] false blank_line_world
    = (World (nodes blank_line_world) [Read sample_episodes], Raise JSONDecodeError)
  /\ update_tasks_jsonl sample_tasks ["new"] false blank_line_world
     = (World (<[sample_tasks := File (text "{'task_index': 0, 'task': 'new'}|")]>
                 (nodes blank_line_world))
              [Read sample_tasks;
               Written sample_tasks (text "{'task_index': 0, 'task': 'new'}|")],
        Ok ())
  /\ main sample_eval sample_dataset "new" false blank_line_world
     = (World (nodes blank_line_world) [Read sample_episodes],
        Some (Failure JSONDecodeError)).
Proof. repeat split; vm_compute; reflexivity. Qed.

(** * The orchestrator *)

Module OrchestratorFacts.
Import RunFacts.

Lemma require_present (p : path) (what : string) (w : world) :
  nodes w !! p <> None -> require p what w = (w, Ok ()).
Proof.
  intros H. unfold require, mbind, M_bind, path_exists.
  rewrite bool_decide_eq_true_2; [done|]. by destruct (nodes w !! p).
Qed.

Lemma require_missing (p : path) (what : string) (w : world) :
  nodes w !! p = None ->
  require p what w
    = (w, Raise (FileNotFoundError (what +:+ " not found: " +:+ str_path p))).
Proof.
  intros H. unfold require, mbind, M_bind, path_exists.
  rewrite bool_decide_eq_false_2; [done|]. rewrite H. by intros [? ?].
Qed.

Lemma missing_true (w : world) (p : path) :
  missing w p = true <-> nodes w !! p = None.
Proof. unfold missing. apply bool_decide_eq_true. Qed.

Lemma missing_false (w : world) (p : path) :
  missing w p = false <-> nodes w !! p <> None.
Proof. unfold missing. apply bool_decide_eq_false. Qed.

Section Run.

Variable literal_eval : string -> outcome pyobj.
Variables (dataset_path : path) (new_tasks : task_arg) (b : bool) (w : world).

(** The run stops at the first path that is missing. *)
Lemma change_first_missing (what : string) (p : path) :
  first_missing w dataset_path = Some (what, p) ->
  change_task_description literal_eval dataset_path new_tasks b w
    = (w, Raise (FileNotFoundError (what +:+ " not found: " +:+ str_path p))).
Proof.
  unfold first_missing, required_paths, change_task_description.
  cbv zeta. cbn [List.find snd].
  destruct (missing w dataset_path) eqn:H1.
  { intros [= <- <-]. apply missing_true in H1.
    by rewrite (bind_run_Raise _ _ _ _ _ (require_missing _ _ _ H1)). }
  apply missing_false in H1.
  rewrite (bind_run_Ok _ _ _ _ _ (require_present _ "Dataset directory" _ H1)).
  destruct (missing w (joinpath dataset_path "meta")) eqn:H2.
  { intros [= <- <-]. apply missing_true in H2.
    by rewrite (bind_run_Raise _ _ _ _ _ (require_missing _ _ _ H2)). }
  apply missing_false in H2.
  rewrite (bind_run_Ok _ _ _ _ _ (require_present _ "Meta directory" _ H2)).
  destruct (missing w (joinpath (joinpath dataset_path "meta") "episodes.jsonl")) eqn:H3.
  { intros [= <- <-]. apply missing_true in H3.
    by rewrite (bind_run_Raise _ _ _ _ _ (require_missing _ _ _ H3)). }
  apply missing_false in H3.
  rewrite (bind_run_Ok _ _ _ _ _ (require_present _ "Episodes file" _ H3)).
  destruct (missing w (joinpath (joinpath dataset_path "meta") "tasks.jsonl")) eqn:H4.
  { intros [= <- <-]. apply missing_true in H4.
    by rewrite (bind_run_Raise _ _ _ _ _ (require_missing _ _ _ H4)). }
  done.
Qed.

(** With the four paths in place, the run resolves the tasks and
    rewrites the episodes file, then the tasks file. *)
Lemma change_none_missing :
  first_missing w dataset_path = None ->
  change_task_description literal_eval dataset_path new_tasks b w
    = (parsed_tasks ← lift (resolved literal_eval new_tasks);
       _ ← update_episodes_jsonl (episodes_of dataset_path) parsed_tasks b;
       update_tasks_jsonl (tasks_of dataset_path) parsed_tasks b) w.
Proof.
  unfold first_missing, required_paths, change_task_description.
  cbv zeta. cbn [List.find snd].
  destruct (missing w dataset_path) eqn:H1; [done|].
  destruct (missing w (joinpath dataset_path "meta")) eqn:H2; [done|].
  destruct (missing w (joinpath (joinpath dataset_path "meta") "episodes.jsonl"))
    eqn:H3; [done|].
  destruct (missing w (joinpath (joinpath dataset_path "meta") "tasks.jsonl"))
    eqn:H4; [done|].
  intros _. apply missing_false in H1, H2, H3, H4.
  rewrite (bind_run_Ok _ _ _ _ _ (require_present _ "Dataset directory" _ H1)).
  rewrite (bind_run_Ok _ _ _ _ _ (require_present _ "Meta directory" _ H2)).
  rewrite (bind_run_Ok _ _ _ _ _ (require_present _ "Episodes file" _ H3)).
  rewrite (bind_run_Ok _ _ _ _ _ (require_present _ "Tasks file" _ H4)).
  by destruct new_tasks.
Qed.

Lemma first_missing_None :
  first_missing w dataset_path = None <->
  nodes w !! dataset_path <> None
  /\ nodes w !! joinpath dataset_path "meta" <> None
  /\ nodes w !! episodes_of dataset_path <> None
  /\ nodes w !! tasks_of dataset_path <> None.
Proof.
  unfold first_missing, required_paths, episodes_of, tasks_of.
  cbv zeta. cbn [List.find snd]. rewrite <- !missing_false.
  destruct (missing w dataset_path),
    (missing w (joinpath dataset_path "meta")),
    (missing w (joinpath (joinpath dataset_path "meta") "episodes.jsonl")),
    (missing w (joinpath (joinpath dataset_path "meta") "tasks.jsonl"));
    intuition congruence.
Qed.

(** A run that succeeds found the four paths, resolved the tasks and
    made the two rewrites in turn. *)
Lemma change_inv (w' : world) :
  change_task_description literal_eval dataset_path new_tasks b w = (w', Ok ()) ->
  exists parsed_tasks w1,
    first_missing w dataset_path = None
    /\ resolved literal_eval new_tasks = Ok parsed_tasks
    /\ update_episodes_jsonl (episodes_of dataset_path) parsed_tasks b w = (w1, Ok ())
    /\ update_tasks_jsonl (tasks_of dataset_path) parsed_tasks b w1 = (w', Ok ()).
Proof.
  intros H.
  destruct (first_missing w dataset_path) as [[what p]|] eqn:Hm.
  { by rewrite (change_first_missing what p) in H. }
  rewrite change_none_missing in H by done.
  unfold mbind at 1, M_bind, lift in H.
  destruct (resolved literal_eval new_tasks) as [parsed_tasks| |]; [|done..].
  unfold mbind, M_bind in H.
  destruct (update_episodes_jsonl _ parsed_tasks b w) as [w1 [[]| |]] eqn:He;
    [|done..].
  by exists parsed_tasks, w1.
Qed.

End Run.

Lemma main_failure literal_eval dataset_path s b w w' e :
  change_task_description literal_eval dataset_path (RawText s) b w = (w', Raise e) ->
  main literal_eval dataset_path s b w = (w', Some (Failure e)).
Proof. intros H. unfold main. by rewrite H. Qed.


End OrchestratorFacts.

(** * The text of a path *)

Module PathText.

Lemma split_plain (c : ascii) (x : string) :
  Str.contains c x = false -> Str.split c x = [x].
Proof.
  induction x as [|a x IH]; [done|]. rewrite StrFacts.split_String. cbn.
  intros [-> Hx]%orb_false_iff. by rewrite IH.
Qed.

Lemma split_at_separator (c : ascii) (x r : string) :
  Str.contains c x = false ->
  Str.split c (x +:+ String c r) = x :: Str.split c r.
Proof.
  induction x as [|a x IH]; cbn [String.append Str.contains].
  - intros _. by rewrite StrFacts.split_String, Ascii.eqb_refl.
  - intros [Ha Hx]%orb_false_iff. by rewrite StrFacts.split_String, Ha, IH.
Qed.

Lemma join_single (sep x : string) : Str.join sep [x] = x.
Proof. reflexivity. Qed.

Lemma join_cons (sep x y : string) (l : list string) :
  Str.join sep (x :: y :: l) = x +:+ sep +:+ Str.join sep (y :: l).
Proof. reflexivity. Qed.

(** Cutting the text of a path at its slashes gives back the parts. *)
Lemma split_join (parts : list string) :
  parts <> [] ->
  Forall (fun part => Str.contains "/" part = false) parts ->
  Str.split "/" (Str.join "/" parts) = parts.
Proof.
  intros Hne Hall. induction Hall as [|x l Hx Hl IH]; [done|].
  destruct l as [|y l].
  - rewrite join_single. by apply split_plain.
  - rewrite join_cons. cbn [String.append].
    rewrite split_at_separator by done. by rewrite IH.
Qed.

Lemma str_path_relative (p : path) :
  p <> [] ->
  Forall (fun part => Str.contains "/" part = false) p ->
  str_path p = Str.join "/" p.
Proof.
  intros Hne Hall. destruct Hall as [|x l Hx Hl]; [done|].
  unfold str_path. repeat case_match; by simplify_eq.
Qed.

Lemma str_path_absolute (rest : list string) :
  str_path ("/" :: rest) = String "/" (Str.join "/" rest).
Proof. reflexivity. Qed.

(** Each required path is the dataset path with plain names after it. *)
Lemma required_paths_parts (d : path) (i : nat) (what : string) (p : path) :
  required_paths d !! i = Some (what, p) ->
  exists names,
    p = d ++ names
    /\ Forall (fun part => Str.contains "/" part = false) names.
Proof.
  unfold required_paths, joinpath. cbv zeta.
  destruct i as [|[|[|[|i]]]]; intros [= <- <-].
  - exists []. by rewrite app_nil_r.
  - exists ["meta"]. by repeat constructor.
  - exists ["meta"; "episodes.jsonl"]. rewrite <- app_assoc. by repeat constructor.
  - exists ["meta"; "tasks.jsonl"]. rewrite <- app_assoc. by repeat constructor.
Qed.

(** What [List.find] finds is the first element that passes the test. *)
Lemma find_first {A} (f : A -> bool) (l : list A) (x : A) :
  List.find f l = Some x ->
  exists i,
    l !! i = Some x /\ f x = true
    /\ forall j y, j < i -> l !! j = Some y -> f y = false.
Proof.
  induction l as [|a l IH]; [done|]. cbn [List.find].
  destruct (f a) eqn:Ha.
  - intros [= ->]. exists 0. split; [done|]. split; [done|]. lia.
  - intros (i & Hi & Hx & Hfirst)%IH. exists (S i).
    split; [done|]. split; [done|].
    intros [|j] y Hj; cbn; [by intros [= <-]|]. apply Hfirst. lia.
Qed.

End PathText.

Import RunFacts OrchestratorFacts PathText.

(** C3.  When the dataset directory, its [meta] directory, the episodes
    file or the tasks file is missing, the run ends with exit code 1 and
    prints a line that names the first of them that is missing, in that
    order: the mark, [ Error: ], what is missing and the text of its path,
    from which the path can be read back part by part.  The files are as
    they were and none was opened. *)
Theorem main_missing_path (literal_eval : string -> outcome pyobj)
    (dataset_path : path) (new_tasks : string) (create_backup : bool) (w : world) :
  (exists wp, wp ∈ required_paths dataset_path /\ nodes w !! wp.2 = None) ->
  exists i what p,
    required_paths dataset_path !! i = Some (what, p)
    /\ nodes w !! p = None
    /\ (forall j wp,
          j < i -> required_paths dataset_path !! j = Some wp ->
          nodes w !! wp.2 <> None)
    /\ main literal_eval dataset_path new_tasks create_backup w
       = (w, Some (Failure (FileNotFoundError (what +:+ " not found: " +:+ str_path p))))
    /\ exit_code <$> (main literal_eval dataset_path new_tasks create_backup w).2
       = Some 1%Z
    /\ (main literal_eval dataset_path new_tasks create_backup w).2 ≫= printed
       = Some (cross_mark
                 :: code_points (" Error: " +:+ what +:+ " not found: " +:+ str_path p))
    /\ (dataset_path <> [] ->
        Forall (fun part => Str.contains "/" part = false) dataset_path ->
        Str.split "/" (str_path p) = p)
    /\ (forall rest,
          dataset_path = "/" :: rest -> rest <> [] ->
          Forall (fun part => Str.contains "/" part = false) rest ->
          Str.split "/" (str_path p) = "" :: tail p).
Proof.
  intros (wp & Hin & Hnone).
  destruct (first_missing w dataset_path) as [[what p]|] eqn:Hm.
  - pose proof (change_first_missing literal_eval dataset_path (RawText new_tasks)
                  create_backup w what p Hm) as Hrun.
    apply main_failure in Hrun.
    apply find_first in Hm as (i & Hi & Hp%missing_true & Hfirst).
    exists i, what, p. split; [done|]. split; [done|].
    split.
    { intros j wp' Hj Hwp. by eapply missing_false, Hfirst. }
    split; [done|]. rewrite Hrun. split; [done|]. split; [done|].
    apply required_paths_parts in Hi as (names & -> & Hnames).
    split.
    + intros Hne Hall.
      assert (Forall (fun part => Str.contains "/" part = false) (dataset_path ++ names))
        as Hparts by by apply Forall_app.
      rewrite str_path_relative; [by apply split_join; [destruct dataset_path|]| |done].
      by destruct dataset_path.
    + intros rest -> Hne Hall. cbn [app tail].
      rewrite str_path_absolute, StrFacts.split_String, Ascii.eqb_refl.
      rewrite split_join; [done| |by apply Forall_app]. by destruct rest.
  - apply list_elem_of_In in Hin.
    pose proof (List.find_none _ _ Hm wp Hin) as Hf. cbn beta in Hf.
    by apply missing_false in Hf.
Qed.

(** The scenario of a dataset directory without its [meta] directory. *)
Lemma main_missing_path_witness :
  main sample_eval sample_dataset "Pick" true (World {[ sample_dataset := Dir ]} [])
    = (World {[ sample_dataset := Dir ]} [],
       Some (Failure (FileNotFoundError "Meta directory not found: data/meta")))
  /\ exit_code
       <$> (main sample_eval sample_dataset "Pick" true
              (World {[ sample_dataset := Dir ]} [])).2
     = Some 1%Z
  /\ (main sample_eval sample_dataset "Pick" true
        (World {[ sample_dataset := Dir ]} [])).2 ≫= printed
     = Some (cross_mark :: code_points " Error: Meta directory not found: data/meta")
  /\ Str.split "/" "data/meta" = sample_meta.
Proof.
  destruct (main_missing_path sample_eval sample_dataset "Pick" true
              (World {[ sample_dataset := Dir ]} []))
    as (i & what & p & Hi & Hnone & Hfirst & Hrun & Hexit & Hline & Hparts & _).
  { exists ("Meta directory", sample_meta). split; [|reflexivity].
    apply list_elem_of_In. right. left. reflexivity. }
  destruct i as [|[|i]].
  - injection Hi as <- <-. discriminate Hnone.
  - injection Hi as <- <-.
    split; [exact Hrun|]. split; [exact Hexit|]. split; [exact Hline|].
    apply Hparts; [discriminate|]. by repeat constructor.
  - destruct (Hfirst 1 ("Meta directory", sample_meta)); [lia | reflexivity | reflexivity].
Defined.

Module PathFacts.

Lemma with_suffix_episodes (dataset_path : path) :
  with_suffix (episodes_of dataset_path) ".jsonl.backup"
    = Ok (episodes_backup_of dataset_path).
Proof.
  unfold with_suffix, episodes_of, episodes_backup_of, joinpath.
  by rewrite last_snoc, List.removelast_last.
Qed.

Lemma with_suffix_tasks (dataset_path : path) :
  with_suffix (tasks_of dataset_path) ".jsonl.backup"
    = Ok (tasks_backup_of dataset_path).
Proof.
  unfold with_suffix, tasks_of, tasks_backup_of, joinpath.
  by rewrite last_snoc, List.removelast_last.
Qed.

Lemma joinpath_inj (p : path) (a b : string) :
  a <> b -> joinpath p a <> joinpath p b.
Proof. unfold joinpath. by intros Hne [_ ?]%app_inj_tail. Qed.

Lemma joinpath_longer (p : path) (a : string) : p <> joinpath p a.
Proof.
  unfold joinpath. intros H%(f_equal length). rewrite length_app in H.
  cbn in H. lia.
Qed.

Lemma joinpath_longer2 (p : path) (a c : string) : p <> joinpath (joinpath p a) c.
Proof.
  unfold joinpath. intros H%(f_equal length). rewrite !length_app in H.
  cbn in H. lia.
Qed.

(** The paths of a dataset are pairwise distinct. *)
Lemma dataset_paths_distinct (d : path) :
  episodes_of d <> tasks_of d
  /\ episodes_of d <> episodes_backup_of d
  /\ episodes_of d <> tasks_backup_of d
  /\ tasks_of d <> episodes_backup_of d
  /\ tasks_of d <> tasks_backup_of d
  /\ episodes_backup_of d <> tasks_backup_of d.
Proof.
  unfold episodes_of, tasks_of, episodes_backup_of, tasks_backup_of.
  repeat split; by apply joinpath_inj.
Qed.

Lemma basename_episodes (d : path) : basename (episodes_of d) = "episodes.jsonl".
Proof. by apply BackupName.basename_joinpath. Qed.

Lemma basename_tasks (d : path) : basename (tasks_of d) = "tasks.jsonl".
Proof. by apply BackupName.basename_joinpath. Qed.

(** Where the backups of a dataset land. *)
Lemma episodes_target (d : path) (w : world) :
  (nodes w !! episodes_backup_of d <> Some Dir
   /\ copy_target w (episodes_of d) (episodes_backup_of d) = episodes_backup_of d)
  \/ (nodes w !! episodes_backup_of d = Some Dir
      /\ copy_target w (episodes_of d) (episodes_backup_of d)
         = joinpath (episodes_backup_of d) "episodes.jsonl").
Proof.
  destruct (nodes w !! episodes_backup_of d) as [[|c]|] eqn:E.
  - right. split; [done|].
    rewrite BackupName.copy_target_dir; rewrite ?basename_episodes; done.
  - left. split; [done|]. apply BackupName.copy_target_file. congruence.
  - left. split; [done|]. apply BackupName.copy_target_file. congruence.
Qed.

Lemma tasks_target (d : path) (w : world) :
  (nodes w !! tasks_backup_of d <> Some Dir
   /\ copy_target w (tasks_of d) (tasks_backup_of d) = tasks_backup_of d)
  \/ (nodes w !! tasks_backup_of d = Some Dir
      /\ copy_target w (tasks_of d) (tasks_backup_of d)
         = joinpath (tasks_backup_of d) "tasks.jsonl").
Proof.
  destruct (nodes w !! tasks_backup_of d) as [[|c]|] eqn:E.
  - right. split; [done|].
    rewrite BackupName.copy_target_dir; rewrite ?basename_tasks; done.
  - left. split; [done|]. apply BackupName.copy_target_file. congruence.
  - left. split; [done|]. apply BackupName.copy_target_file. congruence.
Qed.

(** Two paths of a dataset are told apart by their length or by the
    names after the dataset path. *)
Ltac distinct_paths :=
  repeat match goal with
    | |- context [copy_target ?w (episodes_of ?d) (episodes_backup_of ?d)] =>
        let H := fresh in
        destruct (episodes_target d w) as [[_ H] | [_ H]]; rewrite H; clear H
    | |- context [copy_target ?w (tasks_of ?d) (tasks_backup_of ?d)] =>
        let H := fresh in
        destruct (tasks_target d w) as [[_ H] | [_ H]]; rewrite H; clear H
    end;
  unfold episodes_of, tasks_of, episodes_backup_of, tasks_backup_of, joinpath;
  rewrite <- ?app_assoc; cbn [app];
  let H := fresh in
  intros H;
  first [ apply app_inv_head in H; discriminate
        | apply (f_equal length) in H; rewrite ?length_app in H; cbn in H; lia ].

End PathFacts.

Module PartialFacts.
Import LoadsFacts RewriterFacts.

(** The tasks read loop stops at the first line that does not decode. *)
Lemma read_tasks_stops (new_tasks : list string) (good : list string)
    (bad : string) (rest : list string) (ds : list (list (string * json)))
    (e : exn) :
  load_lines (List.filter nonblank good) = Ok (JObj <$> ds) ->
  nonblank bad = true ->
  Json.loads (Str.strip bad) = Raise e ->
  read_tasks new_tasks (good ++ bad :: rest) = Raise e.
Proof.
  intros Hg Hb He. revert ds Hg.
  induction good as [|line good IH]; intros ds Hg; cbn [app read_tasks]; cbv zeta.
  - fold (nonblank bad). by rewrite Hb, He.
  - cbn [List.filter] in Hg. fold (nonblank line).
    destruct (nonblank line); [|by eapply IH].
    cbn [load_lines] in Hg.
    apply bind_Ok in Hg as (v & Hv & Hg). apply bind_Ok in Hg as (vs & Hvs & Hg).
    destruct ds as [|d ds]; [done|]. cbn [fmap list_fmap] in Hg. simplify_eq.
    rewrite Hv. cbn. by rewrite (IH ds).
Qed.

(** The episodes read loop stops at a blank line: the empty text is not
    JSON. *)
Lemma read_episodes_blank (new_tasks : list string) (good : list string)
    (line : string) (rest : list string) (ds : list (list (string * json))) :
  load_lines good = Ok (JObj <$> ds) ->
  nonblank line = false ->
  read_episodes new_tasks (good ++ line :: rest) = Raise JSONDecodeError.
Proof.
  intros Hg Hb. revert ds Hg.
  induction good as [|l good IH]; intros ds Hg; cbn [app read_episodes].
  - unfold nonblank in Hb. by destruct (Str.strip line).
  - cbn [load_lines] in Hg.
    apply bind_Ok in Hg as (v & Hv & Hg). apply bind_Ok in Hg as (vs & Hvs & Hg).
    destruct ds as [|d ds]; [done|]. cbn [fmap list_fmap] in Hg. simplify_eq.
    rewrite Hv. cbn. by rewrite (IH ds).
Qed.

End PartialFacts.

Module DatasetFacts.
Import RunFacts OrchestratorFacts PathFacts RewriteTwice BackupName.

Section Rewritten.

Variable read_loop : list string -> outcome (list json).
Variables (p bp : path) (b : bool) (w : world).
Hypothesis Hbp : with_suffix p ".jsonl.backup" = Ok bp.

Lemma rewrite_with_ok content records :
  nodes w !! p = Some (File content) ->
  read_loop (readlines content) = Ok records ->
  (b = true -> nodes w !! copy_target w p bp <> Some Dir) ->
  rewrite_with read_loop p b w
    = (rewritten p bp b content (write_records records) w, Ok ()).
Proof using Hbp.
  intros Hp Hr Hd. unfold rewritten. destruct b.
  - by rewrite (rewrite_with_backup _ _ _ content records bp) by auto.
  - by rewrite (rewrite_with_plain _ _ _ content records).
Qed.

Lemma rewrite_with_ok_inv w' :
  rewrite_with read_loop p b w = (w', Ok ()) ->
  exists content records,
    nodes w !! p = Some (File content)
    /\ read_loop (readlines content) = Ok records
    /\ (b = true -> nodes w !! copy_target w p bp <> Some Dir)
    /\ w' = rewritten p bp b content (write_records records) w.
Proof using Hbp.
  intros (content & records & Hp & Hr & H)%rewrite_with_inv.
  exists content, records. split; [done|]. split; [done|].
  unfold rewritten. destruct b; [|by split].
  destruct H as (bp' & Hs & Hd & ->).
  assert (bp' = bp) as -> by congruence. by split.
Qed.

End Rewritten.

Lemma rewritten_lookup_other p bp b content new w q :
  q <> p -> q <> copy_target w p bp ->
  nodes (rewritten p bp b content new w) !! q = nodes w !! q.
Proof.
  intros H1 H2. unfold rewritten. cbn.
  rewrite lookup_insert_ne by done. destruct b; [|done].
  by rewrite lookup_insert_ne.
Qed.

Lemma rewritten_lookup p bp b content new w :
  nodes (rewritten p bp b content new w) !! p = Some (File new).
Proof. unfold rewritten. cbn. apply lookup_insert_eq. Qed.

Lemma rewritten_lookup_backup p bp content new w :
  p <> copy_target w p bp ->
  nodes (rewritten p bp true content new w) !! copy_target w p bp
    = Some (File content).
Proof.
  intros H. unfold rewritten. cbn.
  rewrite lookup_insert_ne by done. apply lookup_insert_eq.
Qed.

Lemma rewritten_same p bp content w :
  nodes w !! p = Some (File content) ->
  nodes (rewritten p bp false content content w) = nodes w.
Proof. intros H. unfold rewritten. cbn. by apply insert_id. Qed.

(** A rewrite removes nothing. *)
Lemma rewritten_keeps p bp b content new w q :
  nodes w !! q <> None -> nodes (rewritten p bp b content new w) !! q <> None.
Proof.
  intros Hq. unfold rewritten. cbn.
  rewrite lookup_insert. case_decide; [done|]. destruct b; [|done].
  rewrite lookup_insert. by case_decide.
Qed.

Lemma rewritten_first_missing p bp b content new w d :
  first_missing w d = None ->
  first_missing (rewritten p bp b content new w) d = None.
Proof.
  rewrite !first_missing_None. intros (H1 & H2 & H3 & H4).
  repeat split; by apply rewritten_keeps.
Qed.

End DatasetFacts.

Module WholeRun.
Import RunFacts OrchestratorFacts PathFacts RewriteTwice DatasetFacts BackupName.

Section After.

Variables (d : path) (b : bool) (c_e new_e c_t new_t : string) (w : world).

(** The rewrite of the episodes file leaves the place of the second
    copy as it was. *)
Lemma tasks_target_between :
  copy_target (rewritten (episodes_of d) (episodes_backup_of d) b c_e new_e w)
    (tasks_of d) (tasks_backup_of d)
  = copy_target w (tasks_of d) (tasks_backup_of d).
Proof using Type.
  apply copy_target_lookup. apply rewritten_lookup_other; distinct_paths.
Qed.

Lemma after_run_episodes :
  nodes (after_run d b c_e new_e c_t new_t w) !! episodes_of d = Some (File new_e).
Proof using Type.
  unfold after_run. rewrite rewritten_lookup_other by distinct_paths.
  apply rewritten_lookup.
Qed.

Lemma after_run_tasks :
  nodes (after_run d b c_e new_e c_t new_t w) !! tasks_of d = Some (File new_t).
Proof using Type. apply rewritten_lookup. Qed.

Lemma after_run_other (q : path) :
  q <> episodes_of d -> q <> tasks_of d ->
  (b = true ->
   q <> copy_target w (episodes_of d) (episodes_backup_of d)
   /\ q <> copy_target w (tasks_of d) (tasks_backup_of d)) ->
  nodes (after_run d b c_e new_e c_t new_t w) !! q = nodes w !! q.
Proof using Type.
  intros H1 H2 Hb. unfold after_run.
  assert (b = true ->
          q <> copy_target
                 (rewritten (episodes_of d) (episodes_backup_of d) b c_e new_e w)
                 (tasks_of d) (tasks_backup_of d)) as H4.
  { intros [_ ?]%Hb. by rewrite tasks_target_between. }
  unfold rewritten at 1. cbn [nodes].
  rewrite lookup_insert_ne by done.
  assert (nodes (rewritten (episodes_of d) (episodes_backup_of d) b c_e new_e w) !! q
          = nodes w !! q) as Hq.
  { unfold rewritten. cbn [nodes]. rewrite lookup_insert_ne by done.
    destruct b; [|done]. rewrite lookup_insert_ne; [done|].
    by destruct (Hb eq_refl). }
  destruct b; [|done]. rewrite lookup_insert_ne; [done|].
  specialize (H4 eq_refl). done.
Qed.

Lemma after_run_trace :
  trace (after_run d b c_e new_e c_t new_t w)
  = trace w
      ++ Read (episodes_of d)
         :: (if b then [Copied (episodes_of d) (episodes_backup_of d)] else [])
      ++ Written (episodes_of d) new_e
         :: Read (tasks_of d)
         :: (if b then [Copied (tasks_of d) (tasks_backup_of d)] else [])
      ++ [Written (tasks_of d) new_t].
Proof using Type.
  unfold after_run, rewritten. cbn. rewrite <- !app_assoc. cbn.
  by rewrite <- !app_assoc.
Qed.

Lemma after_run_first_missing :
  first_missing w d = None ->
  first_missing (after_run d b c_e new_e c_t new_t w) d = None.
Proof using Type. intros H. by do 2 apply rewritten_first_missing. Qed.

End After.

Section AfterBackup.

Variables (d : path) (c_e new_e c_t new_t : string) (w : world).

Lemma after_run_episodes_copy :
  nodes (after_run d true c_e new_e c_t new_t w)
    !! copy_target w (episodes_of d) (episodes_backup_of d) = Some (File c_e).
Proof using Type.
  unfold after_run.
  rewrite rewritten_lookup_other;
    [|distinct_paths | rewrite tasks_target_between; distinct_paths].
  apply rewritten_lookup_backup. distinct_paths.
Qed.

Lemma after_run_tasks_copy :
  nodes (after_run d true c_e new_e c_t new_t w)
    !! copy_target w (tasks_of d) (tasks_backup_of d) = Some (File c_t).
Proof using Type.
  unfold after_run.
  rewrite <- (tasks_target_between d true c_e new_e w).
  apply rewritten_lookup_backup. distinct_paths.
Qed.

(** A second run puts its copies where the first did. *)
Lemma after_run_episodes_target :
  copy_target (after_run d true c_e new_e c_t new_t w)
    (episodes_of d) (episodes_backup_of d)
  = copy_target w (episodes_of d) (episodes_backup_of d).
Proof using Type.
  pose proof after_run_episodes_copy as Hcopy.
  destruct (episodes_target d w) as [[Hn Ht] | [Hd Ht]].
  - rewrite Ht in *. apply copy_target_file. congruence.
  - apply copy_target_lookup. apply after_run_other; [distinct_paths..|].
    intros _. split; [rewrite Ht|]; distinct_paths.
Qed.

Lemma after_run_tasks_target :
  copy_target (after_run d true c_e new_e c_t new_t w)
    (tasks_of d) (tasks_backup_of d)
  = copy_target w (tasks_of d) (tasks_backup_of d).
Proof using Type.
  pose proof after_run_tasks_copy as Hcopy.
  destruct (tasks_target d w) as [[Hn Ht] | [Hd Ht]].
  - rewrite Ht in *. apply copy_target_file. congruence.
  - apply copy_target_lookup. apply after_run_other; [distinct_paths..|].
    intros _. split; [|rewrite Ht]; distinct_paths.
Qed.

End AfterBackup.

Section WholeRun.

Variable literal_eval : string -> outcome pyobj.
Variables (d : path) (new_tasks : task_arg) (b : bool) (w : world).

Lemma change_ok parsed_tasks c_e rs_e c_t rs_t :
  first_missing w d = None ->
  resolved literal_eval new_tasks = Ok parsed_tasks ->
  nodes w !! episodes_of d = Some (File c_e) ->
  read_episodes parsed_tasks (readlines c_e) = Ok rs_e ->
  nodes w !! tasks_of d = Some (File c_t) ->
  read_tasks parsed_tasks (readlines c_t) = Ok rs_t ->
  (b = true ->
   nodes w !! copy_target w (episodes_of d) (episodes_backup_of d) <> Some Dir
   /\ nodes w !! copy_target w (tasks_of d) (tasks_backup_of d) <> Some Dir) ->
  change_task_description literal_eval d new_tasks b w
    = (after_run d b c_e (write_records rs_e) c_t (write_records rs_t) w, Ok ()).
Proof using Type.
  intros Hm Ht He Hre Hk Hrk Hb.
  rewrite change_none_missing by done.
  erewrite bind_run_Ok; [|unfold lift; by rewrite Ht].
  erewrite bind_run_Ok.
  2:{ rewrite update_episodes_jsonl_shape.
      apply rewrite_with_ok with (bp := episodes_backup_of d);
        [apply with_suffix_episodes | done | done | by intros [? ?]%Hb]. }
  rewrite update_tasks_jsonl_shape. unfold after_run.
  apply rewrite_with_ok with (bp := tasks_backup_of d);
    [apply with_suffix_tasks | | done | ].
  - rewrite rewritten_lookup_other by distinct_paths. done.
  - intros [_ Hd]%Hb. rewrite tasks_target_between.
    rewrite rewritten_lookup_other by distinct_paths. done.
Qed.

Lemma change_ok_inv w' :
  change_task_description literal_eval d new_tasks b w = (w', Ok ()) ->
  exists parsed_tasks c_e rs_e c_t rs_t,
    first_missing w d = None
    /\ resolved literal_eval new_tasks = Ok parsed_tasks
    /\ nodes w !! episodes_of d = Some (File c_e)
    /\ read_episodes parsed_tasks (readlines c_e) = Ok rs_e
    /\ nodes w !! tasks_of d = Some (File c_t)
    /\ read_tasks parsed_tasks (readlines c_t) = Ok rs_t
    /\ (b = true ->
        nodes w !! copy_target w (episodes_of d) (episodes_backup_of d) <> Some Dir
        /\ nodes w !! copy_target w (tasks_of d) (tasks_backup_of d) <> Some Dir)
    /\ w' = after_run d b c_e (write_records rs_e) c_t (write_records rs_t) w.
Proof using Type.
  intros (parsed_tasks & w1 & Hm & Ht & He & Hk)%change_inv.
  rewrite update_episodes_jsonl_shape in He.
  apply (rewrite_with_ok_inv _ _ _ _ _ (with_suffix_episodes d)) in He
    as (c_e & rs_e & He & Hre & Hbe & ->).
  rewrite update_tasks_jsonl_shape in Hk.
  apply (rewrite_with_ok_inv _ _ _ _ _ (with_suffix_tasks d)) in Hk
    as (c_t & rs_t & Hk & Hrk & Hbk & ->).
  rewrite rewritten_lookup_other in Hk by distinct_paths.
  exists parsed_tasks, c_e, rs_e, c_t, rs_t.
  repeat (split; [done|]). split; [|done].
  intros Hb. split; [auto|]. specialize (Hbk Hb).
  rewrite tasks_target_between in Hbk.
  by rewrite rewritten_lookup_other in Hbk by distinct_paths.
Qed.

End WholeRun.

End WholeRun.

Import RunFacts OrchestratorFacts PathFacts RewriteTwice DatasetFacts BackupName WholeRun.




(** C10.  A run that succeeds can be made again on its own result, with the
    same tasks and the same flag: it succeeds and leaves in the episodes
    file and in the tasks file what the first run left there; without
    backups it leaves every file as the first run left it. *)
Theorem change_task_description_idempotent (literal_eval : string -> outcome pyobj)
    (dataset_path : path) (new_tasks : task_arg) (create_backup : bool)
    (w w1 : world) :
  change_task_description literal_eval dataset_path new_tasks create_backup w
    = (w1, Ok ()) ->
  exists w2,
    change_task_description literal_eval dataset_path new_tasks create_backup w1
      = (w2, Ok ())
    /\ nodes w2 !! episodes_of dataset_path = nodes w1 !! episodes_of dataset_path
    /\ nodes w2 !! tasks_of dataset_path = nodes w1 !! tasks_of dataset_path
    /\ (create_backup = false -> nodes w2 = nodes w1).
Proof.
  intros (T & c_e & rs_e & c_t & rs_t & Hm & HT & He & Hre & Hk & Hrk & Hb & ->)%change_ok_inv.
  set (w1 := after_run dataset_path create_backup c_e (write_records rs_e)
               c_t (write_records rs_t) w).
  assert (nodes w1 !! episodes_of dataset_path = Some (File (write_records rs_e))) as He1
    by apply after_run_episodes.
  assert (nodes w1 !! tasks_of dataset_path = Some (File (write_records rs_t))) as Hk1
    by apply after_run_tasks.
  eexists. split.
  - apply change_ok with (parsed_tasks := T) (c_e := write_records rs_e) (rs_e := rs_e)
                         (c_t := write_records rs_t) (rs_t := rs_t).
    + by apply after_run_first_missing.
    + done.
    + done.
    + by eapply read_episodes_again.
    + done.
    + by eapply read_tasks_again.
    + intros ->. unfold w1.
      rewrite after_run_episodes_target, after_run_tasks_target.
      by rewrite after_run_episodes_copy, after_run_tasks_copy.
  - split; [|split].
    + by rewrite after_run_episodes.
    + by rewrite after_run_tasks.
    + intros ->. unfold after_run. rewrite rewritten_same.
      * by apply rewritten_same.
      * rewrite rewritten_lookup_other by distinct_paths. done.
Qed.

Lemma change_task_description_idempotent_witness :
  exists w2,
    change_task_description sample_eval sample_dataset (TaskList ["Pick"; "Place"]) true
      (main sample_eval sample_dataset "['Pick','Place']" true scenario_world).1
      = (w2, Ok ())
    /\ nodes w2 !! episodes_of sample_dataset
       = nodes (main sample_eval sample_dataset "['Pick','Place']" true scenario_world).1
           !! episodes_of sample_dataset
    /\ nodes w2 !! tasks_of sample_dataset
       = nodes (main sample_eval sample_dataset "['Pick','Place']" true scenario_world).1
           !! tasks_of sample_dataset
    /\ (true = false ->
        nodes w2
        = nodes (main sample_eval sample_dataset "['Pick','Place']" true scenario_world).1).
Proof.
  apply (change_task_description_idempotent sample_eval sample_dataset
           (TaskList ["Pick"; "Place"]) true scenario_world).
  vm_compute. reflexivity.
Defined.

Import LoadsFacts RewriterFacts RunFacts OrchestratorFacts PathFacts PartialFacts
  RewriteTwice DatasetFacts BackupName WholeRun.

(** C4.  The episodes file is rewritten before the tasks file, and each
    file is read to its end before it is written: a rewrite that does not
    succeed leaves every file as it was.  When the episodes file is
    rewritten and a line of the tasks file then fails to decode, the run
    stops with that error; the episodes file holds the new records, the
    tasks file is as it was and no backup of it was made. *)
Theorem episodes_rewritten_before_tasks (literal_eval : string -> outcome pyobj)
    (dataset_path : path) (new_tasks : task_arg) (create_backup : bool) (w : world) :
  (forall p parsed_tasks w0 w' o,
      update_episodes_jsonl p parsed_tasks create_backup w0 = (w', o)
      \/ update_tasks_jsonl p parsed_tasks create_backup w0 = (w', o) ->
      o <> Ok () -> nodes w' = nodes w0)
  /\ (forall w',
        change_task_description literal_eval dataset_path new_tasks create_backup w
          = (w', Ok ()) ->
        exists new_e new_t,
          trace w' = trace w
            ++ Read (episodes_of dataset_path)
               :: (if create_backup
                   then [Copied (episodes_of dataset_path) (episodes_backup_of dataset_path)]
                   else [])
            ++ Written (episodes_of dataset_path) new_e
               :: Read (tasks_of dataset_path)
               :: (if create_backup
                   then [Copied (tasks_of dataset_path) (tasks_backup_of dataset_path)]
                   else [])
            ++ [Written (tasks_of dataset_path) new_t])
  /\ (forall parsed_tasks c_e ds_e c_t good bad rest ds_good e,
        first_missing w dataset_path = None ->
        resolved literal_eval new_tasks = Ok parsed_tasks ->
        nodes w !! episodes_of dataset_path = Some (File c_e) ->
        load_lines (readlines c_e) = Ok (JObj <$> ds_e) ->
        (create_backup = true ->
         nodes w !! episodes_backup_of dataset_path <> Some Dir) ->
        nodes w !! tasks_of dataset_path = Some (File c_t) ->
        readlines c_t = good ++ bad :: rest ->
        load_lines (List.filter nonblank good) = Ok (JObj <$> ds_good) ->
        nonblank bad = true ->
        Json.loads (Str.strip bad) = Raise e ->
        exists w' new_e,
          change_task_description literal_eval dataset_path new_tasks create_backup w
            = (w', Raise e)
          /\ nodes w' !! episodes_of dataset_path = Some (File new_e)
          /\ load_lines (readlines new_e)
             = Ok (JObj <$> (dict_set "tasks" (JArr (JStr <$> parsed_tasks)) <$> ds_e))
          /\ nodes w' !! tasks_of dataset_path = Some (File c_t)
          /\ nodes w' !! tasks_backup_of dataset_path
             = nodes w !! tasks_backup_of dataset_path
          /\ trace w' = trace w
               ++ Read (episodes_of dataset_path)
                  :: (if create_backup
                      then [Copied (episodes_of dataset_path)
                              (episodes_backup_of dataset_path)]
                      else [])
               ++ [Written (episodes_of dataset_path) new_e;
                   Read (tasks_of dataset_path)]
          /\ (forall s, new_tasks = RawText s ->
                main literal_eval dataset_path s create_backup w
                  = (w', Some (Failure e))
                /\ exit_code (Failure e) = 1%Z)).
Proof.
  split; [|split].
  - intros p T w0 w' o [Hrun|Hrun] Ho.
    + rewrite update_episodes_jsonl_shape in Hrun. by eapply rewrite_with_failure.
    + rewrite update_tasks_jsonl_shape in Hrun. by eapply rewrite_with_failure.
  - intros w' (T & c_e & rs_e & c_t & rs_t & _ & _ & _ & _ & _ & _ & _ & ->)%change_ok_inv.
    exists (write_records rs_e), (write_records rs_t). apply after_run_trace.
  - intros T c_e ds_e c_t good bad rest ds_good e Hm HT He Hle Hb Hk Hlines Hgood Hbad Hloads.
    pose proof (read_episodes_objects T _ _ Hle) as Hre.
    pose proof (read_tasks_stops T good bad rest ds_good e Hgood Hbad Hloads) as Hrk.
    rewrite <- Hlines in Hrk.
    set (new_e := write_records
                    (JObj <$> (dict_set "tasks" (JArr (JStr <$> T)) <$> ds_e))) in *.
    set (w0 := rewritten (episodes_of dataset_path) (episodes_backup_of dataset_path)
                 create_backup c_e new_e w).
    assert (create_backup = true ->
            copy_target w (episodes_of dataset_path) (episodes_backup_of dataset_path)
            = episodes_backup_of dataset_path) as Hte.
    { intros Hflag. by apply copy_target_file, Hb. }
    assert (forall q,
              q <> episodes_of dataset_path ->
              q <> episodes_backup_of dataset_path ->
              nodes w0 !! q = nodes w !! q) as Hother.
    { intros q H1 H2. unfold w0, rewritten. cbn [nodes].
      rewrite lookup_insert_ne by done. destruct create_backup; [|done].
      rewrite Hte by done. by rewrite lookup_insert_ne. }
    assert (nodes w0 !! tasks_of dataset_path = Some (File c_t)) as Hk0.
    { rewrite Hother; [done | distinct_paths..]. }
    assert (change_task_description literal_eval dataset_path new_tasks create_backup w
            = (World (nodes w0) (trace w0 ++ [Read (tasks_of dataset_path)]), Raise e))
      as Hrun.
    { rewrite change_none_missing by done.
      erewrite bind_run_Ok; [|unfold lift; by rewrite HT].
      erewrite bind_run_Ok.
      2:{ rewrite update_episodes_jsonl_shape.
          apply rewrite_with_ok with (bp := episodes_backup_of dataset_path);
            [apply with_suffix_episodes | done | done |].
          intros Hflag. rewrite Hte by done. by apply Hb. }
      fold w0. rewrite update_tasks_jsonl_shape.
      rewrite (rewrite_with_read_failure _ _ _ _ c_t) by (done || congruence).
      by rewrite Hrk. }
    exists (World (nodes w0) (trace w0 ++ [Read (tasks_of dataset_path)])), new_e.
    split; [done|]. cbn [nodes trace].
    split; [apply rewritten_lookup|].
    split.
    { apply load_written, keys_once_set_all;
        [apply keys_once_tasks | by eapply load_lines_keys_once]. }
    split; [done|].
    split; [apply Hother; distinct_paths|].
    split.
    { unfold w0, rewritten. cbn. rewrite <- !app_assoc. cbn. by rewrite <- !app_assoc. }
    intros s ->. split; [by apply main_failure | done].
Qed.

Lemma episodes_rewritten_before_tasks_witness :
  exists w' new_e,
    change_task_description sample_eval sample_dataset (RawText "new") false
      broken_tasks_world = (w', Raise JSONDecodeError)
    /\ nodes w' !! episodes_of sample_dataset = Some (File new_e)
    /\ load_lines (readlines new_e)
       = Ok (JObj <$> (dict_set "tasks" (JArr (JStr <$> ["new"]))
                         <$> [[("episode_index", JInt 0); ("tasks", JArr [JStr "old"])]]))
    /\ nodes w' !! tasks_of sample_dataset
       = Some (File (text "{'task_index':0,'task':'old'}|{oops|"))
    /\ nodes w' !! tasks_backup_of sample_dataset
       = nodes broken_tasks_world !! tasks_backup_of sample_dataset
    /\ trace w' = trace broken_tasks_world
         ++ Read (episodes_of sample_dataset)
            :: (if false
                then [Copied (episodes_of sample_dataset)
                        (episodes_backup_of sample_dataset)]
                else [])
         ++ [Written (episodes_of sample_dataset) new_e;
             Read (tasks_of sample_dataset)]
    /\ (forall s, RawText "new" = RawText s ->
          main sample_eval sample_dataset s false broken_tasks_world
            = (w', Some (Failure JSONDecodeError))
          /\ exit_code (Failure JSONDecodeError) = 1%Z).
Proof.
  apply (proj2 (proj2 (episodes_rewritten_before_tasks sample_eval sample_dataset
                         (RawText "new") false broken_tasks_world))
           ["new"]
           (text "{'episode_index':0,'tasks':['old']}|")
           [[("episode_index", JInt 0); ("tasks", JArr [JStr "old"])]]
           (text "{'task_index':0,'task':'old'}|{oops|")
           [text "{'task_index':0,'task':'old'}|"]
           (text "{oops|") []
           [[("task_index", JInt 0); ("task", JStr "old")]]
           JSONDecodeError);
    try (vm_compute; reflexivity).
  discriminate.
Defined.

(** * More on the task-input parser *)

Module ParserMore.

Lemma list_of_str_strings (tasks : list string) :
  list_of_str (PyList (PyStr <$> tasks)) = Some tasks.
Proof.
  cbn. induction tasks as [|t tasks IH]; [done|]. cbn. by rewrite IH.
Qed.

Lemma split_no_separator (c : ascii) (s : string) :
  Forall (fun p => Str.contains c p = false) (Str.split c s).
Proof.
  induction s as [|a s IH]; [by repeat constructor|].
  rewrite StrFacts.split_String. destruct (Ascii.eqb a c) eqn:Hac.
  - by constructor.
  - destruct IH as [|p ps Hp Hps]; repeat constructor; cbn; rewrite ?Hac; done.
Qed.

Lemma contains_false_strip (c : ascii) (s : string) :
  Str.is_space c = false -> Str.contains c s = false ->
  Str.contains c (Str.strip s) = false.
Proof. intros Hc Hs. by rewrite StrFacts.contains_strip. Qed.

Lemma literal_attempt_caught (literal_eval : string -> outcome pyobj) (t : string) :
  literal_eval t = Raise ValueError
  \/ literal_eval t = Raise SyntaxError
  \/ (exists v, literal_eval t = Ok v /\ list_of_str v = None) ->
  literal_attempt literal_eval t = Ok None.
Proof.
  intros H. unfold literal_attempt.
  destruct (Str.startswith "[" t && Str.endswith "]" t); [|done].
  destruct H as [-> | [-> | (v & -> & ->)]]; done.
Qed.

End ParserMore.

Import ParserMore.

(** X1.  An argument without a comma that is not wrapped in brackets is one
    task: the argument, trimmed.  The evaluator is not consulted. *)
Theorem parse_task_input_single (literal_eval : string -> outcome pyobj) (s : string) :
  Str.contains "," s = false ->
  Str.startswith "[" (Str.strip s) && Str.endswith "]" (Str.strip s) = false ->
  parse_task_input literal_eval s = Ok [Str.strip s].
Proof.
  intros Hc Hb. rewrite parse_task_input_fall_through, Hc; [done|].
  unfold literal_attempt. by rewrite Hb.
Qed.

Lemma parse_task_input_single_witness :
  parse_task_input sample_eval "  Pick up the red cube " = Ok ["Pick up the red cube"].
Proof.
  exact (parse_task_input_single sample_eval "  Pick up the red cube " eq_refl eq_refl).
Defined.

(** X2.  An argument that, trimmed, is wrapped in brackets and evaluates
    to a list of strings is answered by that list as it is: order,
    duplicates, inner white space and empty strings are kept. *)
Theorem parse_task_input_list_literal (literal_eval : string -> outcome pyobj)
    (s : string) (tasks : list string) :
  Str.startswith "[" (Str.strip s) = true ->
  Str.endswith "]" (Str.strip s) = true ->
  literal_eval (Str.strip s) = Ok (PyList (PyStr <$> tasks)) ->
  parse_task_input literal_eval s = Ok tasks.
Proof.
  intros H1 H2 He. unfold parse_task_input, literal_attempt.
  by rewrite H1, H2, He, list_of_str_strings.
Qed.

Lemma parse_task_input_list_literal_witness :
  parse_task_input sample_eval " ['', 'a'] " = Ok [""; "a"].
Proof.
  exact (parse_task_input_list_literal sample_eval " ['', 'a'] " [""; "a"]
           eq_refl eq_refl eq_refl).
Defined.

(** X3.  When the attempt at a list literal falls through, every task
    returned is trimmed and holds no comma. *)
Theorem parse_task_input_trimmed (literal_eval : string -> outcome pyobj)
    (s : string) (tasks : list string) :
  literal_attempt literal_eval (Str.strip s) = Ok None ->
  parse_task_input literal_eval s = Ok tasks ->
  Forall (fun task => Str.strip task = task /\ Str.contains "," task = false) tasks.
Proof.
  intros Hl. rewrite parse_task_input_fall_through by done.
  destruct (Str.contains "," s) eqn:Hc; intros [= <-].
  - apply Forall_forall. intros task [Hin _]%list_elem_of_In%List.filter_In.
    apply list_elem_of_In, list_elem_of_fmap in Hin as (piece & -> & Hin).
    split; [apply StrFacts.strip_idem|].
    apply contains_false_strip; [done|].
    by eapply Forall_forall in Hin; [|apply split_no_separator].
  - repeat constructor; [apply StrFacts.strip_idem|].
    by apply contains_false_strip.
Qed.

Lemma parse_task_input_trimmed_witness :
  Forall (fun task => Str.strip task = task /\ Str.contains "," task = false)
    ["Pick"; "Place cube"].
Proof.
  exact (parse_task_input_trimmed sample_eval " Pick ,, Place cube , "
           ["Pick"; "Place cube"] eq_refl eq_refl).
Defined.

(** X4.  White space around the argument does not count: the argument and
    the argument trimmed are parsed alike. *)
Theorem parse_task_input_strip (literal_eval : string -> outcome pyobj) (s : string) :
  parse_task_input literal_eval (Str.strip s) = parse_task_input literal_eval s.
Proof. unfold parse_task_input. by rewrite StrFacts.strip_idem. Qed.

(** X5.  A bracketed argument that the evaluator rejects with [ValueError]
    or [SyntaxError], or that evaluates to something other than a list of
    strings, is handled by the next rules: cut at its commas if it has
    any, brackets included, and taken whole otherwise. *)
Theorem parse_task_input_malformed_literal (literal_eval : string -> outcome pyobj)
    (s : string) :
  literal_eval (Str.strip s) = Raise ValueError
  \/ literal_eval (Str.strip s) = Raise SyntaxError
  \/ (exists v, literal_eval (Str.strip s) = Ok v /\ list_of_str v = None) ->
  parse_task_input literal_eval s =
    if Str.contains "," s
    then Ok (List.filter Str.nonempty (Str.strip <$> Str.split "," s))
    else Ok [Str.strip s].
Proof.
  intros H. apply parse_task_input_fall_through. by apply literal_attempt_caught.
Qed.

Lemma parse_task_input_malformed_literal_witness :
  parse_task_input sample_eval "[1,2]" = Ok ["[1"; "2]"].
Proof.
  apply (parse_task_input_malformed_literal sample_eval "[1,2]").
  right. right. by exists (PyList [PyOther; PyOther]).
Defined.

(** X6.  An exception of the evaluator other than [ValueError] and
    [SyntaxError], on an argument wrapped in brackets, is not caught: the
    parser raises it. *)
Theorem parse_task_input_uncaught (literal_eval : string -> outcome pyobj)
    (s : string) (e : exn) :
  Str.startswith "[" (Str.strip s) = true ->
  Str.endswith "]" (Str.strip s) = true ->
  literal_eval (Str.strip s) = Raise e ->
  e <> ValueError -> e <> SyntaxError ->
  parse_task_input literal_eval s = Raise e.
Proof.
  intros H1 H2 He Hv Hs. unfold parse_task_input, literal_attempt.
  rewrite H1, H2, He. by destruct e.
Qed.

Lemma parse_task_input_uncaught_witness :
  parse_task_input sample_eval "[{[]: 1}, 2]" = Raise TypeError.
Proof.
  by apply (parse_task_input_uncaught sample_eval "[{[]: 1}, 2]" TypeError).
Defined.

(** * More on the record rewriter *)

Module RewriterMore.
Import JsonFacts LoadsFacts LineFacts RewriterFacts RunFacts.

(** ** Lines that stop a read loop *)

Lemma read_episodes_stops (new_tasks : list string) (good : list string)
    (bad : string) (rest : list string) (ds : list (list (string * json)))
    (e : exn) :
  load_lines good = Ok (JObj <$> ds) ->
  Json.loads (Str.strip bad) = Raise e
  \/ (exists v, Json.loads (Str.strip bad) = Ok v
                /\ not_object v = true /\ e = TypeError) ->
  read_episodes new_tasks (good ++ bad :: rest) = Raise e.
Proof.
  intros Hg Hb. revert ds Hg.
  induction good as [|line good IH]; intros ds Hg; cbn [app read_episodes].
  - destruct Hb as [-> | (v & -> & Hv & ->)]; [done|]. by destruct v.
  - cbn [load_lines] in Hg.
    apply bind_Ok in Hg as (v & Hv & Hg). apply bind_Ok in Hg as (vs & Hvs & Hg).
    destruct ds as [|d ds]; [done|]. cbn [fmap list_fmap] in Hg. simplify_eq.
    rewrite Hv. cbn. by rewrite (IH ds).
Qed.

Lemma read_tasks_not_object (new_tasks : list string) (good : list string)
    (bad : string) (rest : list string) (ds : list (list (string * json)))
    (v : json) :
  load_lines (List.filter nonblank good) = Ok (JObj <$> ds) ->
  nonblank bad = true ->
  Json.loads (Str.strip bad) = Ok v ->
  not_object v = true ->
  read_tasks new_tasks (good ++ bad :: rest) = Raise TypeError.
Proof.
  intros Hg Hb He Hv. revert ds Hg.
  induction good as [|line good IH]; intros ds Hg; cbn [app read_tasks]; cbv zeta.
  - fold (nonblank bad). rewrite Hb, He. by destruct v.
  - cbn [List.filter] in Hg. fold (nonblank line).
    destruct (nonblank line); [|by eapply IH].
    cbn [load_lines] in Hg.
    apply bind_Ok in Hg as (v' & Hv' & Hg). apply bind_Ok in Hg as (vs & Hvs & Hg).
    destruct ds as [|d ds]; [done|]. cbn [fmap list_fmap] in Hg. simplify_eq.
    rewrite Hv'. cbn. by rewrite (IH ds).
Qed.

Lemma rewrite_with_raises read_loop p w b content e :
  nodes w !! p = Some (File content) ->
  read_loop (readlines content) = Raise e ->
  rewrite_with read_loop p b w = (World (nodes w) (trace w ++ [Read p]), Raise e).
Proof.
  intros Hp Hr. rewrite (rewrite_with_read_failure _ _ _ _ content) by congruence.
  by rewrite Hr.
Qed.

(** ** The text written *)

Lemma printable_record_char (s : string) :
  all_chars Json.printable s = true -> all_chars record_char s = true.
Proof.
  induction s as [|c s IH]; [done|]. cbn.
  intros [Hc Hs]%andb_true_iff. unfold record_char at 1. by rewrite Hc, IH.
Qed.

Lemma write_records_chars (records : list json) :
  all_chars record_char (write_records records) = true.
Proof.
  induction records as [|r records IH]; [done|]. cbn [write_records].
  rewrite !all_chars_app, IH, printable_record_char by apply dumps_printable.
  done.
Qed.

Lemma read_episodes_length (new_tasks : list string) (lines : list string)
    (records : list json) :
  read_episodes new_tasks lines = Ok records -> length records = length lines.
Proof.
  revert records. induction lines as [|line lines IH]; intros records H;
    cbn [read_episodes] in H.
  - by simplify_eq.
  - apply bind_Ok in H as (v & _ & H). apply bind_Ok in H as (v' & _ & H).
    apply bind_Ok in H as (vs & Hvs & H). simplify_eq. cbn. by rewrite (IH vs).
Qed.

Lemma read_tasks_length (new_tasks : list string) (lines : list string)
    (records : list json) :
  read_tasks new_tasks lines = Ok records ->
  length records = length (List.filter nonblank lines).
Proof.
  revert records. induction lines as [|line lines IH]; intros records H;
    cbn [read_tasks] in H.
  - by simplify_eq.
  - cbn [List.filter]. cbv zeta in H. fold (nonblank line) in H.
    destruct (nonblank line); [|by apply IH].
    apply bind_Ok in H as (v & _ & H). apply bind_Ok in H as (v' & _ & H).
    apply bind_Ok in H as (vs & Hvs & H). simplify_eq. cbn. by rewrite (IH vs).
Qed.

Lemma written_length (records : list json) :
  length (readlines (write_records records)) = length records.
Proof. by rewrite readlines_write_records, length_fmap. Qed.

Lemma read_tasks_blank (new_tasks : list string) (lines : list string) :
  Forall (fun line => nonblank line = false) lines ->
  read_tasks new_tasks lines = Ok [].
Proof.
  induction 1 as [|line lines Hl _ IH]; [done|].
  cbn [read_tasks]. cbv zeta. fold (nonblank line). by rewrite Hl.
Qed.

(** ** What a rewrite leaves alone *)

Lemma rewrite_with_frame read_loop p b w w' o q :
  rewrite_with read_loop p b w = (w', o) ->
  q <> p ->
  (b = true ->
   forall bp, with_suffix p ".jsonl.backup" = Ok bp ->
              q <> bp /\ q <> joinpath bp (basename p)) ->
  nodes w' !! q = nodes w !! q.
Proof.
  intros H Hq Hb.
  destruct o as [[]| |];
    [|by erewrite rewrite_with_failure..].
  apply rewrite_with_inv in H as (content & records & _ & _ & H).
  destruct b.
  - destruct H as (bp & Hs & _ & ->). cbn.
    destruct (Hb eq_refl bp Hs) as [H1 H2].
    rewrite !lookup_insert_ne; [done| |done].
    by destruct (BackupName.copy_target_cases w p bp) as [-> | [_ ->]].
  - subst w'. cbn. by rewrite lookup_insert_ne.
Qed.

(** ** The keys of the records *)

Lemma keys_with_set (k : string) (v : json) (d : list (string * json)) :
  (dict_set k v d).*1 = keys_with k d.*1.
Proof. apply dict_set_keys. Qed.

Lemma keys_with_set_all (k : string) (v : json) (ds : list (list (string * json))) :
  Forall2 (fun d d' => d'.*1 = keys_with k d.*1) ds (dict_set k v <$> ds).
Proof.
  induction ds; constructor; [apply keys_with_set | done].
Qed.

End RewriterMore.

Import JsonFacts LoadsFacts LineFacts RewriterFacts RunFacts RewriterMore.

(** X7.  The episodes rewriter stops at the first line it cannot use: a
    line that does not decode raises the decoder's error, a line that
    decodes to something other than an object raises [TypeError] at the
    assignment of [tasks].  The file is read and nothing is copied or
    written. *)
Theorem update_episodes_jsonl_bad_line (w : world) (p : path) (content : string)
    (new_tasks : list string) (create_backup : bool)
    (good : list string) (bad : string) (rest : list string)
    (ds : list (list (string * json))) (e : exn) :
  nodes w !! p = Some (File content) ->
  readlines content = good ++ bad :: rest ->
  load_lines good = Ok (JObj <$> ds) ->
  Json.loads (Str.strip bad) = Raise e
  \/ (exists v, Json.loads (Str.strip bad) = Ok v
                /\ not_object v = true /\ e = TypeError) ->
  update_episodes_jsonl p new_tasks create_backup w
    = (World (nodes w) (trace w ++ [Read p]), Raise e).
Proof.
  intros Hp Hl Hg Hb. rewrite update_episodes_jsonl_shape.
  apply rewrite_with_raises with content; [done|].
  rewrite Hl. by eapply read_episodes_stops.
Qed.

Lemma update_episodes_jsonl_bad_line_witness :
  update_episodes_jsonl sample_episodes ["new"] true
    (sample_world "{'episode_index':0}|[1, 2]|" "")
  = (World (nodes (sample_world "{'episode_index':0}|[1, 2]|" ""))
       (trace (sample_world "{'episode_index':0}|[1, 2]|" "") ++ [Read sample_episodes]),
     Raise TypeError).
Proof.
  apply (update_episodes_jsonl_bad_line
           (sample_world "{'episode_index':0}|[1, 2]|" "") sample_episodes
           (text "{'episode_index':0}|[1, 2]|") ["new"] true
           [text "{'episode_index':0}|"] (text "[1, 2]|") []
           [[("episode_index", JInt 0)]] TypeError);
    try reflexivity.
  right. exists (JArr [JInt 1; JInt 2]). by vm_compute.
Defined.

(** X8.  In the tasks rewriter a non-blank line that decodes to something
    other than an object raises [TypeError] at the assignment of [task];
    the file is read and nothing is copied or written. *)
Theorem update_tasks_jsonl_not_object (w : world) (p : path) (content : string)
    (new_tasks : list string) (create_backup : bool)
    (good : list string) (bad : string) (rest : list string)
    (ds : list (list (string * json))) (v : json) :
  nodes w !! p = Some (File content) ->
  readlines content = good ++ bad :: rest ->
  load_lines (List.filter nonblank good) = Ok (JObj <$> ds) ->
  nonblank bad = true ->
  Json.loads (Str.strip bad) = Ok v ->
  not_object v = true ->
  update_tasks_jsonl p new_tasks create_backup w
    = (World (nodes w) (trace w ++ [Read p]), Raise TypeError).
Proof.
  intros Hp Hl Hg Hb He Hv. rewrite update_tasks_jsonl_shape.
  apply rewrite_with_raises with content; [done|].
  rewrite Hl. by eapply read_tasks_not_object.
Qed.

Lemma update_tasks_jsonl_not_object_witness :
  update_tasks_jsonl sample_tasks ["new"] false (sample_world "" "|'old'|")
  = (World (nodes (sample_world "" "|'old'|"))
       (trace (sample_world "" "|'old'|") ++ [Read sample_tasks]),
     Raise TypeError).
Proof.
  apply (update_tasks_jsonl_not_object (sample_world "" "|'old'|") sample_tasks
           (text "|'old'|") ["new"] false [text "|"] (text "'old'|") [] []
           (JStr "old"));
    reflexivity.
Defined.

(** X9.  The file a rewriter writes holds printable ASCII characters and
    line feeds only: [json.dumps] escapes every other character. *)
Theorem rewritten_file_is_ascii (w w' : world) (p : path) (new_tasks : list string)
    (create_backup : bool) :
  update_episodes_jsonl p new_tasks create_backup w = (w', Ok ())
  \/ update_tasks_jsonl p new_tasks create_backup w = (w', Ok ()) ->
  exists new, nodes w' !! p = Some (File new) /\ all_chars record_char new = true.
Proof.
  intros H.
  assert (exists read_loop, rewrite_with read_loop p create_backup w = (w', Ok ()))
    as (read_loop & Hrun).
  { destruct H as [H|H]; eauto. }
  apply rewrite_with_inv in Hrun as (content & records & _ & _ & Hw).
  exists (write_records records). split; [|apply write_records_chars].
  destruct create_backup; [destruct Hw as (bp & _ & _ & ->) | subst w']; cbn;
    apply lookup_insert_eq.
Qed.

Lemma rewritten_file_is_ascii_witness :
  exists new,
    nodes (update_tasks_jsonl sample_tasks [String "233" "t" ] false scenario_world).1
      !! sample_tasks = Some (File new)
    /\ all_chars record_char new = true.
Proof.
  apply (rewritten_file_is_ascii scenario_world _ sample_tasks [String "233" "t"] false).
  right. vm_compute. reflexivity.
Defined.

(** X10.  A rewrite keeps the count of lines: the episodes file gets as
    many lines as it had, the tasks file as many as it had that were not
    blank. *)
Theorem rewritten_line_count (w w' : world) (p : path) (new_tasks : list string)
    (create_backup : bool) :
  (update_episodes_jsonl p new_tasks create_backup w = (w', Ok ()) ->
   exists old new,
     nodes w !! p = Some (File old) /\ nodes w' !! p = Some (File new)
     /\ length (readlines new) = length (readlines old))
  /\ (update_tasks_jsonl p new_tasks create_backup w = (w', Ok ()) ->
      exists old new,
        nodes w !! p = Some (File old) /\ nodes w' !! p = Some (File new)
        /\ length (readlines new) = length (List.filter nonblank (readlines old))).
Proof.
  split; intros H.
  - rewrite update_episodes_jsonl_shape in H.
    apply rewrite_with_inv in H as (content & records & Hp & Hr & Hw).
    exists content, (write_records records). split; [done|]. split.
    + destruct create_backup; [destruct Hw as (bp & _ & _ & ->) | subst w']; cbn;
        apply lookup_insert_eq.
    + rewrite written_length. by eapply read_episodes_length.
  - rewrite update_tasks_jsonl_shape in H.
    apply rewrite_with_inv in H as (content & records & Hp & Hr & Hw).
    exists content, (write_records records). split; [done|]. split.
    + destruct create_backup; [destruct Hw as (bp & _ & _ & ->) | subst w']; cbn;
        apply lookup_insert_eq.
    + rewrite written_length. by eapply read_tasks_length.
Qed.

Lemma rewritten_line_count_witness :
  exists old new,
    nodes blank_line_world !! sample_tasks = Some (File old)
    /\ nodes (update_tasks_jsonl sample_tasks ["new"] false blank_line_world).1
         !! sample_tasks = Some (File new)
    /\ length (readlines new) = length (List.filter nonblank (readlines old)).
Proof.
  apply (proj2 (rewritten_line_count blank_line_world _ sample_tasks ["new"] false)).
  vm_compute. reflexivity.
Defined.

(** X11.  A rewriter that ends in success or with an exception has changed
    no path but its file and, with the backup flag, the place of the copy:
    the backup path or, when that is a directory, the entry in it named
    after the file. *)
Theorem rewriter_touches_nothing_else (w w' : world) (p q : path)
    (new_tasks : list string) (create_backup : bool) (o : outcome ()) :
  update_episodes_jsonl p new_tasks create_backup w = (w', o)
  \/ update_tasks_jsonl p new_tasks create_backup w = (w', o) ->
  o <> Unmodelled ->
  q <> p ->
  (create_backup = true ->
   forall bp, with_suffix p ".jsonl.backup" = Ok bp ->
              q <> bp /\ q <> joinpath bp (basename p)) ->
  nodes w' !! q = nodes w !! q.
Proof.
  intros [H|H] _ Hq Hb.
  - rewrite update_episodes_jsonl_shape in H. by eapply rewrite_with_frame.
  - rewrite update_tasks_jsonl_shape in H. by eapply rewrite_with_frame.
Qed.

Lemma rewriter_touches_nothing_else_witness :
  nodes (update_episodes_jsonl sample_episodes ["new"] true backup_dir_world).1
    !! sample_tasks
  = nodes backup_dir_world !! sample_tasks.
Proof.
  apply (rewriter_touches_nothing_else backup_dir_world _ sample_episodes sample_tasks
           ["new"] true
           (update_episodes_jsonl sample_episodes ["new"] true backup_dir_world).2).
  - left. by destruct (update_episodes_jsonl _ _ _ _).
  - vm_compute. discriminate.
  - discriminate.
  - intros _ bp [= <-]. split; vm_compute; discriminate.
Defined.

(** X12.  The episodes rewriter keeps the fields of each record in their
    order: [tasks] stays where it was, and comes last in a record that
    did not have it. *)
Theorem update_episodes_jsonl_keeps_order (w : world) (p : path) (content : string)
    (ds : list (list (string * json))) (new_tasks : list string) :
  nodes w !! p = Some (File content) ->
  load_lines (readlines content) = Ok (JObj <$> ds) ->
  exists new ds',
    nodes (update_episodes_jsonl p new_tasks false w).1 !! p = Some (File new)
    /\ load_lines (readlines new) = Ok (JObj <$> ds')
    /\ Forall2 (fun d d' => d'.*1 = keys_with "tasks" d.*1) ds ds'.
Proof.
  intros Hp Hl.
  pose proof (read_episodes_objects new_tasks _ _ Hl) as Hr.
  exists (write_records (JObj <$> (dict_set "tasks" (JArr (JStr <$> new_tasks)) <$> ds))),
    (dict_set "tasks" (JArr (JStr <$> new_tasks)) <$> ds).
  rewrite update_episodes_jsonl_shape, (rewrite_with_plain _ _ _ content _ Hp Hr).
  split; [apply lookup_insert_eq|]. split; [|apply keys_with_set_all].
  apply load_written, keys_once_set_all;
    [apply keys_once_tasks | by eapply load_lines_keys_once].
Qed.

Lemma update_episodes_jsonl_keeps_order_witness :
  exists new ds',
    nodes (update_episodes_jsonl sample_episodes ["new"] false
             (sample_world "{'tasks':['old'],'length':3}|{'length':4}|" "")).1
      !! sample_episodes = Some (File new)
    /\ load_lines (readlines new) = Ok (JObj <$> ds')
    /\ Forall2 (fun d d' => d'.*1 = keys_with "tasks" d.*1)
         [[("tasks", JArr [JStr "old"]); ("length", JInt 3)]; [("length", JInt 4)]]
         ds'.
Proof.
  apply (update_episodes_jsonl_keeps_order
           (sample_world "{'tasks':['old'],'length':3}|{'length':4}|" "")
           sample_episodes (text "{'tasks':['old'],'length':3}|{'length':4}|")
           [[("tasks", JArr [JStr "old"]); ("length", JInt 3)]; [("length", JInt 4)]]
           ["new"]);
    reflexivity.
Defined.

(** X13.  A rewriter given a path that is not a file, a directory or
    nothing at all, raises the error of [open] and changes nothing. *)
Theorem rewriter_needs_a_file (w : world) (p : path) (new_tasks : list string)
    (create_backup : bool) :
  (forall content, nodes w !! p <> Some (File content)) ->
  update_episodes_jsonl p new_tasks create_backup w = (w, Raise OSError)
  /\ update_tasks_jsonl p new_tasks create_backup w = (w, Raise OSError).
Proof.
  intros H. rewrite update_episodes_jsonl_shape, update_tasks_jsonl_shape.
  split; by apply rewrite_with_no_file.
Qed.

Lemma rewriter_needs_a_file_witness :
  update_episodes_jsonl sample_meta ["new"] true scenario_world
    = (scenario_world, Raise OSError)
  /\ update_tasks_jsonl sample_meta ["new"] true scenario_world
     = (scenario_world, Raise OSError).
Proof.
  apply (rewriter_needs_a_file scenario_world sample_meta ["new"] true).
  intros content. vm_compute. discriminate.
Defined.

(** X14.  A tasks file without a record, empty or of blank lines only, is
    rewritten as the empty file: the blank lines are not kept. *)
Theorem update_tasks_jsonl_no_record (w : world) (p : path) (content : string)
    (new_tasks : list string) :
  nodes w !! p = Some (File content) ->
  Forall (fun line => nonblank line = false) (readlines content) ->
  update_tasks_jsonl p new_tasks false w
    = (World (<[p := File ""]> (nodes w)) (trace w ++ [Read p; Written p ""]), Ok ()).
Proof.
  intros Hp Hb. rewrite update_tasks_jsonl_shape.
  by rewrite (rewrite_with_plain _ _ _ content [] Hp (read_tasks_blank _ _ Hb)).
Qed.

Lemma update_tasks_jsonl_no_record_witness :
  update_tasks_jsonl sample_tasks ["new"] false (sample_world "" " || |")
  = (World (<[sample_tasks := File ""]> (nodes (sample_world "" " || |")))
       (trace (sample_world "" " || |") ++ [Read sample_tasks; Written sample_tasks ""]),
     Ok ()).
Proof.
  apply (update_tasks_jsonl_no_record (sample_world "" " || |") sample_tasks
           (text " || |") ["new"]); [reflexivity|].
  vm_compute. by repeat constructor.
Defined.

(** * More on a whole run *)

Module EmptyResult.

Lemma rstrip_empty (s : string) :
  Str.rstrip s = "" -> all_chars Str.is_space s = true.
Proof.
  induction s as [|a s IH]; [done|]. rewrite StrFacts.rstrip_String. cbn.
  destruct (Str.rstrip s); [|done]. destruct (Str.is_space a); [auto|done].
Qed.

Lemma lstrip_spaces (s : string) :
  all_chars Str.is_space (Str.lstrip s) = true -> all_chars Str.is_space s = true.
Proof.
  induction s as [|a s IH]; [done|]. cbn.
  destruct (Str.is_space a) eqn:Ha; [auto|]. cbn. by rewrite Ha.
Qed.

Lemma strip_empty (s : string) :
  Str.strip s = "" -> all_chars Str.is_space s = true.
Proof. intros H. by apply lstrip_spaces, rstrip_empty. Qed.

Lemma filter_nonempty_nil (l : list string) :
  List.filter Str.nonempty (Str.strip <$> l) = [] ->
  Forall (fun p => all_chars Str.is_space p = true) l.
Proof.
  induction l as [|p l IH]; [constructor|]. cbn.
  destruct (Str.strip p) eqn:Hp; [|done].
  intros H. constructor; [by apply strip_empty | auto].
Qed.

Lemma blank_pieces (s : string) :
  Forall (fun p => all_chars Str.is_space p = true) (Str.split "," s) ->
  all_chars comma_or_space s = true.
Proof.
  induction s as [|a s IH]; [done|]. rewrite StrFacts.split_String. cbn.
  unfold comma_or_space at 1.
  destruct (Ascii.eqb a ",") eqn:Hac.
  - intros [_ H]%Forall_cons_1. auto.
  - destruct (StrFacts.split_cons "," s) as (p & ps & Hs). rewrite Hs in *.
    intros [Hp H]%Forall_cons_1. cbn in Hp.
    apply andb_true_iff in Hp as [-> Hp]. apply IH. by constructor.
Qed.

Lemma list_of_str_nil (v : pyobj) :
  list_of_str v = Some [] -> v = PyList [].
Proof.
  destruct v as [|l|]; [done| |done]. destruct l as [|x l]; [done|]. cbn.
  destruct (as_str x); [|done]. cbn. by destruct (mapM as_str l).
Qed.

End EmptyResult.

Module RunMore.
Import JsonFacts LoadsFacts LineFacts RewriterFacts RunFacts OrchestratorFacts
  PathFacts DatasetFacts BackupName WholeRun RewriterMore.

Section Run.

Variable literal_eval : string -> outcome pyobj.
Variables (d : path) (new_tasks : task_arg) (b : bool) (w : world).

(** The run stops where the rewrite of the episodes file stops. *)
Lemma change_episodes_raise parsed_tasks w1 e :
  first_missing w d = None ->
  resolved literal_eval new_tasks = Ok parsed_tasks ->
  update_episodes_jsonl (episodes_of d) parsed_tasks b w = (w1, Raise e) ->
  change_task_description literal_eval d new_tasks b w = (w1, Raise e).
Proof using Type.
  intros Hm Ht He. rewrite change_none_missing by done.
  erewrite bind_run_Ok; [|unfold lift; by rewrite Ht].
  by erewrite bind_run_Raise.
Qed.

Lemma change_resolve_raise e :
  first_missing w d = None ->
  resolved literal_eval new_tasks = Raise e ->
  change_task_description literal_eval d new_tasks b w = (w, Raise e).
Proof using Type.
  intros Hm Ht. rewrite change_none_missing by done.
  erewrite bind_run_Raise; [done|]. unfold lift. by rewrite Ht.
Qed.

(** The episodes file rewritten, the run goes on with the tasks file. *)
Lemma change_episodes_ok parsed_tasks c_e ds_e :
  first_missing w d = None ->
  resolved literal_eval new_tasks = Ok parsed_tasks ->
  nodes w !! episodes_of d = Some (File c_e) ->
  load_lines (readlines c_e) = Ok (JObj <$> ds_e) ->
  (b = true ->
   nodes w !! copy_target w (episodes_of d) (episodes_backup_of d) <> Some Dir) ->
  change_task_description literal_eval d new_tasks b w
    = update_tasks_jsonl (tasks_of d) parsed_tasks b
        (rewritten (episodes_of d) (episodes_backup_of d) b c_e
           (write_records
              (JObj <$> (dict_set "tasks" (JArr (JStr <$> parsed_tasks)) <$> ds_e)))
           w).
Proof using Type.
  intros Hm Ht He Hl Hb. rewrite change_none_missing by done.
  erewrite bind_run_Ok; [|unfold lift; by rewrite Ht].
  erewrite bind_run_Ok; [done|].
  rewrite update_episodes_jsonl_shape.
  apply rewrite_with_ok with (bp := episodes_backup_of d);
    [apply with_suffix_episodes | done | by apply read_episodes_objects | done].
Qed.

End Run.

Lemma main_inv literal_eval d s b w w' :
  main literal_eval d s b w = (w', Some Success) ->
  change_task_description literal_eval d (RawText s) b w = (w', Ok ()).
Proof.
  unfold main.
  destruct (change_task_description _ _ _ _ _) as [w1 [[]| |]]; intros H;
    by simplify_eq.
Qed.

Lemma written_records_load (k : string) (v : json) (lines : list string)
    (ds : list (list (string * json))) :
  keys_once v ->
  load_lines lines = Ok (JObj <$> ds) ->
  load_lines (readlines (write_records (JObj <$> (dict_set k v <$> ds))))
    = Ok (JObj <$> (dict_set k v <$> ds)).
Proof.
  intros Hv Hl. apply load_written, keys_once_set_all; [done|].
  by eapply load_lines_keys_once.
Qed.

End RunMore.

Import JsonFacts LoadsFacts LineFacts RewriterFacts RunFacts OrchestratorFacts
  PathFacts DatasetFacts BackupName WholeRun RewriterMore EmptyResult RunMore.

(** X15.  The parser answers the empty sequence in two cases only: the
    argument, trimmed, is a bracketed literal that evaluates to the empty
    list, or it holds a comma and otherwise nothing but commas and white
    space. *)
Theorem parse_task_input_empty_result (literal_eval : string -> outcome pyobj)
    (s : string) :
  parse_task_input literal_eval s = Ok [] ->
  (Str.startswith "[" (Str.strip s) && Str.endswith "]" (Str.strip s) = true
   /\ literal_eval (Str.strip s) = Ok (PyList []))
  \/ (Str.contains "," s = true /\ all_chars comma_or_space s = true).
Proof.
  intros H.
  destruct (literal_attempt literal_eval (Str.strip s)) as [[tasks|]| |] eqn:Ha.
  - left. unfold parse_task_input in H. rewrite Ha in H. cbn in H.
    assert (tasks = []) as -> by congruence.
    unfold literal_attempt in Ha.
    destruct (Str.startswith "[" (Str.strip s) && Str.endswith "]" (Str.strip s));
      [|done].
    split; [done|].
    destruct (literal_eval (Str.strip s)) as [v|e|]; [|by destruct e|done].
    assert (list_of_str v = Some []) as ->%list_of_str_nil by congruence. done.
  - right. rewrite parse_task_input_fall_through in H by done.
    destruct (Str.contains "," s); [|done]. split; [done|].
    apply blank_pieces, filter_nonempty_nil. congruence.
  - unfold parse_task_input in H. by rewrite Ha in H.
  - unfold parse_task_input in H. by rewrite Ha in H.
Qed.

Lemma parse_task_input_empty_result_witness :
  (Str.startswith "[" (Str.strip ", ,") && Str.endswith "]" (Str.strip ", ,") = true
   /\ sample_eval (Str.strip ", ,") = Ok (PyList []))
  \/ (Str.contains "," ", ," = true /\ all_chars comma_or_space ", ," = true).
Proof.
  apply (parse_task_input_empty_result sample_eval ", ,"). reflexivity.
Defined.



(** X17.  A line of the episodes file that cannot be used ends the run
    with its error and exit code 1: the episodes file was read, the tasks
    file was never opened, and nothing was copied or written. *)
Theorem main_bad_episodes_line (literal_eval : string -> outcome pyobj)
    (dataset_path : path) (new_tasks : string) (create_backup : bool) (w : world)
    (parsed_tasks : list string) (content : string)
    (good : list string) (bad : string) (rest : list string)
    (ds : list (list (string * json))) (e : exn) :
  first_missing w dataset_path = None ->
  parse_task_input literal_eval new_tasks = Ok parsed_tasks ->
  nodes w !! episodes_of dataset_path = Some (File content) ->
  readlines content = good ++ bad :: rest ->
  load_lines good = Ok (JObj <$> ds) ->
  Json.loads (Str.strip bad) = Raise e
  \/ (exists v, Json.loads (Str.strip bad) = Ok v
                /\ not_object v = true /\ e = TypeError) ->
  main literal_eval dataset_path new_tasks create_backup w
    = (World (nodes w) (trace w ++ [Read (episodes_of dataset_path)]),
       Some (Failure e))
  /\ exit_code (Failure e) = 1%Z.
Proof.
  intros Hm HT Hp Hl Hg Hb. split; [|done].
  apply main_failure, change_episodes_raise with parsed_tasks; [done..|].
  rewrite update_episodes_jsonl_shape.
  apply rewrite_with_raises with content; [done|].
  rewrite Hl. by eapply read_episodes_stops.
Qed.

Lemma main_bad_episodes_line_witness :
  main sample_eval sample_dataset "new" true
    (sample_world "{'episode_index':0}|{'episode_index':|" "{'task_index':0}|")
    = (World (nodes (sample_world "{'episode_index':0}|{'episode_index':|"
                       "{'task_index':0}|"))
         (trace (sample_world "{'episode_index':0}|{'episode_index':|"
                   "{'task_index':0}|")
          ++ [Read (episodes_of sample_dataset)]),
       Some (Failure JSONDecodeError))
  /\ exit_code (Failure JSONDecodeError) = 1%Z.
Proof.
  apply (main_bad_episodes_line sample_eval sample_dataset "new" true
           (sample_world "{'episode_index':0}|{'episode_index':|" "{'task_index':0}|")
           ["new"] (text "{'episode_index':0}|{'episode_index':|")
           [text "{'episode_index':0}|"] (text "{'episode_index':|") []
           [[("episode_index", JInt 0)]] JSONDecodeError);
    try reflexivity.
  left. reflexivity.
Defined.

(** X18.  An argument on which the parser raises ends the run with exit
    code 1 before any file is opened: the world is as it was.  With the
    four paths in place the error reported is the parser's. *)
Theorem main_parser_error (literal_eval : string -> outcome pyobj)
    (dataset_path : path) (new_tasks : string) (create_backup : bool) (w : world)
    (e : exn) :
  parse_task_input literal_eval new_tasks = Raise e ->
  exists e',
    main literal_eval dataset_path new_tasks create_backup w = (w, Some (Failure e'))
    /\ exit_code (Failure e') = 1%Z
    /\ (first_missing w dataset_path = None -> e' = e).
Proof.
  intros He. destruct (first_missing w dataset_path) as [[what p]|] eqn:Hm.
  - eexists. split; [by apply main_failure, change_first_missing|].
    split; [done|]. congruence.
  - exists e. split; [|done]. by apply main_failure, change_resolve_raise.
Qed.

Lemma main_parser_error_witness :
  exists e',
    main sample_eval sample_dataset "[{[]: 1}, 2]" false scenario_world
      = (scenario_world, Some (Failure e'))
    /\ exit_code (Failure e') = 1%Z
    /\ (first_missing scenario_world sample_dataset = None -> e' = TypeError).
Proof.
  apply (main_parser_error sample_eval sample_dataset "[{[]: 1}, 2]" false
           scenario_world TypeError).
  reflexivity.
Defined.

(** X19.  A second run with the backup flag copies over the backups of the
    first: after it the backups, where [copy2] puts them, hold what the
    first run wrote, the records with the first run's tasks, and no longer
    the original files. *)
Theorem second_backup_holds_first_result (literal_eval : string -> outcome pyobj)
    (dataset_path : path) (first second : task_arg) (create_backup : bool)
    (w w1 w2 : world) :
  change_task_description literal_eval dataset_path first create_backup w
    = (w1, Ok ()) ->
  change_task_description literal_eval dataset_path second true w1 = (w2, Ok ()) ->
  exists parsed_tasks c_e c_t ds_e ds_t backup_e backup_t,
    resolved literal_eval first = Ok parsed_tasks
    /\ nodes w !! episodes_of dataset_path = Some (File c_e)
    /\ load_lines (readlines c_e) = Ok (JObj <$> ds_e)
    /\ nodes w !! tasks_of dataset_path = Some (File c_t)
    /\ load_lines (List.filter nonblank (readlines c_t)) = Ok (JObj <$> ds_t)
    /\ nodes w2
         !! copy_target w1 (episodes_of dataset_path) (episodes_backup_of dataset_path)
       = Some (File backup_e)
    /\ load_lines (readlines backup_e)
       = Ok (JObj <$> (dict_set "tasks" (JArr (JStr <$> parsed_tasks)) <$> ds_e))
    /\ nodes w2
         !! copy_target w1 (tasks_of dataset_path) (tasks_backup_of dataset_path)
       = Some (File backup_t)
    /\ load_lines (readlines backup_t)
       = Ok (JObj <$> (dict_set "task" (JStr (first_task parsed_tasks)) <$> ds_t))
    /\ (nodes w1 !! episodes_backup_of dataset_path <> Some Dir ->
        nodes w2 !! episodes_backup_of dataset_path = Some (File backup_e))
    /\ (nodes w1 !! tasks_backup_of dataset_path <> Some Dir ->
        nodes w2 !! tasks_backup_of dataset_path = Some (File backup_t)).
Proof.
  intros (T & c_e & rs_e & c_t & rs_t & _ & HT & He & Hre & Hk & Hrk & _ & ->)%change_ok_inv
         (T2 & c_e2 & rs_e2 & c_t2 & rs_t2 & _ & _ & He2 & _ & Hk2 & _ & _ & ->)%change_ok_inv.
  rewrite after_run_episodes in He2. rewrite after_run_tasks in Hk2.
  apply read_episodes_inv in Hre as (ds_e & Hle & ->).
  apply read_tasks_inv in Hrk as (ds_t & Hlk & ->).
  exists T, c_e, c_t, ds_e, ds_t, c_e2, c_t2.
  do 5 (split; [done|]).
  split; [apply after_run_episodes_copy|].
  split.
  { assert (c_e2 = write_records
                     (JObj <$> (dict_set "tasks" (JArr (JStr <$> T)) <$> ds_e)))
      as -> by congruence.
    eapply written_records_load, Hle. apply keys_once_tasks. }
  split; [apply after_run_tasks_copy|].
  split.
  { assert (c_t2 = write_records
                     (JObj <$> (dict_set "task" (JStr (first_task T)) <$> ds_t)))
      as -> by congruence.
    eapply written_records_load, Hlk. constructor. }
  split; intros Hn.
  - rewrite <- (copy_target_file _ (episodes_of dataset_path) _ Hn).
    apply after_run_episodes_copy.
  - rewrite <- (copy_target_file _ (tasks_of dataset_path) _ Hn).
    apply after_run_tasks_copy.
Qed.

Lemma second_backup_holds_first_result_witness :
  exists parsed_tasks c_e c_t ds_e ds_t backup_e backup_t,
    resolved sample_eval (RawText "first") = Ok parsed_tasks
    /\ nodes backup_dir_world !! episodes_of sample_dataset = Some (File c_e)
    /\ load_lines (readlines c_e) = Ok (JObj <$> ds_e)
    /\ nodes backup_dir_world !! tasks_of sample_dataset = Some (File c_t)
    /\ load_lines (List.filter nonblank (readlines c_t)) = Ok (JObj <$> ds_t)
    /\ nodes (main sample_eval sample_dataset "second" true
                (main sample_eval sample_dataset "first" true backup_dir_world).1).1
         !! copy_target (main sample_eval sample_dataset "first" true backup_dir_world).1
              (episodes_of sample_dataset) (episodes_backup_of sample_dataset)
       = Some (File backup_e)
    /\ load_lines (readlines backup_e)
       = Ok (JObj <$> (dict_set "tasks" (JArr (JStr <$> parsed_tasks)) <$> ds_e))
    /\ nodes (main sample_eval sample_dataset "second" true
                (main sample_eval sample_dataset "first" true backup_dir_world).1).1
         !! copy_target (main sample_eval sample_dataset "first" true backup_dir_world).1
              (tasks_of sample_dataset) (tasks_backup_of sample_dataset)
       = Some (File backup_t)
    /\ load_lines (readlines backup_t)
       = Ok (JObj <$> (dict_set "task" (JStr (first_task parsed_tasks)) <$> ds_t))
    /\ (nodes (main sample_eval sample_dataset "first" true backup_dir_world).1
          !! episodes_backup_of sample_dataset <> Some Dir ->
        nodes (main sample_eval sample_dataset "second" true
                 (main sample_eval sample_dataset "first" true backup_dir_world).1).1
          !! episodes_backup_of sample_dataset = Some (File backup_e))
    /\ (nodes (main sample_eval sample_dataset "first" true backup_dir_world).1
          !! tasks_backup_of sample_dataset <> Some Dir ->
        nodes (main sample_eval sample_dataset "second" true
                 (main sample_eval sample_dataset "first" true backup_dir_world).1).1
          !! tasks_backup_of sample_dataset = Some (File backup_t)).
Proof.
  apply (second_backup_holds_first_result sample_eval sample_dataset
           (RawText "first") (RawText "second") true backup_dir_world
           (main sample_eval sample_dataset "first" true backup_dir_world).1
           (main sample_eval sample_dataset "second" true
              (main sample_eval sample_dataset "first" true backup_dir_world).1).1);
    vm_compute; reflexivity.
Defined.

(** X20.  A run that ends in success or with an exception has changed no
    path but the episodes file and the tasks file and, with the backup
    flag, the places of the two copies: the backup paths and, for a backup
    path that is a directory, the entry in it named after the file.
    Without the flag the backups of an earlier run are left as they
    are. *)
Theorem run_touches_only_its_files (literal_eval : string -> outcome pyobj)
    (dataset_path : path) (new_tasks : task_arg) (create_backup : bool)
    (w w' : world) (o : outcome ()) (q : path) :
  change_task_description literal_eval dataset_path new_tasks create_backup w
    = (w', o) ->
  o <> Unmodelled ->
  q <> episodes_of dataset_path ->
  q <> tasks_of dataset_path ->
  (create_backup = true ->
   q <> episodes_backup_of dataset_path
   /\ q <> tasks_backup_of dataset_path
   /\ q <> joinpath (episodes_backup_of dataset_path) "episodes.jsonl"
   /\ q <> joinpath (tasks_backup_of dataset_path) "tasks.jsonl") ->
  nodes w' !! q = nodes w !! q.
Proof.
  intros H _ Hq1 Hq2 Hb.
  destruct (first_missing w dataset_path) as [[what p]|] eqn:Hm.
  { rewrite (change_first_missing _ _ _ _ _ what p Hm) in H. by simplify_eq. }
  rewrite change_none_missing in H by done.
  unfold mbind at 1, M_bind, lift in H.
  destruct (resolved literal_eval new_tasks) as [T| |]; [|by simplify_eq..].
  unfold mbind, M_bind in H.
  destruct (update_episodes_jsonl _ T create_backup w) as [w1 o1] eqn:He.
  assert (nodes w1 !! q = nodes w !! q) as <-.
  { rewrite update_episodes_jsonl_shape in He.
    eapply rewrite_with_frame; [done..|].
    intros Hb' bp Hs. rewrite with_suffix_episodes in Hs.
    rewrite basename_episodes. destruct (Hb Hb') as (? & ? & ? & ?).
    by simplify_eq. }
  destruct o1 as [[]| |]; [|by simplify_eq..].
  rewrite update_tasks_jsonl_shape in H.
  eapply rewrite_with_frame; [done..|].
  intros Hb' bp Hs. rewrite with_suffix_tasks in Hs.
  rewrite basename_tasks. destruct (Hb Hb') as (? & ? & ? & ?).
  by simplify_eq.
Qed.

Lemma run_touches_only_its_files_witness :
  nodes (change_task_description sample_eval sample_dataset (RawText "second") false
           (main sample_eval sample_dataset "first" true scenario_world).1).1
    !! episodes_backup_of sample_dataset
  = nodes (main sample_eval sample_dataset "first" true scenario_world).1
      !! episodes_backup_of sample_dataset.
Proof.
  apply (run_touches_only_its_files sample_eval sample_dataset (RawText "second") false
           (main sample_eval sample_dataset "first" true scenario_world).1 _
           (change_task_description sample_eval sample_dataset (RawText "second") false
              (main sample_eval sample_dataset "first" true scenario_world).1).2).
  - by destruct (change_task_description _ _ _ _ _).
  - vm_compute. discriminate.
  - vm_compute. discriminate.
  - vm_compute. discriminate.
  - discriminate.
Defined.

(** X21.  A caller that passes the task list itself gets the run it would
    get by passing a text that the parser reads as that list. *)
Theorem task_list_same_as_text (literal_eval : string -> outcome pyobj)
    (dataset_path : path) (s : string) (tasks : list string) (create_backup : bool)
    (w : world) :
  parse_task_input literal_eval s = Ok tasks ->
  change_task_description literal_eval dataset_path (RawText s) create_backup w
  = change_task_description literal_eval dataset_path (TaskList tasks) create_backup w.
Proof.
  intros H. destruct (first_missing w dataset_path) as [[what p]|] eqn:Hm.
  - by rewrite !(change_first_missing _ _ _ _ _ what p Hm).
  - rewrite !change_none_missing by done. cbn [resolved]. by rewrite H.
Qed.

Lemma task_list_same_as_text_witness :
  change_task_description sample_eval sample_dataset (RawText "a, b ,,c") true
    scenario_world
  = change_task_description sample_eval sample_dataset (TaskList ["a"; "b"; "c"]) true
      scenario_world.
Proof.
  apply (task_list_same_as_text sample_eval sample_dataset "a, b ,,c" ["a"; "b"; "c"]
           true scenario_world).
  reflexivity.
Defined.

(** X22.  A run succeeds on well-formed datasets only: when it ends with
    success the four paths were there, the parser accepted the argument,
    every line of the episodes file decoded to an object, and so did every
    line of the tasks file that was not blank. *)
Theorem main_success_only_if_well_formed (literal_eval : string -> outcome pyobj)
    (dataset_path : path) (new_tasks : string) (create_backup : bool) (w w' : world) :
  main literal_eval dataset_path new_tasks create_backup w = (w', Some Success) ->
  exists parsed_tasks c_e c_t ds_e ds_t,
    Forall (fun wp => nodes w !! wp.2 <> None) (required_paths dataset_path)
    /\ parse_task_input literal_eval new_tasks = Ok parsed_tasks
    /\ nodes w !! episodes_of dataset_path = Some (File c_e)
    /\ load_lines (readlines c_e) = Ok (JObj <$> ds_e)
    /\ nodes w !! tasks_of dataset_path = Some (File c_t)
    /\ load_lines (List.filter nonblank (readlines c_t)) = Ok (JObj <$> ds_t).
Proof.
  intros (T & c_e & rs_e & c_t & rs_t & Hm & HT & He & Hre & Hk & Hrk & _ & _)
           %main_inv%change_ok_inv.
  apply read_episodes_inv in Hre as (ds_e & Hle & _).
  apply read_tasks_inv in Hrk as (ds_t & Hlk & _).
  exists T, c_e, c_t, ds_e, ds_t. split; [|done].
  apply first_missing_None in Hm as (? & ? & ? & ?).
  by repeat constructor.
Qed.

Lemma main_success_only_if_well_formed_witness :
  exists parsed_tasks c_e c_t ds_e ds_t,
    Forall (fun wp => nodes scenario_world !! wp.2 <> None)
      (required_paths sample_dataset)
    /\ parse_task_input sample_eval "Pick up the red cube" = Ok parsed_tasks
    /\ nodes scenario_world !! episodes_of sample_dataset = Some (File c_e)
    /\ load_lines (readlines c_e) = Ok (JObj <$> ds_e)
    /\ nodes scenario_world !! tasks_of sample_dataset = Some (File c_t)
    /\ load_lines (List.filter nonblank (readlines c_t)) = Ok (JObj <$> ds_t).
Proof.
  apply (main_success_only_if_well_formed sample_eval sample_dataset
           "Pick up the red cube" false scenario_world
           (main sample_eval sample_dataset "Pick up the red cube" false
              scenario_world).1).
  vm_compute. reflexivity.
Defined.

(** X23.  The check that a path exists accepts a directory where a file is
    meant.  A directory in the place of the episodes file ends the run
    with the error of [open] and the world as it was; one in the place of
    the tasks file ends it with the same error after the episodes file
    has been rewritten. *)
Theorem directory_in_place_of_file (literal_eval : string -> outcome pyobj)
    (dataset_path : path) (new_tasks : string) (w : world)
    (parsed_tasks : list string) :
  first_missing w dataset_path = None ->
  parse_task_input literal_eval new_tasks = Ok parsed_tasks ->
  (nodes w !! episodes_of dataset_path = Some Dir ->
   main literal_eval dataset_path new_tasks false w = (w, Some (Failure OSError)))
  /\ (forall c_e ds_e,
        nodes w !! episodes_of dataset_path = Some (File c_e) ->
        load_lines (readlines c_e) = Ok (JObj <$> ds_e) ->
        nodes w !! tasks_of dataset_path = Some Dir ->
        exists w' new_e,
          main literal_eval dataset_path new_tasks false w
            = (w', Some (Failure OSError))
          /\ nodes w' !! episodes_of dataset_path = Some (File new_e)
          /\ load_lines (readlines new_e)
             = Ok (JObj <$> (dict_set "tasks" (JArr (JStr <$> parsed_tasks)) <$> ds_e))
          /\ nodes w' !! tasks_of dataset_path = Some Dir).
Proof.
  intros Hm HT. split.
  - intros He. apply main_failure, change_episodes_raise with parsed_tasks; [done..|].
    rewrite update_episodes_jsonl_shape. apply rewrite_with_no_file. congruence.
  - intros c_e ds_e He Hle Hk.
    eexists _, _. split.
    { apply main_failure.
      rewrite (change_episodes_ok _ _ _ _ _ parsed_tasks c_e ds_e) by done.
      rewrite update_tasks_jsonl_shape. apply rewrite_with_no_file.
      rewrite rewritten_lookup_other by distinct_paths. congruence. }
    split; [apply rewritten_lookup|].
    split; [by eapply written_records_load, Hle; apply keys_once_tasks|].
    by rewrite rewritten_lookup_other by distinct_paths.
Qed.

Lemma directory_in_place_of_file_witness :
  main sample_eval sample_dataset "new" false
    (World (<[sample_episodes := Dir]> (nodes scenario_world)) [])
  = (World (<[sample_episodes := Dir]> (nodes scenario_world)) [],
     Some (Failure OSError)).
Proof.
  apply (directory_in_place_of_file sample_eval sample_dataset "new"
           (World (<[sample_episodes := Dir]> (nodes scenario_world)) []) ["new"]);
    reflexivity.
Defined.

Import RunFacts BackupName.

(** X24.  The backup is named after the file with its extension replaced,
    not extended: a rewriter run with the backup flag on [base.ext] copies
    the old content to [base.jsonl.backup] of the same directory, whatever
    the extension [ext] is: to the file of that name or, when a directory
    of that name is there, into it. *)
Theorem backup_replaces_extension (w w' : world) (dir : path) (base ext : string)
    (new_tasks : list string) :
  base <> "" -> ext <> "" -> Str.contains "." ext = false ->
  update_episodes_jsonl (joinpath dir (base +:+ String "." ext)) new_tasks true w
    = (w', Ok ())
  \/ update_tasks_jsonl (joinpath dir (base +:+ String "." ext)) new_tasks true w
     = (w', Ok ()) ->
  exists content,
    nodes w !! joinpath dir (base +:+ String "." ext) = Some (File content)
    /\ nodes w'
         !! copy_target w (joinpath dir (base +:+ String "." ext))
              (joinpath dir (base +:+ ".jsonl.backup"))
       = Some (File content)
    /\ (nodes w !! joinpath dir (base +:+ ".jsonl.backup") <> Some Dir ->
        nodes w' !! joinpath dir (base +:+ ".jsonl.backup") = Some (File content)).
Proof.
  intros Hb He Hd H.
  assert (exists read_loop,
            rewrite_with read_loop (joinpath dir (base +:+ String "." ext)) true w
            = (w', Ok ())) as (read_loop & Hrun).
  { destruct H as [H|H]; eauto. }
  apply rewrite_with_inv in Hrun as (content & records & Hp & _ & bp & Hs & _ & ->).
  pose proof (copy_target_ne w _ _ Hs) as Hne.
  rewrite with_suffix_extension in Hs by done.
  assert (bp = joinpath dir (base +:+ ".jsonl.backup")) as -> by congruence.
  exists content. split; [done|]. cbn [nodes].
  assert (<[joinpath dir (base +:+ String "." ext) := File (write_records records)]>
            (<[copy_target w (joinpath dir (base +:+ String "." ext))
                 (joinpath dir (base +:+ ".jsonl.backup")) := File content]> (nodes w))
            !! copy_target w (joinpath dir (base +:+ String "." ext))
                 (joinpath dir (base +:+ ".jsonl.backup"))
          = Some (File content)) as Hcopy.
  { rewrite lookup_insert_ne by congruence. apply lookup_insert_eq. }
  split; [done|].
  intros Hn. rewrite (copy_target_file _ _ _ Hn) in *. done.
Qed.

Lemma backup_replaces_extension_witness :
  exists content,
    nodes (World {[ ["data"; "episodes.txt"] := File (text "{'a':1}|") ]} [])
      !! joinpath ["data"] ("episodes" +:+ String "." "txt") = Some (File content)
    /\ nodes (update_episodes_jsonl ["data"; "episodes.txt"] ["new"] true
                (World {[ ["data"; "episodes.txt"] := File (text "{'a':1}|") ]} [])).1
         !! copy_target (World {[ ["data"; "episodes.txt"] := File (text "{'a':1}|") ]} [])
              (joinpath ["data"] ("episodes" +:+ String "." "txt"))
              (joinpath ["data"] ("episodes" +:+ ".jsonl.backup"))
       = Some (File content)
    /\ (nodes (World {[ ["data"; "episodes.txt"] := File (text "{'a':1}|") ]} [])
          !! joinpath ["data"] ("episodes" +:+ ".jsonl.backup") <> Some Dir ->
        nodes (update_episodes_jsonl ["data"; "episodes.txt"] ["new"] true
                 (World {[ ["data"; "episodes.txt"] := File (text "{'a':1}|") ]} [])).1
          !! joinpath ["data"] ("episodes" +:+ ".jsonl.backup") = Some (File content)).
Proof.
  apply (backup_replaces_extension
           (World {[ ["data"; "episodes.txt"] := File (text "{'a':1}|") ]} []) _
           ["data"] "episodes" "txt" ["new"]);
    [discriminate | discriminate | reflexivity |].
  left. vm_compute. reflexivity.
Defined.
